(** * Read-only NFL statistics queries: a shallow embedding of
    [src/web/queries_supabase.py] and the properties its specification states.

    The Python module fetches rows through a table-query client, joins them
    with dimension lookups, derives display fields, ranks and truncates.  The
    embedding keeps that shape: rows are dictionaries from column names to
    loosely typed JSON scalars, Python exceptions are an explicit error type,
    dictionaries built by the code are finite maps, and the client and the
    headshot resolver are parameters of the pipelines. *)

From Stdlib Require Import ZArith Floats Ascii String.
From stdpp Require Import base option list sorting gmap strings pretty.

Set Warnings "-inexact-float".
Local Open Scope Z_scope.

(** ** Exceptions and fallible computations *)

Inductive exn : Set :=
  | ValueError
  | TypeError
  | OverflowError
  | AttributeError
  | KeyError.

Inductive result (A : Type) : Type :=
  | Ok (a : A)
  | Raise (e : exn).
Arguments Ok {A} a.
Arguments Raise {A} e.

#[global] Instance result_ret : MRet result := λ A a, Ok a.
#[global] Instance result_bind : MBind result := λ A B f m,
  match m with
  | Ok a => f a
  | Raise e => Raise e
  end.

#[global] Instance result_fmap : FMap result := λ A B f m,
  match m with
  | Ok a => Ok (f a)
  | Raise e => Raise e
  end.

(** [for x in l: ...] with a body that may raise: the first exception ends the
    loop. *)
Fixpoint mapR {A B} (f : A → result B) (l : list A) : result (list B) :=
  match l with
  | [] => Ok []
  | x :: l' => y ← f x; ys ← mapR f l'; Ok (y :: ys)
  end.

(** A loop that appends a row per turn, where a turn may [continue]
    (no row) or raise. *)
Fixpoint collectR {A B} (f : A → result (option B)) (l : list A)
  : result (list B) :=
  match l with
  | [] => Ok []
  | x :: l' =>
      y ← f x;
      ys ← collectR f l';
      Ok (match y with Some b => b :: ys | None => ys end)
  end.

(** How a turn of such a loop ended: with a row ([true]), with [continue]
    ([false]), or with an exception. *)
Definition turn_outcome {A} (m : result (option A)) : result bool :=
  match m with
  | Ok (Some _) => Ok true
  | Ok None => Ok false
  | Raise e => Raise e
  end.

(** ** Python strings

    A [str] is modelled by the [string] of its UTF-8 bytes.  The predicates
    and case maps of [strip], [upper] and [lower] below are Python's on code
    points below 128, and bytes from 128 on are carried along unchanged.
    The conversions [int(s)] and [float(s)] read the code points of the
    text: they are Python's on every text, the limit on the digits of an
    integer numeral apart ([int_max_str_digits] below). *)

Module PyStr.

Definition code (c : ascii) : Z := Z.of_N (N_of_ascii c).

(** [str.isspace] on one character: TAB, LF, VT, FF, CR, the four
    separators FS GS RS US, and the blank. *)
Definition isspace (c : ascii) : bool :=
  (9 <=? code c) && (code c <=? 13) || (28 <=? code c) && (code c <=? 32).

Definition isdigit (c : ascii) : bool :=
  (48 <=? code c) && (code c <=? 57).

Definition islower (c : ascii) : bool :=
  (97 <=? code c) && (code c <=? 122).

Definition isupper (c : ascii) : bool :=
  (65 <=? code c) && (code c <=? 90).

Definition upper_char (c : ascii) : ascii :=
  if islower c then ascii_of_N (N_of_ascii c - 32) else c.

Definition lower_char (c : ascii) : ascii :=
  if isupper c then ascii_of_N (N_of_ascii c + 32) else c.

Fixpoint map_chars (f : ascii → ascii) (s : string) : string :=
  match s with
  | EmptyString => EmptyString
  | String c s' => String (f c) (map_chars f s')
  end.

(** [s.upper()] and [s.lower()] *)
Definition upper : string → string := map_chars upper_char.
Definition lower : string → string := map_chars lower_char.

(** [s.lstrip()] *)
Fixpoint lstrip (s : string) : string :=
  match s with
  | EmptyString => EmptyString
  | String c s' => if isspace c then lstrip s' else s
  end.

(** [s.rstrip()]: a character goes when it is a blank and nothing but
    blanks follows it. *)
Fixpoint rstrip (s : string) : string :=
  match s with
  | EmptyString => EmptyString
  | String c s' =>
      match rstrip s' with
      | EmptyString => if isspace c then EmptyString else String c EmptyString
      | t => String c t
      end
  end.

(** [s.strip()] *)
Definition strip (s : string) : string := rstrip (lstrip s).

(** [sep.join(parts)] *)
Fixpoint join (sep : string) (parts : list string) : string :=
  match parts with
  | [] => EmptyString
  | [p] => p
  | p :: ps => p +:+ sep +:+ join sep ps
  end.

Fixpoint of_list (l : list ascii) : string :=
  match l with
  | [] => EmptyString
  | c :: l' => String c (of_list l')
  end.

(** [str(i)] for an integer: decimal digits, a minus sign when negative.

    CPython 3.11 and later refuse, with [ValueError], to print an integer
    of more than [int_max_str_digits] digits and to read a numeral of more
    than that many digits, unless the limit is switched off.  [of_int] and
    [parse_int] are the conversions without the limit: they are the
    interpreter's on every integer and numeral within it, and convert
    where the interpreter raises beyond it.  What C8 and X6 state of the
    text of a number is stated within the limit. *)
Definition int_max_str_digits : Z := 4300.

Definition of_int (i : Z) : string := pretty i.

(** *** The text of a numeral

    [int] and [float] first bring the text of their argument to ASCII
    ([_PyUnicode_TransformDecimalAndSpaceToASCII]): a code point below 127
    stays, a Unicode blank becomes a space, a Unicode decimal digit the
    ASCII digit of its value, and anything else ends the text with a
    question mark.  A text that is ASCII already is taken as it is. *)

(** The value of a continuation byte of UTF-8. *)
Definition continuation (c : ascii) : option Z :=
  if (128 <=? code c) && (code c <=? 191) then Some (code c - 128) else None.

(** The code points of a text; [-1] stands for a byte that starts no
    well-formed sequence. *)
Fixpoint code_points (s : string) : list Z :=
  match s with
  | EmptyString => []
  | String c s1 =>
      let n := code c in
      if n <? 128 then n :: code_points s1
      else
        match s1 with
        | String c1 s2 =>
            match continuation c1 with
            | Some a =>
                if (194 <=? n) && (n <=? 223)
                then ((n - 192) * 64 + a) :: code_points s2
                else
                  match s2 with
                  | String c2 s3 =>
                      match continuation c2 with
                      | Some b =>
                          let v3 := ((n - 224) * 64 + a) * 64 + b in
                          if (224 <=? n) && (n <=? 239) && (2048 <=? v3)
                          then v3 :: code_points s3
                          else
                            match s3 with
                            | String c3 s4 =>
                                match continuation c3 with
                                | Some d =>
                                    let v4 :=
                                      (((n - 240) * 64 + a) * 64 + b) * 64
                                      + d in
                                    if (240 <=? n) && (n <=? 244)
                                       && (65536 <=? v4) && (v4 <=? 1114111)
                                    then v4 :: code_points s4
                                    else -1 :: code_points s1
                                | None => -1 :: code_points s1
                                end
                            | EmptyString => -1 :: code_points s1
                            end
                      | None => -1 :: code_points s1
                      end
                  | EmptyString => -1 :: code_points s1
                  end
            | None => -1 :: code_points s1
            end
        | EmptyString => [-1]
        end
  end.

(** [Py_UNICODE_ISSPACE] on a code point from 128 on. *)
Definition unicode_space (cp : Z) : bool :=
  (cp =? 133) || (cp =? 160) || (cp =? 5760)
  || (8192 <=? cp) && (cp <=? 8202) || (cp =? 8232) || (cp =? 8233)
  || (cp =? 8239) || (cp =? 8287) || (cp =? 12288).

(** The digit zero of every run of ten decimal digits from 128 on
    (Unicode 14, the data of CPython 3.11). *)
Definition decimal_zeros : list Z :=
  [1632; 1776; 1984; 2406; 2534; 2662; 2790; 2918; 3046; 3174; 3302; 3430;
   3558; 3664; 3792; 3872; 4160; 4240; 6112; 6160; 6470; 6608; 6784; 6800;
   6992; 7088; 7232; 7248; 42528; 43216; 43264; 43472; 43504; 43600; 44016;
   65296; 66720; 68912; 69734; 69872; 69942; 70096; 70384; 70736; 70864;
   71248; 71360; 71472; 71904; 72016; 72784; 73040; 73120; 92768; 92864;
   93008; 120782; 120792; 120802; 120812; 120822; 123200; 123632; 125264;
   130032].

(** [Py_UNICODE_TODECIMAL] on a code point from 128 on. *)
Definition unicode_decimal (cp : Z) : option Z :=
  head (omap (λ z, if (z <=? cp) && (cp <=? z + 9) then Some (cp - z)
                   else None) decimal_zeros).

Definition char_of (cp : Z) : ascii := ascii_of_N (Z.to_N cp).

Fixpoint to_ascii (cps : list Z) : string :=
  match cps with
  | [] => EmptyString
  | cp :: rest =>
      if (0 <=? cp) && (cp <? 127) then String (char_of cp) (to_ascii rest)
      else if unicode_space cp then String " " (to_ascii rest)
      else
        match unicode_decimal cp with
        | Some d => String (char_of (48 + d)) (to_ascii rest)
        | None => "?"
        end
  end.

Fixpoint is_ascii (s : string) : bool :=
  match s with
  | EmptyString => true
  | String c s' => (code c <? 128) && is_ascii s'
  end.

Definition numeral_text (s : string) : string :=
  if is_ascii s then s else to_ascii (code_points s).

(** [Py_ISSPACE]: the blanks that may stand around a numeral, once its
    text is ASCII.  The four separators FS GS RS US are not among them. *)
Definition isspace_c (c : ascii) : bool :=
  (9 <=? code c) && (code c <=? 13) || (code c =? 32).

Fixpoint lstrip_c (s : string) : string :=
  match s with
  | EmptyString => EmptyString
  | String c s' => if isspace_c c then lstrip_c s' else s
  end.

Fixpoint rstrip_c (s : string) : string :=
  match s with
  | EmptyString => EmptyString
  | String c s' =>
      match rstrip_c s' with
      | EmptyString =>
          if isspace_c c then EmptyString else String c EmptyString
      | t => String c t
      end
  end.

Definition strip_c (s : string) : string := rstrip_c (lstrip_c s).

Definition digit_value (c : ascii) : Z := code c - 48.

(** The digit part of a numeric literal: decimal digits, where single
    underscores may separate digits.  [acc] is the value read so far,
    [n] the number of digits read, [prev] whether the previous character
    was a digit. *)
Fixpoint digits_from (acc : Z) (n : Z) (prev : bool) (s : string)
  : option (Z * Z * string) :=
  match s with
  | EmptyString => if prev then Some (acc, n, EmptyString) else None
  | String c s' =>
      if isdigit c then digits_from (10 * acc + digit_value c) (n + 1) true s'
      else if Ascii.eqb c "_" then
        (if prev then
           match s' with
           | String d _ => if isdigit d then digits_from acc n false s' else None
           | EmptyString => None
           end
         else None)
      else if prev then Some (acc, n, s) else None
  end.

(** An optional sign in front of a literal: the sign and the rest. *)
Definition split_sign (s : string) : bool * string :=
  match s with
  | String "-" s' => (true, s')
  | String "+" s' => (false, s')
  | _ => (false, s)
  end.

(** [int(s)] for a string, base ten: blanks around, an optional sign,
    digits with optional single underscores between them.  [None] is
    Python's [ValueError]. *)
Definition parse_int (s : string) : option Z :=
  let '(neg, body) := split_sign (strip_c (numeral_text s)) in
  match digits_from 0 0 false body with
  | Some (v, _, EmptyString) => Some (if neg then - v else v)
  | _ => None
  end.

End PyStr.

(** ** Python floats

    A [float] is an IEEE 754 binary64 number, here the primitive [float].
    The conversions below are the ones the module relies on: [float(i)],
    [int(f)], [float(s)] and [str(f)]. *)

Module PyFloat.

(** [float(i)]: the nearest binary64 number, ties to even; an integer
    beyond the finite range raises [OverflowError]. *)
Definition of_int (i : Z) : result float :=
  let f := SF2Prim (binary_normalize prec emax i 0 false) in
  if PrimFloat.is_infinity f then Raise OverflowError else Ok f.

(** [int(f)]: truncation towards zero; [ValueError] on a NaN and
    [OverflowError] on an infinity. *)
Definition to_int (f : float) : result Z :=
  match Prim2SF f with
  | S754_zero _ => Ok 0
  | S754_infinity _ => Raise OverflowError
  | S754_nan => Raise ValueError
  | S754_finite s m e =>
      let a := Z.shiftl (Zpos m) e in
      Ok (if s then - a else a)
  end.

(** [bool(f)]: every float but the two zeros is true. *)
Definition truthy (f : float) : bool := negb (PrimFloat.eqb f 0%float).

(** The binary64 number nearest to [p / q] for positive [p] and [q],
    ties to even.  The quotient is taken with at least 55 significant
    bits, and one more bit records whether anything was left over, so
    that the rounding of that integer is the rounding of the fraction. *)
Definition of_ratio (neg : bool) (p q : Z) : float :=
  let k := Z.max 0 (Z.log2 q - Z.log2 p + 56) in
  let n := (p * 2 ^ k) / q in
  let sticky := if (p * 2 ^ k) mod q =? 0 then 0 else 1 in
  let m := 2 * n + sticky in
  SF2Prim (binary_normalize prec emax (if neg then - m else m) (- k - 1) false).

(** The binary64 number nearest to an integer, ties to even; infinite
    beyond the finite range. *)
Definition nearest (i : Z) : float :=
  SF2Prim (binary_normalize prec emax i 0 false).

(** The binary64 number nearest to [d * 10 ^ e], for [d] at least 0: the
    rounding of an integer when [e] is at least 0, of a quotient
    otherwise. *)
Definition of_decimal (neg : bool) (d e : Z) : float :=
  if d =? 0 then (if neg then (-0)%float else 0%float)
  else if 0 <=? e then nearest (if neg then - (d * 10 ^ e) else d * 10 ^ e)
  else of_ratio neg d (10 ^ (- e)).

(** The exponent part of a literal: nothing, or [e], an optional sign
    and digits; the whole rest of the string has to be used up. *)
Definition parse_exponent (s : string) : option Z :=
  match s with
  | EmptyString => Some 0
  | String c s' =>
      if Ascii.eqb c "e" || Ascii.eqb c "E" then
        let '(neg, body) := PyStr.split_sign s' in
        match PyStr.digits_from 0 0 false body with
        | Some (v, _, EmptyString) => Some (if neg then - v else v)
        | _ => None
        end
      else None
  end.

(** The fraction part: nothing, or a point followed by digits that may
    be missing.  Returns all digits read so far as one integer, how many
    of them are behind the point, and the rest. *)
Definition parse_fraction (ip : Z) (s : string) : option (Z * Z * string) :=
  match s with
  | String "." s' =>
      match s' with
      | String d _ =>
          if PyStr.isdigit d then PyStr.digits_from ip 0 false s'
          else Some (ip, 0, s')
      | EmptyString => Some (ip, 0, s')
      end
  | _ => Some (ip, 0, s)
  end.

(** A decimal literal without its sign. *)
Definition parse_decimal (neg : bool) (s : string) : option float :=
  match s with
  | String "." (String d _) =>
      if PyStr.isdigit d then
        '(ds, nf, rest) ← parse_fraction 0 s;
        e ← parse_exponent rest;
        Some (of_decimal neg ds (e - nf))
      else None
  | _ =>
      '(ip, _, rest) ← PyStr.digits_from 0 0 false s;
      '(ds, nf, rest') ← parse_fraction ip rest;
      e ← parse_exponent rest';
      Some (of_decimal neg ds (e - nf))
  end.

(** [float(s)] for a string: blanks around, an optional sign, then
    [inf], [infinity] or [nan] in any case, or a decimal literal.  [None]
    is Python's [ValueError]. *)
Definition parse (s : string) : option float :=
  let '(neg, body) := PyStr.split_sign (PyStr.strip_c (PyStr.numeral_text s)) in
  let word := PyStr.lower body in
  if String.eqb word "inf" || String.eqb word "infinity" then
    Some (if neg then neg_infinity else infinity)
  else if String.eqb word "nan" then Some nan
  else parse_decimal neg body.

(** *** [str(f)]: the shortest decimal string that reads back as [f] *)

(** Number of decimal digits of a positive integer. *)
Definition ndigits (n : Z) : Z := Z.of_nat (String.length (pretty n)).

(** Whether [p / q] is at least [10 ^ x]. *)
Definition ge_pow10 (p q x : Z) : bool :=
  if 0 <=? x then q * 10 ^ x <=? p else q <=? p * 10 ^ (- x).

(** The position of the decimal point of [p / q]: the [x] with
    [10 ^ (x - 1) <= p / q < 10 ^ x]. *)
Definition decpt (p q : Z) : Z :=
  let x0 := if q <=? p then ndigits (p / q) else 1 - ndigits (q / p) in
  if ge_pow10 p q x0 then x0 + 1
  else if ge_pow10 p q (x0 - 1) then x0
  else x0 - 1.

(** The [n]-digit decimal nearest to [p / q] among those that read back
    as [f], when there is one.  Only the two neighbours of [p / q] can
    qualify; between two that do, the nearer wins, the even one on a
    tie. *)
Definition shortest_at (f : float) (p q x n : Z) : option Z :=
  let s := n - x in
  let num := if 0 <=? s then p * 10 ^ s else p in
  let den := if 0 <=? s then q else q * 10 ^ (- s) in
  let lo := num / den in
  let r := num mod den in
  let back c := PrimFloat.eqb (of_decimal false c (x - n)) f in
  match back lo, back (lo + 1) with
  | true, true =>
      Some (if 2 * r <? den then lo
            else if den <? 2 * r then lo + 1
            else if Z.even lo then lo else lo + 1)
  | true, false => Some lo
  | false, true => Some (lo + 1)
  | false, false => None
  end.

(** The digits of the shortest decimal for a positive finite [f] equal
    to [p / q], with their number before trailing zeros are removed. *)
Definition shortest (f : float) (p q x : Z) : Z * Z :=
  default (0, 1)
    (head (omap (λ n, c ← shortest_at f p q x n; Some (c, n)) (seqZ 1 17))).

Definition zeros (n : Z) : string :=
  PyStr.of_list (replicate (Z.to_nat n) "0"%char).

Fixpoint strip_zeros (s : string) : string :=
  match s with
  | EmptyString => EmptyString
  | String c s' =>
      match strip_zeros s' with
      | EmptyString =>
          if Ascii.eqb c "0" then EmptyString else String c EmptyString
      | t => String c t
      end
  end.

(** Layout of [repr]: plain notation while the decimal point stays within
    [-4 < dp <= 16], scientific notation with a two-digit exponent
    otherwise. *)
Definition layout (neg : bool) (c n x : Z) : string :=
  let ds0 := pretty c in
  let dp := x + (Z.of_nat (String.length ds0) - n) in
  let ds := strip_zeros ds0 in
  let len := Z.of_nat (String.length ds) in
  let body :=
    if (-4 <? dp) && (dp <=? 16) then
      if dp <=? 0 then "0." +:+ zeros (- dp) +:+ ds
      else if len <=? dp then ds +:+ zeros (dp - len) +:+ ".0"
      else substring 0 (Z.to_nat dp) ds +:+ "." +:+
           substring (Z.to_nat dp) (Z.to_nat (len - dp)) ds
    else
      let e := dp - 1 in
      let mant :=
        match ds with
        | String d (String d' rest) => String d ("." +:+ String d' rest)
        | _ => ds
        end in
      mant +:+ "e" +:+ (if e <? 0 then "-" else "+") +:+
      (if Z.abs e <? 10 then "0" else EmptyString) +:+ pretty (Z.abs e)
  in
  (if neg then "-" else EmptyString) +:+ body.

(** [str(f)], which is [repr(f)]. *)
Definition repr (f : float) : string :=
  match Prim2SF f with
  | S754_zero s => if s then "-0.0" else "0.0"
  | S754_infinity s => if s then "-inf" else "inf"
  | S754_nan => "nan"
  | S754_finite s m e =>
      let p := if 0 <=? e then Zpos m * 2 ^ e else Zpos m in
      let q := if 0 <=? e then 1 else 2 ^ (- e) in
      let x := decpt p q in
      let '(c, n) := shortest (PrimFloat.abs f) p q x in
      layout s c n x
  end.

End PyFloat.

(** ** Python values

    The rows a query returns are JSON objects: every column holds [None],
    a boolean, an integer, a float or a string. *)

Inductive value : Type :=
  | VNone
  | VBool (b : bool)
  | VInt (i : Z)
  | VFloat (f : float)
  | VStr (s : string).

(** A row is a [dict[str, Any]] with a handful of keys, kept as the list of
    its items; a key is looked up from the front. *)
Abbreviation row := (list (string * value)).

Fixpoint row_lookup (k : string) (r : row) : option value :=
  match r with
  | [] => None
  | (k', v) :: r' => if String.eqb k' k then Some v else row_lookup k r'
  end.

(** [r.get(k)]: the value under [k], [None] when the key is missing. *)
Definition get (r : row) (k : string) : value :=
  default VNone (row_lookup k r).

Module Py.

(** [x is None] *)
Definition is_None (x : value) : bool :=
  match x with VNone => true | _ => false end.

(** [x == s] for a string [s]: only an equal string compares equal. *)
Definition eq_str (x : value) (s : string) : bool :=
  match x with VStr t => String.eqb t s | _ => false end.

(** [bool(x)], the test behind [if x], [not x] and [x or y]. *)
Definition truthy (x : value) : bool :=
  match x with
  | VNone => false
  | VBool b => b
  | VInt i => negb (i =? 0)
  | VFloat f => PyFloat.truthy f
  | VStr s => negb (String.eqb s EmptyString)
  end.

(** [x or y] *)
Definition or_ (x y : value) : value := if truthy x then x else y.

(** [int(x)] *)
Definition int_ (x : value) : result Z :=
  match x with
  | VNone => Raise TypeError
  | VBool b => Ok (if b then 1 else 0)
  | VInt i => Ok i
  | VFloat f => PyFloat.to_int f
  | VStr s =>
      match PyStr.parse_int s with
      | Some i => Ok i
      | None => Raise ValueError
      end
  end.

(** [float(x)] *)
Definition float_ (x : value) : result float :=
  match x with
  | VNone => Raise TypeError
  | VBool b => Ok (if b then 1%float else 0%float)
  | VInt i => PyFloat.of_int i
  | VFloat f => Ok f
  | VStr s =>
      match PyFloat.parse s with
      | Some f => Ok f
      | None => Raise ValueError
      end
  end.

(** [str(x)] *)
Definition str_ (x : value) : string :=
  match x with
  | VNone => "None"
  | VBool b => if b then "True" else "False"
  | VInt i => PyStr.of_int i
  | VFloat f => PyFloat.repr f
  | VStr s => s
  end.

(** [x.strip()]: only a string has the method. *)
Definition strip (x : value) : result string :=
  match x with
  | VStr s => Ok (PyStr.strip s)
  | _ => Raise AttributeError
  end.

(** [x[k]] on a row: [KeyError] when the key is missing. *)
Definition item (r : row) (k : string) : result value :=
  match row_lookup k r with
  | Some v => Ok v
  | None => Raise KeyError
  end.

(** [not p] for a row: only the empty dictionary is false. *)
Definition empty_dict (p : row) : bool :=
  match p with [] => true | _ => false end.

(** [x not in (None, empty string)] *)
Definition present (x : value) : bool :=
  negb (is_None x || eq_str x EmptyString).

(** [o or 0] for an optional integer: [None] and [0] are both false. *)
Definition or_zero (o : option Z) : Z := default 0 o.

End Py.

(** ** Numeric and identifier coercion *)

(** [_safe_int], as written: the whole body sits in a [try] whose handler
    returns [None]. *)
Definition _safe_int_try (x : value) : result (option Z) :=
  match (if Py.is_None x || Py.eq_str x EmptyString then Ok None
         else i ← Py.int_ x; Ok (Some i)) with
  | Ok r => Ok r
  | Raise _ => Ok None
  end.

(** The value [_safe_int] returns. *)
Definition _safe_int (x : value) : option Z :=
  match _safe_int_try x with
  | Ok r => r
  | Raise _ => None
  end.

(** [_safe_float], as written. *)
Definition _safe_float_try (x : value) : result (option float) :=
  match (if Py.is_None x || Py.eq_str x EmptyString then Ok None
         else f ← Py.float_ x; Ok (Some f)) with
  | Ok r => Ok r
  | Raise _ => Ok None
  end.

Definition _safe_float (x : value) : option float :=
  match _safe_float_try x with
  | Ok r => r
  | Raise _ => None
  end.

(** [_in_list]: the filter expression for membership in a list of ids. *)
Definition _in_list (values : list Z) : string :=
  "in.(" +:+ PyStr.join "," (PyStr.of_int <$> values) +:+ ")".

(** ** Numerals, said without the parser

    What the specification calls a valid numeric string, for the two
    coercions: blanks, an optional sign, decimal digits, and for a float
    also a point with more digits or an exponent.  The texts are built from
    their parts, and their values are computed from the digits; none of this
    refers to [int_], [float_] or the functions they are made of. *)

Module Numeral.

Inductive sign : Set := Unsigned | Plus | Minus.

Definition sign_text (sg : sign) : string :=
  match sg with
  | Unsigned => EmptyString
  | Plus => "+"
  | Minus => "-"
  end.

Definition negative (sg : sign) : bool :=
  match sg with Minus => true | _ => false end.

Definition signed (sg : sign) (v : Z) : Z := if negative sg then - v else v.

(** The ASCII digit of a value from 0 to 9. *)
Definition digit_char (d : Z) : ascii := ascii_of_N (Z.to_N (48 + d)).

Definition digits_text (ds : list Z) : string :=
  PyStr.of_list (digit_char <$> ds).

(** The number a sequence of digits denotes, leading zeros allowed. *)
Definition digits_value (ds : list Z) : Z :=
  foldl (λ acc d, 10 * acc + d) 0 ds.

(** At least one digit, each from 0 to 9. *)
Definition digits (ds : list Z) : Prop :=
  ds ≠ [] ∧ Forall (λ d, 0 ≤ d ≤ 9) ds.

(** Blanks around a numeral: TAB, LF, VT, FF, CR and the space. *)
Definition blanks (s : string) : Prop :=
  Forall (λ c, PyStr.code c ∈ [9; 10; 11; 12; 13; 32])
    (list_ascii_of_string s).

(** An integer numeral. *)
Definition int_text (b1 : string) (sg : sign) (ds : list Z) (b2 : string)
  : string :=
  b1 +:+ sign_text sg +:+ digits_text ds +:+ b2.

(** A numeral with a point: digits, a point, digits. *)
Definition point_text (b1 : string) (sg : sign) (ds1 ds2 : list Z)
    (b2 : string) : string :=
  b1 +:+ sign_text sg +:+ digits_text ds1 +:+ "." +:+ digits_text ds2 +:+ b2.

(** A numeral with an exponent: digits, [e], an optional sign, digits. *)
Definition exponent_text (b1 : string) (sg : sign) (ds : list Z)
    (sge : sign) (dse : list Z) (b2 : string) : string :=
  b1 +:+ sign_text sg +:+ digits_text ds +:+ "e" +:+ sign_text sge
  +:+ digits_text dse +:+ b2.

(** The characters an integer numeral can hold, underscores between digits
    included. *)
Definition int_char (c : ascii) : bool :=
  PyStr.isdigit c || PyStr.isspace_c c || Ascii.eqb c "+" || Ascii.eqb c "-"
  || Ascii.eqb c "_".

(** The characters a float numeral can hold: those of an integer numeral,
    the point, and the letters of [e], [inf], [infinity] and [nan] in
    either case. *)
Definition float_char (c : ascii) : bool :=
  int_char c || Ascii.eqb c "."
  || existsb (Ascii.eqb (PyStr.lower_char c)) ["e"; "i"; "n"; "f"; "t"; "y"; "a"]%char.

(** Texts with characters outside ASCII, as their UTF-8 bytes: the
    separator U+001C, the no-break space U+00A0, the Arabic-Indic digits
    U+0661 U+0662 U+0663, the fullwidth digit U+FF17 and the letter
    U+00E9. *)
Definition file_separator : string := PyStr.of_list ["028"]%char.
Definition no_break_space : string := PyStr.of_list ["194"; "160"]%char.
Definition arabic_indic_123 : string :=
  PyStr.of_list ["217"; "161"; "217"; "162"; "217"; "163"]%char.
Definition fullwidth_7 : string := PyStr.of_list ["239"; "188"; "151"]%char.
Definition e_acute : string := PyStr.of_list ["195"; "169"]%char.

End Numeral.

(** The characters an id is printed with are neither a comma nor a closing
    parenthesis, the two characters that can follow an id in the
    expression. *)
Definition plain (c : ascii) : Prop :=
  Ascii.eqb c "," = false ∧ Ascii.eqb c ")" = false.

(** ** Name normalisation for the headshot lookup

    [_merge_name] is the one place where the text may be any Unicode string,
    so here a [str] is the list of its code points.  Lower-casing a
    character below 128 is the ASCII map; what [str.lower] does to any other
    character, possibly depending on its neighbours and possibly yielding
    several characters, is left open as [lower_other]. *)

Module MergeName.

Abbreviation ustr := (list N).

(** The code points of a text: its bytes when the text is ASCII. *)
Definition of_string (s : string) : ustr :=
  N_of_ascii <$> list_ascii_of_string s.

Section Lower.

Variable lower_other : ustr → N → ustr → ustr.

Definition lower_ascii (c : N) : N :=
  if ((65 <=? c) && (c <=? 90))%N then (c + 32)%N else c.

(** [s.lower()], reading [s] from left to right; [before] is the part
    already read. *)
Fixpoint lower_from (before s : ustr) : ustr :=
  match s with
  | [] => []
  | c :: s' =>
      (if (c <? 128)%N then [lower_ascii c] else lower_other before c s')
      ++ lower_from (before ++ [c]) s'
  end.

Definition lower (s : ustr) : ustr := lower_from [] s.

(** The characters [_NAME_RE] leaves in place: [a-z], [0-9] and the
    blank. *)
Definition kept (c : N) : bool :=
  ((97 <=? c) && (c <=? 122) || (48 <=? c) && (c <=? 57) || (c =? 32))%N.

(** [str.isspace] on a code point, which is also what the pattern
    [\s] matches. *)
Definition isspace (c : N) : bool :=
  ((9 <=? c) && (c <=? 13) || (28 <=? c) && (c <=? 32) || (c =? 133)
   || (c =? 160) || (c =? 5760) || (8192 <=? c) && (c <=? 8202)
   || (c =? 8232) || (c =? 8233) || (c =? 8239) || (c =? 8287)
   || (c =? 12288))%N.

Fixpoint lstrip (s : ustr) : ustr :=
  match s with
  | [] => []
  | c :: s' => if isspace c then lstrip s' else s
  end.

Fixpoint rstrip (s : ustr) : ustr :=
  match s with
  | [] => []
  | c :: s' =>
      match rstrip s' with
      | [] => if isspace c then [] else [c]
      | t => c :: t
      end
  end.

Definition strip (s : ustr) : ustr := rstrip (lstrip s).

(** [re.sub(r"\s+", " ", s)]: every maximal run of blanks becomes one
    blank.  [in_run] tells that the previous character was a blank. *)
Fixpoint collapse (in_run : bool) (s : ustr) : ustr :=
  match s with
  | [] => []
  | c :: s' =>
      if isspace c then
        (if in_run then collapse true s' else 32%N :: collapse true s')
      else c :: collapse false s'
  end.

Definition _merge_name (name : ustr) : ustr :=
  let s := strip (filter (λ c, kept c = true) (lower name)) in
  collapse false s.

(** The shape of a normalised name: kept characters only, no blank at
    either end, no run of blanks left to collapse. *)
Definition normal (s : ustr) : Prop :=
  Forall (λ c, kept c = true) s ∧ lstrip s = s ∧ rstrip s = s ∧
  collapse false s = s.

End Lower.

(** *** The normal form, said without the code

    The specification has the function lower-case, strip the characters
    outside [a-z0-9] and the blank, collapse internal whitespace and trim.
    Once only those characters are left, that is: take the words, the
    maximal runs of characters other than the blank, and put one blank
    between two of them. *)

(** The pieces between the blanks of a text, empty ones included. *)
Fixpoint split_blank (s : ustr) : list ustr :=
  match s with
  | [] => [[]]
  | c :: s' =>
      if (c =? 32)%N then [] :: split_blank s'
      else
        match split_blank s' with
        | w :: ws => (c :: w) :: ws
        | [] => [[c]]
        end
  end.

Definition words (s : ustr) : list ustr :=
  filter (λ w, w ≠ []) (split_blank s).

Fixpoint unwords (ws : list ustr) : ustr :=
  match ws with
  | [] => []
  | [w] => w
  | w :: ws' => w ++ 32%N :: unwords ws'
  end.

(** What [str.lower] leaves of a code point from 128 on once the characters
    outside [a-z0-9] and the blank are gone (Unicode 14): the capital I with
    a dot above gives [i], the Kelvin sign gives [k], and no other code
    point gives anything. *)
Definition kept_other (c : N) : ustr :=
  if (c =? 304)%N then [105%N] else if (c =? 8490)%N then [107%N] else [].

(** The same for any code point. *)
Definition kept_lower (c : N) : ustr :=
  if (c <? 128)%N then
    (if kept (lower_ascii c) then [lower_ascii c] else [])
  else kept_other c.

End MergeName.

(** ** Ranking and truncation *)

(** [l.sort(key=key, reverse=True)]: descending by key, and stable: rows
    with equal keys keep their order.  Any stable sort gives this one
    result; insertion is the simplest to state. *)
Fixpoint insert_desc {A} (key : A → Z) (x : A) (l : list A) : list A :=
  match l with
  | [] => [x]
  | y :: l' => if key y <=? key x then x :: l else y :: insert_desc key x l'
  end.

Definition sort_desc {A} (key : A → Z) (l : list A) : list A :=
  foldr (insert_desc key) [] l.

(** [min(max(limit, 1), cap)] *)
Definition clamp (limit cap : Z) : Z := Z.min (Z.max limit 1) cap.

(** [out[: min(max(limit, 1), cap)]] *)
Definition truncate {A} (limit cap : Z) (out : list A) : list A :=
  take (Z.to_nat (clamp limit cap)) out.

(** [sorted({...})] for a collection of integers. *)
Definition sorted_set (l : list Z) : list Z := merge_sort Z.le (remove_dups l).

(** [_uniq_sorted_int]: the integers among [vals], each once, sorted.  The
    loop keeps the list [out] and the set [seen]; a value [int] rejects is
    skipped by the [try]. *)
Definition uniq_turn (st : list Z * gset Z) (v : value) : list Z * gset Z :=
  match Py.int_ v with
  | Ok i =>
      if bool_decide (i ∈ st.2) then st else (st.1 ++ [i], {[i]} ∪ st.2)
  | Raise _ => st
  end.

Definition _uniq_sorted_int (vals : list value) (desc : bool) : list Z :=
  let out := (foldl uniq_turn ([], ∅) vals).1 in
  if desc then sort_desc id out else merge_sort Z.le out.

(** ** Has the player recorded any stat? *)

Definition stat_keys : list string :=
  ["passing_attempts"; "passing_completions"; "rushing_attempts";
   "receptions"; "receiving_targets"].

(** [_has_any_stats]: the loop returns at the first key whose coerced value
    is a positive integer. *)
Definition _has_any_stats (r : row) : bool :=
  existsb (λ k, match _safe_int (get r k) with
                | Some v => negb (v =? 0) && (0 <? v)
                | None => false
                end) stat_keys.

(** ** Rows the queries return *)

Record player_row := {
  pl_player_id : string;
  pl_player_name : string;
  pl_team : option string;
  pl_position : option string;
  pl_season : Z;
  pl_games : Z;
  pl_targets : Z;
  pl_receptions : Z;
  pl_receivingYards : Z;
  pl_receivingTouchdowns : Z;
  pl_avgYardsPerCatch : float;
  pl_rushAttempts : Z;
  pl_rushingYards : Z;
  pl_rushingTouchdowns : Z;
  pl_avgYardsPerRush : float;
  pl_passingAttempts : Z;
  pl_passingCompletions : Z;
  pl_passingYards : Z;
  pl_passingTouchdowns : Z;
  pl_passingInterceptions : Z;
  pl_qbRating : option float;
  pl_qbr : option float;
  pl_photoUrl : option string
}.

Record log_row := {
  lg_season : Z;
  lg_week : Z;
  lg_game_id : string;
  lg_team : option string;
  lg_opponent : option string;
  lg_home_team : option string;
  lg_away_team : option string;
  lg_location : string;
  lg_is_postseason : bool;
  lg_targets : Z;
  lg_receptions : Z;
  lg_rec_yards : Z;
  lg_rec_tds : Z;
  lg_air_yards : Z;
  lg_yac : Z;
  lg_rush_attempts : Z;
  lg_rush_yards : Z;
  lg_rush_tds : Z;
  lg_passing_attempts : Z;
  lg_passing_completions : Z;
  lg_passing_yards : Z;
  lg_passing_tds : Z;
  lg_interceptions : Z;
  lg_qb_rating : option float;
  lg_qbr : option float
}.

Record receiving_row := {
  rv_season : Z;
  rv_week : Z;
  rv_team : option string;
  rv_player_id : string;
  rv_player_name : string;
  rv_position : value;
  rv_targets : Z;
  rv_receptions : Z;
  rv_rec_yards : Z;
  rv_rec_tds : Z;
  rv_air_yards : Z;
  rv_yac : Z;
  rv_photoUrl : option string
}.

Record rushing_row := {
  ru_season : Z;
  ru_week : Z;
  ru_team : option string;
  ru_player_id : string;
  ru_player_name : string;
  ru_position : value;
  ru_rush_attempts : Z;
  ru_rush_yards : Z;
  ru_rush_tds : Z;
  ru_receptions : Z;
  ru_rec_yards : Z;
  ru_photoUrl : option string
}.

Record receiving_season_row := {
  rs_season : Z;
  rs_team : option string;
  rs_player_id : string;
  rs_player_name : string;
  rs_position : option string;
  rs_targets : Z;
  rs_receptions : Z;
  rs_rec_yards : Z;
  rs_air_yards : Z;
  rs_rec_tds : Z;
  rs_team_target_share : option float;
  rs_photoUrl : option string
}.

Record rushing_season_row := {
  us_season : Z;
  us_team : option string;
  us_player_id : string;
  us_player_name : string;
  us_position : option string;
  us_rush_attempts : Z;
  us_rush_yards : Z;
  us_rush_tds : Z;
  us_team_rush_share : option float;
  us_photoUrl : option string
}.

(** ** The query pipelines

    The table-query client and the headshot resolver are collaborators of
    the module: [sb_select table columns filters order limit] stands for
    [sb.select(table, select=columns, filters=filters, order=order,
    limit=limit)], which answers with a list of rows, and
    [player_photo_url_from_name_team name team] for the resolver, which
    answers with a URL or [None]. *)

Section Queries.

Variable sb_select :
  string → string → list (string * string) → option string → Z → list row.
Variable player_photo_url_from_name_team :
  string → option string → option string.

(** One turn of the loop of [_team_map]: the [try] skips a team row whose
    id is missing or does not convert. *)
Definition team_map_turn (team_map : gmap Z string) (t : row)
  : gmap Z string :=
  match (v ← Py.item t "id"; Py.int_ v) with
  | Ok i =>
      <[i := PyStr.upper
               (Py.str_ (Py.or_ (get t "abbreviation") (VStr EmptyString)))]>
        team_map
  | Raise _ => team_map
  end.

(** [_team_map]: team id to upper-cased abbreviation, for the ids given;
    no fetch for an empty list of ids. *)
Definition _team_map (team_ids : list Z) : gmap Z string :=
  match team_ids with
  | [] => ∅
  | _ =>
      foldl team_map_turn ∅
        (sb_select "nfl_teams" "id,abbreviation"
           [("id", _in_list team_ids)] None (Z.of_nat (length team_ids)))
  end.

(** The id of the team with a given abbreviation, as every pipeline with a
    team argument looks it up: nothing for a missing or empty argument, for
    an abbreviation no team row carries, and for a row whose id does not
    convert. *)
Definition team_id_of (team : option string) : option Z :=
  match team with
  | Some tm =>
      if String.eqb tm EmptyString then None
      else
        match sb_select "nfl_teams" "id" [("abbreviation", "eq." +:+ tm)]
                None 1 with
        | t0 :: _ => _safe_int (get t0 "id")
        | [] => None
        end
  | None => None
  end.

(** *** Filter options and table summary *)

Variable sb_count : string → Z.

Record options_result := {
  op_seasons : list Z;
  op_weeks : list Z;
  op_teams : list string;
  op_positions : list string
}.

Definition options : options_result :=
  let games :=
    sb_select "nfl_games" "season,week" [] (Some "season.desc,week.asc")
      5000 in
  let seasons := _uniq_sorted_int ((λ g, get g "season") <$> games) true in
  let weeks := _uniq_sorted_int ((λ g, get g "week") <$> games) false in
  let teams :=
    sb_select "nfl_teams" "abbreviation" [] (Some "abbreviation.asc") 1000 in
  let team_abbr :=
    omap (λ t, match get t "abbreviation" with
               | VStr a => Some a
               | _ => None
               end) teams in
  {| op_seasons := seasons; op_weeks := weeks; op_teams := team_abbr;
     op_positions := ["QB"; "RB"; "WR"; "TE"] |}.

Record summary_result := {
  sm_seasons : list Z;
  sm_games : Z;
  sm_players : Z;
  sm_teams : Z
}.

Definition summary : summary_result :=
  let games := sb_count "nfl_games" in
  let players := sb_count "nfl_players" in
  let teams := sb_count "nfl_teams" in
  let seasons_rows :=
    sb_select "nfl_games" "season" [] (Some "season.asc") 5000 in
  let seasons :=
    _uniq_sorted_int ((λ r, get r "season") <$> seasons_rows) false in
  {| sm_seasons := seasons; sm_games := games; sm_players := players;
     sm_teams := teams |}.

(** *** Player season list *)

Definition season_stats_columns : string :=
  "player_id,games_played," +:+
  "passing_attempts,passing_completions,passing_yards,passing_touchdowns,passing_interceptions," +:+
  "qbr,qb_rating," +:+
  "rushing_attempts,rushing_yards,rushing_touchdowns," +:+
  "receptions,receiving_yards,receiving_touchdowns,receiving_targets".

(** The season stat rows that pass [_has_any_stats]. *)
Definition season_stats_rows (season : Z) : list row :=
  filter (λ r, _has_any_stats r = true)
    (sb_select "nfl_player_season_stats" season_stats_columns
       [("season", "eq." +:+ PyStr.of_int season); ("postseason", "eq.false")]
       None 8000).

(** The player rows fetched for the ids of the stat rows. *)
Definition season_players (player_ids : list Z) : list row :=
  sb_select "nfl_players"
    "id,first_name,last_name,position_abbreviation,team_id"
    [("id", _in_list player_ids)] None (Z.of_nat (length player_ids)).

(** [player_map]: a later row for an id replaces an earlier one. *)
Definition player_map_of (players : list row) : gmap Z row :=
  foldl (λ player_map p,
           match _safe_int (get p "id") with
           | Some pid => <[pid := p]> player_map
           | None => player_map
           end) ∅ players.

(** [sorted({int(p["team_id"]) for p in players if ...})]: the conversion
    is not guarded, so a team id that is present but not an integer raises. *)
Definition player_team_ids (players : list row) : result (list Z) :=
  ids ← mapR (λ p, v ← Py.item p "team_id"; Py.int_ v)
        (filter (λ p, Py.present (get p "team_id") = true) players);
  Ok (sorted_set ids).

(** [x / y] for the two averages: [0.0] when the divisor is zero. *)
Definition average (total count : Z) : result float :=
  if count =? 0 then Ok 0%float
  else a ← PyFloat.of_int total; b ← PyFloat.of_int count; Ok (a / b)%float.

(** One turn of the loop over the stat rows: [None] is [continue]. *)
Definition list_entry (season : Z) (player_map : gmap Z row)
    (team_map : gmap Z string) (pos_filter : string) (team_id : option Z)
    (s : row) : result (option player_row) :=
  match _safe_int (get s "player_id") with
  | None => Ok None
  | Some pid =>
      match player_map !! pid with
      | None => Ok None
      | Some p =>
          if Py.empty_dict p then Ok None else
          pos ← PyStr.upper <$>
                 Py.strip (Py.or_ (get p "position_abbreviation")
                             (VStr EmptyString));
          if negb (String.eqb pos_filter EmptyString)
             && negb (String.eqb pos pos_filter) then Ok None else
          let tid := _safe_int (get p "team_id") in
          if match team_id with
             | Some t => negb (bool_decide (tid = Some t))
             | None => false
             end then Ok None else
          first ← Py.strip (Py.or_ (get p "first_name") (VStr EmptyString));
          last ← Py.strip (Py.or_ (get p "last_name") (VStr EmptyString));
          let full := PyStr.strip (first +:+ " " +:+ last) in
          let name :=
            if String.eqb full EmptyString then PyStr.of_int pid else full in
          let team_abbr := tid ≫= (team_map !!.) in
          let games := Py.or_zero (_safe_int (get s "games_played")) in
          let targets := Py.or_zero (_safe_int (get s "receiving_targets")) in
          let rec := Py.or_zero (_safe_int (get s "receptions")) in
          let rec_yards := Py.or_zero (_safe_int (get s "receiving_yards")) in
          let rec_tds :=
            Py.or_zero (_safe_int (get s "receiving_touchdowns")) in
          let rush_att := Py.or_zero (_safe_int (get s "rushing_attempts")) in
          let rush_yards := Py.or_zero (_safe_int (get s "rushing_yards")) in
          let rush_tds :=
            Py.or_zero (_safe_int (get s "rushing_touchdowns")) in
          let pass_att := Py.or_zero (_safe_int (get s "passing_attempts")) in
          let pass_cmp :=
            Py.or_zero (_safe_int (get s "passing_completions")) in
          let pass_yds := Py.or_zero (_safe_int (get s "passing_yards")) in
          let pass_tds :=
            Py.or_zero (_safe_int (get s "passing_touchdowns")) in
          let pass_int :=
            Py.or_zero (_safe_int (get s "passing_interceptions")) in
          let qb_rating := _safe_float (get s "qb_rating") in
          let qbr := _safe_float (get s "qbr") in
          avg_ypc ← average rec_yards rec;
          avg_ypr ← average rush_yards rush_att;
          let photo := player_photo_url_from_name_team name team_abbr in
          Ok (Some {|
            pl_player_id := PyStr.of_int pid;
            pl_player_name := name;
            pl_team := team_abbr;
            pl_position :=
              if String.eqb pos EmptyString then None else Some pos;
            pl_season := season;
            pl_games := games;
            pl_targets := targets;
            pl_receptions := rec;
            pl_receivingYards := rec_yards;
            pl_receivingTouchdowns := rec_tds;
            pl_avgYardsPerCatch := avg_ypc;
            pl_rushAttempts := rush_att;
            pl_rushingYards := rush_yards;
            pl_rushingTouchdowns := rush_tds;
            pl_avgYardsPerRush := avg_ypr;
            pl_passingAttempts := pass_att;
            pl_passingCompletions := pass_cmp;
            pl_passingYards := pass_yds;
            pl_passingTouchdowns := pass_tds;
            pl_passingInterceptions := pass_int;
            pl_qbRating := qb_rating;
            pl_qbr := qbr;
            pl_photoUrl := photo
          |})
      end
  end.

(** [sort_key] of the season list. *)
Definition sort_key (r : player_row) : Z :=
  let pos := PyStr.upper (default EmptyString (pl_position r)) in
  if String.eqb pos "WR" || String.eqb pos "TE" then pl_receivingYards r
  else pl_rushingYards r.

(** The rows collected by the loop, before ranking. *)
Definition list_rows (season : Z) (position team : option string)
    (stats_rows : list row) : result (list player_row) :=
  let team_id := team_id_of team in
  let player_ids := omap (λ r, _safe_int (get r "player_id")) stats_rows in
  let players := season_players player_ids in
  let player_map := player_map_of players in
  team_ids ← player_team_ids players;
  let team_map := _team_map team_ids in
  let pos_filter :=
    PyStr.upper (PyStr.strip (default EmptyString position)) in
  collectR (list_entry season player_map team_map pos_filter team_id)
    stats_rows.

Definition get_players_list (season : option Z) (position team : option string)
    (limit : Z) : result (list player_row) :=
  match season with
  | None => Ok []
  | Some season =>
      let stats_rows := season_stats_rows season in
      match stats_rows with
      | [] => Ok []
      | _ =>
          match omap (λ r, _safe_int (get r "player_id")) stats_rows with
          | [] => Ok []
          | _ =>
              out ← list_rows season position team stats_rows;
              Ok (truncate limit 300 (sort_desc sort_key out))
          end
      end
  end.

(** *** Player game log *)

Definition game_stats_columns : string :=
  "player_id,game_id,season,week,postseason,team_id," +:+
  "rushing_attempts,rushing_yards,rushing_touchdowns," +:+
  "receptions,receiving_yards,receiving_touchdowns,receiving_targets," +:+
  "passing_attempts,passing_completions,passing_yards,passing_touchdowns,passing_interceptions," +:+
  "qbr,qb_rating".

(** The stat rows of one player and season, in week order. *)
Definition game_log_stats (pid season : Z) (include_postseason : bool)
  : list row :=
  sb_select "nfl_player_game_stats" game_stats_columns
    ([("player_id", "eq." +:+ PyStr.of_int pid);
      ("season", "eq." +:+ PyStr.of_int season)]
     ++ (if include_postseason then [] else [("postseason", "eq.false")]))
    (Some "week.asc") 400.

(** [sorted({int(r["game_id"]) for r in rows if ...})]: here too the
    conversion is not guarded. *)
Definition game_ids_of (rows : list row) : result (list Z) :=
  ids ← mapR (λ r, v ← Py.item r "game_id"; Py.int_ v)
        (filter (λ r, Py.present (get r "game_id") = true) rows);
  Ok (sorted_set ids).

Definition games_of (game_ids : list Z) : list row :=
  sb_select "nfl_games" "id,home_team_id,visitor_team_id,postseason"
    [("id", _in_list game_ids)] None (Z.of_nat (length game_ids)).

Definition game_map_of (games : list row) : gmap Z row :=
  foldl (λ game_map g,
           match _safe_int (get g "id") with
           | Some gid => <[gid := g]> game_map
           | None => game_map
           end) ∅ games.

(** The team ids to resolve: home and visitor of every game with an id,
    and the team of every stat row. *)
Definition log_team_ids (games rows : list row) : list Z :=
  let of_game g :=
    match _safe_int (get g "id") with
    | Some _ =>
        option_list (_safe_int (get g "home_team_id")) ++
        option_list (_safe_int (get g "visitor_team_id"))
    | None => []
    end in
  sorted_set (flat_map of_game games
              ++ omap (λ r, _safe_int (get r "team_id")) rows).

(** [o or d] for an optional integer. *)
Definition or_else (o : option Z) (d : Z) : Z :=
  match o with
  | Some i => if i =? 0 then d else i
  | None => d
  end.

(** [location] and [opp] of a row of the log: "home" and no opponent unless
    the team of the row and both teams of the game are known. *)
Definition location_opponent (tid ht vt : option Z)
    (home_abbr away_abbr : option string) : string * option string :=
  match tid, ht, vt with
  | Some t, Some h, Some _ =>
      if t =? h then ("home", away_abbr) else ("away", home_abbr)
  | _, _, _ => ("home", None)
  end.

(** One turn of the loop over the stat rows of the game log. *)
Definition log_entry (season : Z) (game_map : gmap Z row)
    (tmap : gmap Z string) (r : row) : option log_row :=
  match _safe_int (get r "game_id") with
  | None => None
  | Some gid =>
      let g := default [] (game_map !! gid) in
      let ht := _safe_int (get g "home_team_id") in
      let vt := _safe_int (get g "visitor_team_id") in
      let tid := _safe_int (get r "team_id") in
      let team_abbr := tid ≫= (tmap !!.) in
      let home_abbr := ht ≫= (tmap !!.) in
      let away_abbr := vt ≫= (tmap !!.) in
      let '(location, opp) :=
        location_opponent tid ht vt home_abbr away_abbr in
      Some {|
        lg_season := or_else (_safe_int (get r "season")) season;
        lg_week := Py.or_zero (_safe_int (get r "week"));
        lg_game_id := PyStr.of_int gid;
        lg_team := team_abbr;
        lg_opponent := opp;
        lg_home_team := home_abbr;
        lg_away_team := away_abbr;
        lg_location := location;
        lg_is_postseason := Py.truthy (get r "postseason");
        lg_targets := Py.or_zero (_safe_int (get r "receiving_targets"));
        lg_receptions := Py.or_zero (_safe_int (get r "receptions"));
        lg_rec_yards := Py.or_zero (_safe_int (get r "receiving_yards"));
        lg_rec_tds := Py.or_zero (_safe_int (get r "receiving_touchdowns"));
        lg_air_yards := 0;
        lg_yac := 0;
        lg_rush_attempts := Py.or_zero (_safe_int (get r "rushing_attempts"));
        lg_rush_yards := Py.or_zero (_safe_int (get r "rushing_yards"));
        lg_rush_tds := Py.or_zero (_safe_int (get r "rushing_touchdowns"));
        lg_passing_attempts :=
          Py.or_zero (_safe_int (get r "passing_attempts"));
        lg_passing_completions :=
          Py.or_zero (_safe_int (get r "passing_completions"));
        lg_passing_yards := Py.or_zero (_safe_int (get r "passing_yards"));
        lg_passing_tds := Py.or_zero (_safe_int (get r "passing_touchdowns"));
        lg_interceptions :=
          Py.or_zero (_safe_int (get r "passing_interceptions"));
        lg_qb_rating := _safe_float (get r "qb_rating");
        lg_qbr := _safe_float (get r "qbr")
      |}
  end.

Definition get_player_game_logs (player_id : string) (season : Z)
    (include_postseason : bool) : result (list log_row) :=
  match _safe_int (VStr player_id) with
  | None => Ok []
  | Some pid =>
      let rows := game_log_stats pid season include_postseason in
      match rows with
      | [] => Ok []
      | _ =>
          game_ids ← game_ids_of rows;
          let games := games_of game_ids in
          let game_map := game_map_of games in
          let tmap := _team_map (log_team_ids games rows) in
          Ok (omap (log_entry season game_map tmap) rows)
      end
  end.

(** *** Weekly dashboards *)

(** The filters of both dashboards: season, week and regular season, and
    the team id when the abbreviation resolved to one. *)
Definition week_filters (season week : Z) (team : option string)
  : list (string * string) :=
  [("season", "eq." +:+ PyStr.of_int season);
   ("week", "eq." +:+ PyStr.of_int week);
   ("postseason", "eq.false")]
  ++ match team_id_of team with
     | Some tid => [("team_id", "eq." +:+ PyStr.of_int tid)]
     | None => []
     end.

(** The stat rows of a dashboard after ranking by [rank_column] and
    truncation. *)
Definition week_stats (columns rank_column : string) (season week : Z)
    (team : option string) (limit : Z) : list row :=
  let stats :=
    sb_select "nfl_player_game_stats" columns (week_filters season week team)
      None 5000 in
  truncate limit 200
    (sort_desc (λ r, Py.or_zero (_safe_int (get r rank_column))) stats).

(** [pmap] of the dashboards; the key [int(p["id"])] is taken only where
    [_safe_int] of the same field is not [None], and is then that integer. *)
Definition week_pmap (stats : list row) : gmap Z row :=
  let pids := sorted_set (omap (λ r, _safe_int (get r "player_id")) stats) in
  let players :=
    sb_select "nfl_players" "id,first_name,last_name,position_abbreviation"
      [("id", _in_list pids)] None (Z.of_nat (length pids)) in
  foldl (λ pmap p,
           match _safe_int (get p "id") with
           | Some i => <[i := p]> pmap
           | None => pmap
           end) ∅ players.

Definition week_tmap (stats : list row) : gmap Z string :=
  _team_map (sorted_set (omap (λ r, _safe_int (get r "team_id")) stats)).

(** The display name of the dashboards: first and last name of the player
    row, the id when both are missing. *)
Definition week_name (p : row) (pid : Z) : string :=
  let first :=
    PyStr.strip (Py.str_ (Py.or_ (get p "first_name") (VStr EmptyString))) in
  let last :=
    PyStr.strip (Py.str_ (Py.or_ (get p "last_name") (VStr EmptyString))) in
  let full := PyStr.strip (first +:+ " " +:+ last) in
  if String.eqb full EmptyString then PyStr.of_int pid else full.

Definition receiving_entry (season week : Z) (pmap : gmap Z row)
    (tmap : gmap Z string) (r : row) : option receiving_row :=
  match _safe_int (get r "player_id") with
  | None => None
  | Some pid =>
      let p := default [] (pmap !! pid) in
      let name := week_name p pid in
      let tid := _safe_int (get r "team_id") in
      Some {|
        rv_season := season;
        rv_week := week;
        rv_team := tid ≫= (tmap !!.);
        rv_player_id := PyStr.of_int pid;
        rv_player_name := name;
        rv_position := Py.or_ (get p "position_abbreviation") VNone;
        rv_targets := Py.or_zero (_safe_int (get r "receiving_targets"));
        rv_receptions := Py.or_zero (_safe_int (get r "receptions"));
        rv_rec_yards := Py.or_zero (_safe_int (get r "receiving_yards"));
        rv_rec_tds := Py.or_zero (_safe_int (get r "receiving_touchdowns"));
        rv_air_yards := 0;
        rv_yac := 0;
        rv_photoUrl :=
          player_photo_url_from_name_team name (tid ≫= (tmap !!.))
      |}
  end.

Definition receiving_columns : string :=
  "player_id,team_id,season,week,receiving_targets,receptions,receiving_yards,receiving_touchdowns".

Definition receiving_dashboard (season week : Z) (team : option string)
    (limit : Z) : list receiving_row :=
  let stats :=
    week_stats receiving_columns "receiving_targets" season week team limit in
  omap (receiving_entry season week (week_pmap stats) (week_tmap stats)) stats.

Definition rushing_entry (season week : Z) (pmap : gmap Z row)
    (tmap : gmap Z string) (r : row) : option rushing_row :=
  match _safe_int (get r "player_id") with
  | None => None
  | Some pid =>
      let p := default [] (pmap !! pid) in
      let name := week_name p pid in
      let tid := _safe_int (get r "team_id") in
      Some {|
        ru_season := season;
        ru_week := week;
        ru_team := tid ≫= (tmap !!.);
        ru_player_id := PyStr.of_int pid;
        ru_player_name := name;
        ru_position := Py.or_ (get p "position_abbreviation") VNone;
        ru_rush_attempts := Py.or_zero (_safe_int (get r "rushing_attempts"));
        ru_rush_yards := Py.or_zero (_safe_int (get r "rushing_yards"));
        ru_rush_tds := Py.or_zero (_safe_int (get r "rushing_touchdowns"));
        ru_receptions := Py.or_zero (_safe_int (get r "receptions"));
        ru_rec_yards := Py.or_zero (_safe_int (get r "receiving_yards"));
        ru_photoUrl :=
          player_photo_url_from_name_team name (tid ≫= (tmap !!.))
      |}
  end.

Definition rushing_columns : string :=
  "player_id,team_id,season,week,rushing_attempts,rushing_yards,rushing_touchdowns,receptions,receiving_yards".

Definition rushing_dashboard (season week : Z) (team : option string)
    (limit : Z) : list rushing_row :=
  let stats :=
    week_stats rushing_columns "rushing_yards" season week team limit in
  omap (rushing_entry season week (week_pmap stats) (week_tmap stats)) stats.

(** *** Season summaries *)

(** [r.get("team")], or the empty string when that is [None] or empty: the
    key under which a row is counted. *)
Definition team_key (r : player_row) : string :=
  default EmptyString (pl_team r).

(** [by_team]: per key, the sum of [stat] over the rows of the season
    list. *)
Definition by_team_of (stat : player_row → Z) (rows : list player_row)
  : gmap string Z :=
  foldl (λ by_team r,
           <[team_key r := default 0 (by_team !! team_key r) + stat r]> by_team)
    ∅ rows.

(** [float(x) / float(denom) if denom else None] *)
Definition share_of (x : Z) (by_team : gmap string Z) (t : string)
  : result (option float) :=
  let denom := Py.or_zero (Some (default 0 (by_team !! t))) in
  if denom =? 0 then Ok None
  else a ← PyFloat.of_int x; b ← PyFloat.of_int denom; Ok (Some (a / b)%float).

Definition row_position (r : player_row) : string :=
  PyStr.upper (default EmptyString (pl_position r)).

Definition receiving_season_entry (season : Z) (by_team : gmap string Z)
    (r : player_row) : result (option receiving_season_row) :=
  let pos := row_position r in
  if negb (String.eqb pos "WR" || String.eqb pos "TE" || String.eqb pos "RB")
  then Ok None
  else
    share ← share_of (pl_targets r) by_team (team_key r);
    Ok (Some {|
      rs_season := season;
      rs_team := pl_team r;
      rs_player_id := pl_player_id r;
      rs_player_name := pl_player_name r;
      rs_position := pl_position r;
      rs_targets := pl_targets r;
      rs_receptions := pl_receptions r;
      rs_rec_yards := pl_receivingYards r;
      rs_air_yards := 0;
      rs_rec_tds := pl_receivingTouchdowns r;
      rs_team_target_share := share;
      rs_photoUrl :=
        player_photo_url_from_name_team (pl_player_name r) (Some (team_key r))
    |}).

Definition receiving_season (season : Z) (team : option string) (limit : Z)
  : result (list receiving_season_row) :=
  rows ← get_players_list (Some season) None team 8000;
  out ← collectR (receiving_season_entry season (by_team_of pl_targets rows))
        rows;
  Ok (truncate limit 200 (sort_desc rs_targets out)).

Definition rushing_season_entry (season : Z) (by_team : gmap string Z)
    (r : player_row) : result (option rushing_season_row) :=
  let pos := row_position r in
  if negb (String.eqb pos "RB" || String.eqb pos "QB" || String.eqb pos "WR"
           || String.eqb pos "TE")
  then Ok None
  else
    share ← share_of (pl_rushAttempts r) by_team (team_key r);
    Ok (Some {|
      us_season := season;
      us_team := pl_team r;
      us_player_id := pl_player_id r;
      us_player_name := pl_player_name r;
      us_position := pl_position r;
      us_rush_attempts := pl_rushAttempts r;
      us_rush_yards := pl_rushingYards r;
      us_rush_tds := pl_rushingTouchdowns r;
      us_team_rush_share := share;
      us_photoUrl :=
        player_photo_url_from_name_team (pl_player_name r) (Some (team_key r))
    |}).

Definition rushing_season (season : Z) (team : option string) (limit : Z)
  : result (list rushing_season_row) :=
  rows ← get_players_list (Some season) None team 8000;
  out ← collectR (rushing_season_entry season (by_team_of pl_rushAttempts rows))
        rows;
  Ok (truncate limit 200 (sort_desc us_rush_yards out)).

End Queries.

(** ** Team totals, stated directly

    [team_total stat rows k] is the sum of [stat] over the rows counted under
    the key [k]; it is what [by_team] holds for [k]. *)
Definition team_total (stat : player_row → Z) (rows : list player_row)
    (k : string) : Z :=
  foldr Z.add 0 (stat <$> filter (λ r, team_key r = k) rows).

(** The share as the specification words it: the stat of the row divided by
    the sum of the stat over the rows of [result_set] whose team abbreviation
    is that of the row, null when the sum is zero. *)
Definition claimed_share (stat : player_row → Z)
    (result_set : list player_row) (r : player_row) : result (option float) :=
  let total :=
    foldr Z.add 0
      (stat <$> filter (λ r', pl_team r' = pl_team r) result_set) in
  if total =? 0 then Ok None
  else a ← PyFloat.of_int (stat r); b ← PyFloat.of_int total;
       Ok (Some (a / b)%float).

(** ** What the team filter of a dashboard relies on

    The dashboards trust the client with the filter: the stat rows fetched
    with [team_id = eq.<tid>] are rows of team [tid], and the team rows
    fetched for [tid] include a row with that id, all such rows carrying the
    abbreviation [team] once upper-cased. *)
Definition honours_team_filter
    (sb_select :
       string → string → list (string * string) → option string → Z → list row)
    (columns : string) (season week : Z) (team : string) (tid : Z) : Prop :=
  let teams :=
    sb_select "nfl_teams" "id,abbreviation" [("id", _in_list [tid])] None 1 in
  (∀ r, r ∈ sb_select "nfl_player_game_stats" columns
              (week_filters sb_select season week (Some team)) None 5000 →
        _safe_int (get r "team_id") = Some tid) ∧
  (∃ t, t ∈ teams ∧ _safe_int (get t "id") = Some tid) ∧
  (∀ t, t ∈ teams → _safe_int (get t "id") = Some tid →
        PyStr.upper (Py.str_ (Py.or_ (get t "abbreviation") (VStr EmptyString)))
        = team).

(** ** A reference client

    Modelled from the spec: the table-query collaborator of section 6,
    [select(table, columns, filters, order, limit)] over five tables, with
    the filter expressions [eq.<value>] and [in.(<ids>)], an order of the
    form [<column>.asc] or [<column>.desc] and a row cap.  It serves to run
    the pipelines on concrete tables; the theorems about the pipelines hold
    for every client. *)

Record database := {
  nfl_teams : list row;
  nfl_players : list row;
  nfl_games : list row;
  nfl_player_game_stats : list row;
  nfl_player_season_stats : list row
}.

Module Mem.

Definition table (db : database) (name : string) : list row :=
  if String.eqb name "nfl_teams" then nfl_teams db
  else if String.eqb name "nfl_players" then nfl_players db
  else if String.eqb name "nfl_games" then nfl_games db
  else if String.eqb name "nfl_player_game_stats" then nfl_player_game_stats db
  else if String.eqb name "nfl_player_season_stats"
  then nfl_player_season_stats db
  else [].

(** [s.split(sep)] for a one-character separator. *)
Fixpoint split (sep : ascii) (s : string) : list string :=
  match s with
  | EmptyString => [EmptyString]
  | String c s' =>
      if Ascii.eqb c sep then EmptyString :: split sep s'
      else
        match split sep s' with
        | w :: ws => String c w :: ws
        | [] => [String c EmptyString]
        end
  end.

(** The text a filter value is compared with; a null compares equal to
    nothing. *)
Definition text (v : value) : option string :=
  match v with
  | VNone => None
  | VBool b => Some (if b then "true" else "false")
  | VInt i => Some (PyStr.of_int i)
  | VFloat f => Some (PyFloat.repr f)
  | VStr s => Some s
  end.

Definition drop_last (s : string) : string :=
  substring 0 (String.length s - 1) s.

(** Whether a row passes one filter. *)
Definition passes (r : row) (f : string * string) : bool :=
  let '(column, expr) := f in
  match text (get r column) with
  | None => false
  | Some t =>
      if String.prefix "eq." expr
      then String.eqb t (substring 3 (String.length expr - 3) expr)
      else if String.prefix "in.(" expr
      then existsb (String.eqb t)
             (split "," (drop_last (substring 4 (String.length expr - 4) expr)))
      else false
  end.

(** The rows in the requested order. *)
Definition ordered (order : option string) (rows : list row) : list row :=
  match order with
  | None => rows
  | Some o =>
      match split "." o with
      | [column; dir] =>
          let key r := Py.or_zero (_safe_int (get r column)) in
          if String.eqb dir "desc" then sort_desc key rows
          else sort_desc (λ r, - key r) rows
      | _ => rows
      end
  end.

(** The columns asked for. *)
Definition project (columns : string) (r : row) : row :=
  filter (λ kv, existsb (String.eqb kv.1) (split "," columns) = true) r.

Definition select (db : database) (name columns : string)
    (filters : list (string * string)) (order : option string) (limit : Z)
  : list row :=
  project columns <$>
    take (Z.to_nat limit)
      (ordered order
         (filter (λ r, forallb (passes r) filters = true) (table db name))).

(** The resolver when its mapping file is missing: no photograph for
    anybody. *)
Definition no_photo (name : string) (team : option string) : option string :=
  None.

End Mem.

(** ** Sample tables *)

Module Sample.

Definition row_of (l : list (string * value)) : row := l.

Definition team (id : Z) (abbreviation : value) : row :=
  row_of [("id", VInt id); ("abbreviation", abbreviation)].

Definition player (id : Z) (first last position : string) (team_id : value)
  : row :=
  row_of [("id", VInt id); ("first_name", VStr first);
          ("last_name", VStr last); ("position_abbreviation", VStr position);
          ("team_id", team_id)].

(** A season stat row of the regular season; the counters not listed are
    missing. *)
Definition season_stat (player_id : value) (season : Z)
    (counters : list (string * Z)) : row :=
  row_of ([("player_id", player_id); ("season", VInt season);
           ("postseason", VBool false)]
          ++ (prod_map id VInt <$> counters)).

(** A game stat row of the regular season. *)
Definition game_stat (player_id game_id team_id : value) (season week : Z)
    (counters : list (string * Z)) : row :=
  row_of ([("player_id", player_id); ("game_id", game_id);
           ("team_id", team_id); ("season", VInt season);
           ("week", VInt week); ("postseason", VBool false)]
          ++ (prod_map id VInt <$> counters)).

Definition game (id : Z) (home visitor : value) : row :=
  row_of [("id", VInt id); ("home_team_id", home);
          ("visitor_team_id", visitor); ("postseason", VBool false)].

Definition empty_db : database :=
  {| nfl_teams := []; nfl_players := []; nfl_games := [];
     nfl_player_game_stats := []; nfl_player_season_stats := [] |}.

(** The season stat row of a defender: games played, and 0 in each of
    the five counters. *)
Definition idle_stat : row :=
  season_stat (VInt 3) 2023
    [("games_played", 16); ("passing_attempts", 0);
     ("passing_completions", 0); ("rushing_attempts", 0);
     ("receptions", 0); ("receiving_targets", 0)].

(** The season of the spec's example: a receiver with 120 receiving yards,
    a rusher with 80 rushing yards, and the defender. *)
Definition season_db : database :=
  {| nfl_teams := [team 1 (VStr "KC"); team 2 (VStr "SF")];
     nfl_players :=
       [player 1 "Alex" "Able" "WR" (VInt 1);
        player 2 "Ben" "Baker" "RB" (VInt 2);
        player 3 "Carl" "Idle" "LB" (VInt 2)];
     nfl_games := [];
     nfl_player_game_stats := [];
     nfl_player_season_stats :=
       [season_stat (VInt 2) 2023
          [("rushing_attempts", 20); ("rushing_yards", 80)];
        idle_stat;
        season_stat (VInt 1) 2023
          [("receptions", 10); ("receiving_targets", 15);
           ("receiving_yards", 120)]] |}.

(** A season with lookup misses: the stat row of player 42, who is not in
    the players table, and player 2, whose team 5 is not in the teams
    table. *)
Definition miss_db : database :=
  {| nfl_teams := [team 1 (VStr "KC")];
     nfl_players :=
       [player 1 "Alex" "Able" "WR" (VInt 1);
        player 2 "Ben" "Baker" "RB" (VInt 5)];
     nfl_games := [];
     nfl_player_game_stats := [];
     nfl_player_season_stats :=
       [season_stat (VInt 1) 2023
          [("receptions", 10); ("receiving_targets", 15);
           ("receiving_yards", 120)];
        season_stat (VInt 42) 2023
          [("receptions", 50); ("receiving_targets", 70);
           ("receiving_yards", 900)];
        season_stat (VInt 2) 2023
          [("rushing_attempts", 20); ("rushing_yards", 80)]] |}.

(** The season of the spec's share example: two receivers of KC with 80
    and 20 targets, and a lone rusher of DEN without any target. *)
Definition share_db : database :=
  {| nfl_teams := [team 1 (VStr "KC"); team 3 (VStr "DEN")];
     nfl_players :=
       [player 1 "Alex" "Able" "WR" (VInt 1);
        player 2 "Tom" "Tight" "TE" (VInt 1);
        player 3 "Ray" "Rush" "RB" (VInt 3)];
     nfl_games := [];
     nfl_player_game_stats := [];
     nfl_player_season_stats :=
       [season_stat (VInt 1) 2023
          [("receiving_targets", 80); ("receptions", 50);
           ("rushing_attempts", 1)];
        season_stat (VInt 2) 2023
          [("receiving_targets", 20); ("receptions", 12)];
        season_stat (VInt 3) 2023
          [("rushing_attempts", 9); ("rushing_yards", 40)]] |}.

(** A season in which the totals count more than the returned rows: a
    receiver without a team, and a quarterback of a team whose
    abbreviation is null. *)
Definition share_scope_db : database :=
  {| nfl_teams := [team 4 VNone];
     nfl_players :=
       [player 1 "Fred" "Free" "WR" VNone;
        player 2 "Quinn" "Back" "QB" (VInt 4)];
     nfl_games := [];
     nfl_player_game_stats := [];
     nfl_player_season_stats :=
       [season_stat (VInt 1) 2023
          [("receiving_targets", 80); ("receptions", 50)];
        season_stat (VInt 2) 2023
          [("receiving_targets", 20); ("passing_attempts", 400)]] |}.

(** Week 5 of 2023: two known players, a stat row of a player who is not
    in the players table, a stat row without a player id that has the most
    targets and rushing yards, and a stat row of a team that is not in the
    teams table. *)
Definition week_db : database :=
  {| nfl_teams := [team 1 (VStr "KC"); team 2 (VStr "SF")];
     nfl_players :=
       [player 10 "Tom" "Tight" "TE" (VInt 1);
        player 12 "Will" "Wide" "WR" (VInt 2)];
     nfl_games := [];
     nfl_player_game_stats :=
       [game_stat (VInt 10) (VInt 100) (VInt 1) 2023 5
          [("receiving_targets", 9); ("rushing_yards", 4)];
        game_stat (VInt 12) (VInt 100) (VInt 2) 2023 5
          [("receiving_targets", 11); ("rushing_yards", 8)];
        game_stat (VInt 99) (VInt 100) (VInt 1) 2023 5
          [("receiving_targets", 7); ("rushing_yards", 30)];
        game_stat VNone (VInt 100) (VInt 2) 2023 5
          [("receiving_targets", 100); ("rushing_yards", 200)];
        game_stat (VInt 12) (VInt 101) (VInt 77) 2023 5
          [("receiving_targets", 3); ("rushing_yards", 1)]];
     nfl_player_season_stats := [] |}.

(** The game log of player 7: at home against SF, away at DEN, a game
    whose home team id is null, a game that is not in the games table, a
    row without a game id, and a row whose own team id is not an integer. *)
Definition log_db : database :=
  {| nfl_teams := [team 1 (VStr "KC"); team 2 (VStr "SF"); team 3 (VStr "den")];
     nfl_players := [player 7 "Gil" "Grant" "RB" (VInt 1)];
     nfl_games :=
       [game 100 (VInt 1) (VInt 2); game 101 (VInt 3) (VInt 1);
        game 102 VNone (VInt 2)];
     nfl_player_game_stats :=
       [game_stat (VInt 7) (VInt 100) (VInt 1) 2023 1 [("rushing_yards", 50)];
        game_stat (VInt 7) (VInt 101) (VInt 1) 2023 2 [("rushing_yards", 60)];
        game_stat (VInt 7) (VInt 102) (VInt 1) 2023 3 [("rushing_yards", 70)];
        game_stat (VInt 7) (VInt 103) (VInt 1) 2023 4 [("rushing_yards", 80)];
        game_stat (VInt 7) VNone (VInt 1) 2023 5 [("rushing_yards", 90)];
        game_stat (VInt 7) (VInt 100) (VStr "x") 2023 6 [("rushing_yards", 10)]];
     nfl_player_season_stats := [] |}.

(** The same log with one more row, whose game id is a text that is not a
    number. *)
Definition log_db_text_game_id : database :=
  {| nfl_teams := nfl_teams log_db;
     nfl_players := nfl_players log_db;
     nfl_games := nfl_games log_db;
     nfl_player_game_stats :=
       nfl_player_game_stats log_db ++
       [game_stat (VInt 7) (VStr "abc") (VInt 1) 2023 7 [("rushing_yards", 5)]];
     nfl_player_season_stats := [] |}.

(** A schedule: games of three seasons, one of them with its season as
    text and one without a season, and teams of which one has no
    abbreviation. *)
Definition scheduled (id : Z) (season week : value) : row :=
  row_of [("id", VInt id); ("season", season); ("week", week)].

Definition schedule_db : database :=
  {| nfl_teams := [team 1 (VStr "KC"); team 2 VNone; team 3 (VStr "SF")];
     nfl_players := [];
     nfl_games :=
       [scheduled 1 (VInt 2022) (VInt 1); scheduled 2 (VInt 2023) (VInt 2);
        scheduled 3 (VStr "2021") (VInt 1); scheduled 4 VNone (VInt 18);
        scheduled 5 (VInt 2023) (VInt 1)];
     nfl_player_game_stats := [];
     nfl_player_season_stats := [] |}.

(** The sample season with the team of one player given as a text that is
    not a number. *)
Definition text_team_db : database :=
  {| nfl_teams := nfl_teams season_db;
     nfl_players :=
       [player 1 "Alex" "Able" "WR" (VInt 1);
        player 2 "Ben" "Baker" "RB" (VStr "SF")];
     nfl_games := [];
     nfl_player_game_stats := [];
     nfl_player_season_stats := nfl_player_season_stats season_db |}.

(** Teams of which one id occurs twice, with different abbreviations. *)
Definition renamed_team_db : database :=
  {| nfl_teams :=
       [team 1 (VStr "kc"); team 2 (VStr "SF"); team 1 (VStr "Kan")];
     nfl_players := [];
     nfl_games := [];
     nfl_player_game_stats := [];
     nfl_player_season_stats := [] |}.

End Sample.

(** * Properties *)

(** Comparisons computed as booleans, turned into propositions for [lia]. *)
Ltac unbool :=
  repeat
    (rewrite ?andb_true_iff, ?orb_true_iff, ?andb_false_iff, ?orb_false_iff,
       ?negb_true_iff, ?negb_false_iff,
       ?N.leb_le, ?N.leb_gt, ?N.ltb_lt, ?N.ltb_ge, ?N.eqb_eq, ?N.eqb_neq,
       ?Z.leb_le, ?Z.leb_gt, ?Z.ltb_lt, ?Z.ltb_ge, ?Z.eqb_eq, ?Z.eqb_neq in *).
Ltac blia := unbool; lia.

(** ** Coercion *)

Lemma _safe_int_try_ok x : _safe_int_try x = Ok (_safe_int x).
Proof.
  unfold _safe_int, _safe_int_try.
  destruct (Py.is_None x || Py.eq_str x EmptyString); [done|].
  by destruct (Py.int_ x).
Qed.

Lemma _safe_float_try_ok x : _safe_float_try x = Ok (_safe_float x).
Proof.
  unfold _safe_float, _safe_float_try.
  destruct (Py.is_None x || Py.eq_str x EmptyString); [done|].
  by destruct (Py.float_ x).
Qed.

(** A value [int] accepts is neither [None] nor the empty string. *)
Lemma int_ok_present x i : Py.int_ x = Ok i → Py.present x = true.
Proof.
  destruct x as [| | | |s]; try done.
  destruct s; [done|]. by intros _.
Qed.

Lemma float_ok_present x f : Py.float_ x = Ok f → Py.present x = true.
Proof.
  destruct x as [| | | |s]; try done.
  destruct s; [done|]. by intros _.
Qed.

Lemma _safe_int_Some x i : _safe_int x = Some i ↔ Py.int_ x = Ok i.
Proof.
  unfold _safe_int, _safe_int_try. split.
  - destruct (Py.is_None x || Py.eq_str x EmptyString); [done|].
    destruct (Py.int_ x); simpl; congruence.
  - intros H. pose proof (int_ok_present _ _ H) as Hp.
    unfold Py.present in Hp. apply negb_true_iff in Hp. rewrite Hp, H. done.
Qed.

Lemma _safe_float_Some x f : _safe_float x = Some f ↔ Py.float_ x = Ok f.
Proof.
  unfold _safe_float, _safe_float_try. split.
  - destruct (Py.is_None x || Py.eq_str x EmptyString); [done|].
    destruct (Py.float_ x); simpl; congruence.
  - intros H. pose proof (float_ok_present _ _ H) as Hp.
    unfold Py.present in Hp. apply negb_true_iff in Hp. rewrite Hp, H. done.
Qed.

Lemma _safe_int_None x : _safe_int x = None ↔ ∃ e, Py.int_ x = Raise e.
Proof.
  split.
  - intros H. destruct (Py.int_ x) as [i|e] eqn:E; [|by eexists].
    apply _safe_int_Some in E. congruence.
  - intros [e He]. destruct (_safe_int x) as [i|] eqn:E; [|done].
    apply _safe_int_Some in E. congruence.
Qed.

Lemma _safe_float_None x : _safe_float x = None ↔ ∃ e, Py.float_ x = Raise e.
Proof.
  split.
  - intros H. destruct (Py.float_ x) as [i|e] eqn:E; [|by eexists].
    apply _safe_float_Some in E. congruence.
  - intros [e He]. destruct (_safe_float x) as [i|] eqn:E; [|done].
    apply _safe_float_Some in E. congruence.
Qed.

(** *** Texts *)

Lemma append_nil (r : string) : EmptyString +:+ r = r.
Proof. reflexivity. Qed.

Lemma append_cons c (s r : string) : String c s +:+ r = String c (s +:+ r).
Proof. reflexivity. Qed.

Lemma append_assoc (s1 s2 s3 : string) :
  (s1 +:+ s2) +:+ s3 = s1 +:+ s2 +:+ s3.
Proof.
  induction s1 as [|c s1 IH]; [done|]. by rewrite !append_cons, IH.
Qed.

Lemma append_nil_r (s : string) : s +:+ EmptyString = s.
Proof. induction s as [|c s IH]; [done|]. by rewrite append_cons, IH. Qed.

Lemma chars_append (s r : string) :
  list_ascii_of_string (s +:+ r) =
  list_ascii_of_string s ++ list_ascii_of_string r.
Proof.
  induction s as [|c s IH]; [done|]. rewrite append_cons. simpl. by rewrite IH.
Qed.

(** A text of characters below 128 is taken as it is by [int] and
    [float]. *)
Lemma is_ascii_chars s :
  PyStr.is_ascii s = true ↔
  Forall (λ c, PyStr.code c < 128) (list_ascii_of_string s).
Proof.
  induction s as [|c s IH]; simpl.
  - split; [constructor|done].
  - rewrite andb_true_iff, Forall_cons, IH, Z.ltb_lt. done.
Qed.

Lemma numeral_text_ascii s :
  Forall (λ c, PyStr.code c < 128) (list_ascii_of_string s) →
  PyStr.numeral_text s = s.
Proof.
  intros H%is_ascii_chars. unfold PyStr.numeral_text. by rewrite H.
Qed.

(** *** Blanks around a numeral *)

Lemma blank_isspace_c c :
  PyStr.code c ∈ [9; 10; 11; 12; 13; 32] ↔ PyStr.isspace_c c = true.
Proof.
  unfold PyStr.isspace_c. rewrite !elem_of_cons, elem_of_nil. blia.
Qed.

Lemma lstrip_c_blanks b s :
  Numeral.blanks b → PyStr.lstrip_c (b +:+ s) = PyStr.lstrip_c s.
Proof.
  unfold Numeral.blanks. induction b as [|c b IH]; [done|].
  cbn [list_ascii_of_string].
  intros [Hc Hb]%Forall_cons. apply blank_isspace_c in Hc.
  rewrite append_cons. cbn [PyStr.lstrip_c]. rewrite Hc. by apply IH.
Qed.

Lemma lstrip_c_plain c s :
  PyStr.isspace_c c = false → PyStr.lstrip_c (String c s) = String c s.
Proof. intros H. cbn [PyStr.lstrip_c]. by rewrite H. Qed.

Lemma rstrip_c_nonempty c s :
  PyStr.rstrip_c (String c s) =
  match PyStr.rstrip_c s with
  | EmptyString =>
      if PyStr.isspace_c c then EmptyString else String c EmptyString
  | t => String c t
  end.
Proof. reflexivity. Qed.

Lemma rstrip_c_blanks b : Numeral.blanks b → PyStr.rstrip_c b = EmptyString.
Proof.
  unfold Numeral.blanks. induction b as [|c b IH]; [done|].
  cbn [list_ascii_of_string].
  intros [Hc Hb]%Forall_cons. apply blank_isspace_c in Hc.
  by rewrite rstrip_c_nonempty, (IH Hb), Hc.
Qed.

(** A text without blanks followed by blanks: the blanks go. *)
Lemma rstrip_c_plain s b :
  Forall (λ c, PyStr.isspace_c c = false) (list_ascii_of_string s) →
  Numeral.blanks b →
  PyStr.rstrip_c (s +:+ b) = s.
Proof.
  intros Hs Hb. induction s as [|c s IH].
  - rewrite append_nil. by apply rstrip_c_blanks.
  - cbn [list_ascii_of_string] in Hs. apply Forall_cons in Hs as [Hc Hs].
    rewrite append_cons, rstrip_c_nonempty, (IH Hs).
    destruct s; [by rewrite Hc|done].
Qed.

Lemma strip_c_numeral b1 c s b2 :
  Numeral.blanks b1 → Numeral.blanks b2 →
  Forall (λ c, PyStr.isspace_c c = false)
    (list_ascii_of_string (String c s)) →
  PyStr.strip_c (b1 +:+ String c s +:+ b2) = String c s.
Proof.
  intros H1 H2 Hs. unfold PyStr.strip_c.
  rewrite lstrip_c_blanks by done. rewrite append_cons, lstrip_c_plain.
  - rewrite <- append_cons. by apply rstrip_c_plain.
  - cbn [list_ascii_of_string] in Hs. by apply Forall_cons in Hs as [? _].
Qed.

(** *** Digits *)

Lemma digit_char_facts d :
  0 ≤ d ≤ 9 →
  PyStr.isdigit (Numeral.digit_char d) = true ∧
  PyStr.digit_value (Numeral.digit_char d) = d.
Proof.
  intros Hd.
  assert (d = 0 ∨ d = 1 ∨ d = 2 ∨ d = 3 ∨ d = 4 ∨ d = 5 ∨ d = 6 ∨ d = 7
          ∨ d = 8 ∨ d = 9) as H by lia.
  repeat (destruct H as [->|H]; [by split|]). by subst.
Qed.

(** A digit is below 128 and is neither a blank, nor a sign, nor an
    underscore, nor a point, nor a letter. *)
Lemma isdigit_plain c :
  PyStr.isdigit c = true →
  PyStr.code c < 128 ∧ PyStr.isspace_c c = false ∧ PyStr.isspace c = false ∧
  Ascii.eqb c "-" = false ∧ Ascii.eqb c "+" = false ∧
  Ascii.eqb c "_" = false ∧ Ascii.eqb c "," = false ∧
  Ascii.eqb c ")" = false ∧ Ascii.eqb c "." = false ∧
  Ascii.eqb c "e" = false ∧ Ascii.eqb c "E" = false.
Proof.
  destruct c as [[] [] [] [] [] [] [] []]; vm_compute; intros H;
    try discriminate H; split_and!; done.
Qed.

(** The parser reads a run of digits as the number they denote, and stops
    at the end of the text or before a character that is neither a digit
    nor an underscore. *)
Lemma digits_from_digits ds acc n prev rest :
  Forall (λ d, 0 ≤ d ≤ 9) ds →
  PyStr.digits_from acc n prev (Numeral.digits_text ds +:+ rest) =
  PyStr.digits_from (foldl (λ a d, 10 * a + d) acc ds)
    (n + Z.of_nat (length ds)) (if ds is [] then prev else true) rest.
Proof.
  revert acc n prev. induction ds as [|d ds IH]; intros acc n prev Hds.
  - unfold Numeral.digits_text. simpl. rewrite append_nil. f_equal. lia.
  - apply Forall_cons in Hds as [Hd Hds].
    destruct (digit_char_facts d Hd) as [Hdig Hval].
    unfold Numeral.digits_text in *. rewrite fmap_cons. cbn [PyStr.of_list].
    rewrite append_cons. cbn [PyStr.digits_from]. rewrite Hdig, Hval.
    rewrite IH by done. cbn [foldl length]. f_equal; [lia|].
    by destruct ds.
Qed.

Lemma digits_from_stop acc n c rest :
  PyStr.isdigit c = false → Ascii.eqb c "_" = false →
  PyStr.digits_from acc n true (String c rest) = Some (acc, n, String c rest).
Proof. intros H1 H2. cbn [PyStr.digits_from]. by rewrite H1, H2. Qed.

Lemma digits_value_app ds1 ds2 :
  foldl (λ a d, 10 * a + d) (Numeral.digits_value ds1) ds2 =
  Numeral.digits_value (ds1 ++ ds2).
Proof. unfold Numeral.digits_value. by rewrite foldl_app. Qed.

Lemma digits_text_chars (P : ascii → Prop) ds :
  (∀ c, PyStr.isdigit c = true → P c) →
  Forall (λ d, 0 ≤ d ≤ 9) ds →
  Forall P (list_ascii_of_string (Numeral.digits_text ds)).
Proof.
  intros HP. unfold Numeral.digits_text.
  induction 1 as [|d ds Hd Hds IH]; [constructor|].
  rewrite fmap_cons. simpl. constructor; [|done].
  apply HP. by apply digit_char_facts.
Qed.

Lemma digits_text_head ds :
  Numeral.digits ds →
  ∃ c t, Numeral.digits_text ds = String c t ∧ PyStr.isdigit c = true.
Proof.
  intros [Hne Hds]. destruct ds as [|d ds]; [done|].
  apply Forall_cons in Hds as [Hd _]. eexists _, _. split; [reflexivity|].
  by apply digit_char_facts.
Qed.

Lemma sign_text_chars (P : ascii → Prop) sg :
  P "+"%char → P "-"%char →
  Forall P (list_ascii_of_string (Numeral.sign_text sg)).
Proof. intros ??. destruct sg; simpl; repeat constructor; done. Qed.

Lemma split_sign_digit c t :
  PyStr.isdigit c = true →
  PyStr.split_sign (String c t) = (false, String c t).
Proof.
  destruct c as [[] [] [] [] [] [] [] []]; vm_compute; intros H;
    try discriminate H; done.
Qed.

(** The sign in front of digits is read as the sign. *)
Lemma split_sign_numeral sg c t :
  PyStr.isdigit c = true →
  PyStr.split_sign (Numeral.sign_text sg +:+ String c t) =
  (Numeral.negative sg, String c t).
Proof.
  intros Hc. destruct sg; simpl.
  - rewrite append_nil. by apply split_sign_digit.
  - reflexivity.
  - reflexivity.
Qed.

(** What is left of a numeral that starts with its sign or a digit and
    holds no blank, once the blanks around it are gone. *)
Lemma strip_c_signed b1 sg c t b2 :
  Numeral.blanks b1 → Numeral.blanks b2 →
  PyStr.isdigit c = true →
  Forall (λ c, PyStr.isspace_c c = false) (list_ascii_of_string t) →
  PyStr.strip_c (b1 +:+ (Numeral.sign_text sg +:+ String c t) +:+ b2) =
  Numeral.sign_text sg +:+ String c t.
Proof.
  intros H1 H2 Hc Ht.
  assert (Forall (λ c, PyStr.isspace_c c = false)
            (list_ascii_of_string (String c t))) as Hct.
  { simpl. constructor; [by apply isdigit_plain|done]. }
  destruct sg; cbn [Numeral.sign_text]; rewrite ?append_nil, ?append_cons.
  - by apply strip_c_numeral.
  - apply (strip_c_numeral b1 "+" (String c t) b2); [done..|].
    simpl. constructor; [done|]. exact Hct.
  - apply (strip_c_numeral b1 "-" (String c t) b2); [done..|].
    simpl. constructor; [done|]. exact Hct.
Qed.

Lemma strip_c_id s :
  Forall (λ c, PyStr.isspace_c c = false) (list_ascii_of_string s) →
  PyStr.strip_c s = s.
Proof.
  intros H. unfold PyStr.strip_c. destruct s as [|c s]; [done|].
  rewrite lstrip_c_plain.
  - rewrite <- (append_nil_r (String c s)) at 1.
    apply rstrip_c_plain; [done|constructor].
  - cbn [list_ascii_of_string] in H. by apply Forall_cons in H as [? _].
Qed.

(** *** Integer numerals *)

Lemma int_text_chars (P : ascii → Prop) b1 sg ds b2 :
  (∀ c, PyStr.isdigit c = true → P c) → P "+"%char → P "-"%char →
  (∀ c, PyStr.isspace_c c = true → P c) →
  Numeral.blanks b1 → Numeral.blanks b2 → Numeral.digits ds →
  Forall P (list_ascii_of_string (Numeral.int_text b1 sg ds b2)).
Proof.
  intros Hd Hp Hm Hb H1 H2 [_ Hds]. unfold Numeral.int_text.
  rewrite !chars_append, !Forall_app.
  assert (∀ b, Numeral.blanks b → Forall P (list_ascii_of_string b)) as Hbl.
  { intros b Hbb. eapply Forall_impl; [exact Hbb|]. intros c Hc.
    by apply Hb, blank_isspace_c. }
  split_and!; [by apply Hbl|by apply sign_text_chars
              |by apply digits_text_chars|by apply Hbl].
Qed.

Lemma isspace_c_lt c : PyStr.isspace_c c = true → PyStr.code c < 128.
Proof. unfold PyStr.isspace_c. blia. Qed.

(** What the parser is given once the text of an integer numeral has been
    brought to ASCII and its blanks are gone. *)
Lemma numeral_prepared b1 sg ds tail b2 :
  Numeral.blanks b1 → Numeral.blanks b2 → Numeral.digits ds →
  Forall (λ c, PyStr.code c < 128 ∧ PyStr.isspace_c c = false)
    (list_ascii_of_string tail) →
  PyStr.split_sign
    (PyStr.strip_c
       (PyStr.numeral_text
          (b1 +:+ Numeral.sign_text sg +:+ Numeral.digits_text ds +:+ tail
           +:+ b2))) =
  (Numeral.negative sg, Numeral.digits_text ds +:+ tail).
Proof.
  intros H1 H2 Hds Htail.
  destruct (digits_text_head ds Hds) as (c & t & Hct & Hc).
  destruct Hds as [_ Hds].
  assert (∀ b, Numeral.blanks b →
            Forall (λ c, PyStr.code c < 128) (list_ascii_of_string b))
    as Hbl.
  { intros b Hbb. eapply Forall_impl; [exact Hbb|]. intros a Ha.
    by apply isspace_c_lt, blank_isspace_c. }
  rewrite numeral_text_ascii.
  2:{ rewrite !chars_append, !Forall_app. split_and!.
      - by apply Hbl.
      - by apply sign_text_chars.
      - apply digits_text_chars; [|done]. intros a Ha.
        by apply isdigit_plain in Ha as [? _].
      - eapply Forall_impl; [exact Htail|]. by intros a [? _].
      - by apply Hbl. }
  assert (Forall (λ c, PyStr.isspace_c c = false)
            (list_ascii_of_string (t +:+ tail))) as Ht.
  { assert (Forall (λ c, PyStr.isspace_c c = false)
              (list_ascii_of_string (Numeral.digits_text ds +:+ tail)))
      as Hall.
    { rewrite chars_append, Forall_app. split.
      - apply digits_text_chars; [|done]. intros a Ha.
        by apply isdigit_plain in Ha as (_ & ? & _).
      - eapply Forall_impl; [exact Htail|]. by intros a [_ ?]. }
    rewrite Hct, append_cons in Hall. cbn [list_ascii_of_string] in Hall.
    by apply Forall_cons in Hall as [_ ?]. }
  rewrite Hct.
  replace (b1 +:+ Numeral.sign_text sg +:+ String c t +:+ tail +:+ b2)
    with (b1 +:+ (Numeral.sign_text sg +:+ String c (t +:+ tail)) +:+ b2).
  2:{ by rewrite append_assoc, !append_cons, append_assoc. }
  rewrite strip_c_signed by done.
  rewrite split_sign_numeral by done. by rewrite append_cons.
Qed.

Lemma parse_int_numeral b1 sg ds b2 :
  Numeral.blanks b1 → Numeral.blanks b2 → Numeral.digits ds →
  PyStr.parse_int (Numeral.int_text b1 sg ds b2) =
  Some (Numeral.signed sg (Numeral.digits_value ds)).
Proof.
  intros H1 H2 Hds. unfold PyStr.parse_int, Numeral.int_text.
  pose proof (numeral_prepared b1 sg ds EmptyString b2 H1 H2 Hds
                ltac:(constructor)) as Hp.
  rewrite append_nil in Hp. rewrite Hp.
  destruct Hds as [Hne Hds].
  rewrite digits_from_digits by done. cbn [PyStr.digits_from].
  destruct ds as [|d ds]; [done|]. unfold Numeral.signed.
  by destruct (Numeral.negative sg).
Qed.

(** *** The text of an integer, read back *)

Lemma isdigit_pretty_N_char m : PyStr.isdigit (pretty_N_char m) = true.
Proof. unfold pretty_N_char. by repeat case_match. Qed.

Lemma digit_value_pretty_N_char m :
  (m < 10)%N → PyStr.digit_value (pretty_N_char m) = Z.of_N m.
Proof.
  intros Hm.
  assert (m = 0 ∨ m = 1 ∨ m = 2 ∨ m = 3 ∨ m = 4 ∨ m = 5 ∨ m = 6 ∨ m = 7
          ∨ m = 8 ∨ m = 9)%N as H by lia.
  repeat (destruct H as [->|H]; [reflexivity|]). by subst.
Qed.

(** The decimal digits of a positive number start with a digit. *)
Lemma pretty_N_go_head x s :
  (0 < x)%N →
  ∃ c t, pretty_N_go x s = String c t ∧ PyStr.isdigit c = true.
Proof.
  revert s. induction (N.lt_wf_0 x) as [x _ IH]. intros s Hx.
  rewrite pretty_N_go_step by done.
  destruct (decide (x `div` 10 = 0)%N) as [->|Hq].
  - rewrite pretty_N_go_0. eexists _, _. split; [done|].
    apply isdigit_pretty_N_char.
  - apply IH; [apply N.div_lt; lia|by apply N.neq_0_lt_0].
Qed.

(** Every character of the digits satisfies what all ten digits and the
    characters after them satisfy. *)
Lemma pretty_N_go_chars (P : ascii → Prop) x s :
  (∀ m, P (pretty_N_char m)) →
  Forall P (list_ascii_of_string s) →
  Forall P (list_ascii_of_string (pretty_N_go x s)).
Proof.
  intros HP. revert s. induction (N.lt_wf_0 x) as [x _ IH]. intros s Hs.
  destruct (decide (x = 0)%N) as [->|Hx]; [by rewrite pretty_N_go_0|].
  rewrite pretty_N_go_step by lia.
  apply IH; [apply N.div_lt; lia|]. simpl. by constructor.
Qed.

(** Reading the digits of a positive number back gives the number. *)
Lemma digits_from_pretty_N_go x s :
  (0 < x)%N →
  ∃ n, PyStr.digits_from 0 0 false (pretty_N_go x s)
       = PyStr.digits_from (Z.of_N x) n true s.
Proof.
  revert s. induction (N.lt_wf_0 x) as [x _ IH]. intros s Hx.
  rewrite pretty_N_go_step by done.
  pose proof (N.div_mod x 10 ltac:(lia)) as Hdm.
  pose proof (N.mod_lt x 10 ltac:(lia)) as Hlt.
  destruct (decide (x `div` 10 = 0)%N) as [Hq|Hq].
  - rewrite Hq, pretty_N_go_0. exists 1. cbn [PyStr.digits_from].
    rewrite isdigit_pretty_N_char, digit_value_pretty_N_char by done.
    f_equal. lia.
  - destruct (IH (x `div` 10)%N ltac:(apply N.div_lt; lia)
                (String (pretty_N_char (x `mod` 10)) s)
                ltac:(by apply N.neq_0_lt_0))
      as [n Hn].
    exists (n + 1). rewrite Hn. cbn [PyStr.digits_from].
    rewrite isdigit_pretty_N_char, digit_value_pretty_N_char by done.
    f_equal. lia.
Qed.

Lemma pretty_pos_chars (P : ascii → Prop) p :
  (∀ c, PyStr.isdigit c = true → P c) →
  Forall P (list_ascii_of_string (pretty_N_go (Npos p) EmptyString)).
Proof.
  intros HP. apply pretty_N_go_chars; [|constructor].
  intros m. apply HP, isdigit_pretty_N_char.
Qed.

Lemma of_int_unfold i :
  PyStr.of_int i =
  match i with
  | 0 => "0"
  | Zpos p => pretty_N_go (Npos p) EmptyString
  | Zneg p => String "-" (pretty_N_go (Npos p) EmptyString)
  end.
Proof. by destruct i. Qed.

Lemma of_int_chars (P : ascii → Prop) i :
  (∀ c, PyStr.isdigit c = true → P c) → P "-"%char →
  Forall P (list_ascii_of_string (PyStr.of_int i)).
Proof.
  intros Hd Hm. rewrite of_int_unfold. destruct i as [|p|p].
  - repeat constructor. by apply Hd.
  - by apply pretty_pos_chars.
  - cbn [list_ascii_of_string]. constructor; [done|by apply pretty_pos_chars].
Qed.

Lemma of_int_prepared i :
  PyStr.strip_c (PyStr.numeral_text (PyStr.of_int i)) = PyStr.of_int i.
Proof.
  rewrite numeral_text_ascii.
  - apply strip_c_id. apply of_int_chars; [|done].
    intros c Hc. by apply isdigit_plain in Hc as (_ & ? & _).
  - apply of_int_chars; [|done].
    intros c Hc. by apply isdigit_plain in Hc as (? & _).
Qed.

Lemma parse_int_of_int i : PyStr.parse_int (PyStr.of_int i) = Some i.
Proof.
  unfold PyStr.parse_int. rewrite of_int_prepared, of_int_unfold.
  destruct i as [|p|p]; [done| |].
  - destruct (pretty_N_go_head (Npos p) EmptyString ltac:(lia))
      as (c & t & Hct & Hc).
    destruct (digits_from_pretty_N_go (Npos p) EmptyString ltac:(lia))
      as [n Hn].
    rewrite Hct in Hn |- *. rewrite split_sign_digit by done. by rewrite Hn.
  - cbn [PyStr.split_sign].
    destruct (digits_from_pretty_N_go (Npos p) EmptyString ltac:(lia))
      as [n Hn].
    by rewrite Hn.
Qed.

Lemma of_int_nonempty i : PyStr.of_int i ≠ EmptyString.
Proof.
  rewrite of_int_unfold. destruct i as [|p|p]; [done| |done].
  destruct (pretty_N_go_head (Npos p) EmptyString ltac:(lia))
    as (c & t & -> & _). done.
Qed.

(** *** Float numerals *)

(** A text that starts with a digit is none of the words [inf], [infinity]
    and [nan]. *)
Lemma digit_not_word c t :
  PyStr.isdigit c = true →
  String.eqb (PyStr.lower (String c t)) "inf"
  || String.eqb (PyStr.lower (String c t)) "infinity" = false ∧
  String.eqb (PyStr.lower (String c t)) "nan" = false.
Proof.
  destruct c as [[] [] [] [] [] [] [] []]; vm_compute; intros H;
    try discriminate H; done.
Qed.

(** A decimal literal that starts with a digit: digits, then what may
    follow them. *)
Lemma parse_decimal_digit neg c t :
  PyStr.isdigit c = true →
  PyFloat.parse_decimal neg (String c t) =
  ('(ip, _, rest) ← PyStr.digits_from 0 0 false (String c t);
   '(ds, nf, rest') ← PyFloat.parse_fraction ip rest;
   e ← PyFloat.parse_exponent rest';
   Some (PyFloat.of_decimal neg ds (e - nf))).
Proof.
  destruct c as [[] [] [] [] [] [] [] []]; intros H;
    try discriminate H; reflexivity.
Qed.

Lemma parse_float_prepared b1 sg ds tail b2 :
  Numeral.blanks b1 → Numeral.blanks b2 → Numeral.digits ds →
  Forall (λ c, PyStr.code c < 128 ∧ PyStr.isspace_c c = false)
    (list_ascii_of_string tail) →
  PyFloat.parse
    (b1 +:+ Numeral.sign_text sg +:+ Numeral.digits_text ds +:+ tail +:+ b2) =
  ('(ip, _, rest) ←
     PyStr.digits_from 0 0 false (Numeral.digits_text ds +:+ tail);
   '(ds', nf, rest') ← PyFloat.parse_fraction ip rest;
   e ← PyFloat.parse_exponent rest';
   Some (PyFloat.of_decimal (Numeral.negative sg) ds' (e - nf))).
Proof.
  intros H1 H2 Hds Htail. unfold PyFloat.parse.
  rewrite (numeral_prepared b1 sg ds tail b2) by done.
  destruct (digits_text_head ds Hds) as (c & t & Hct & Hc).
  rewrite Hct, append_cons.
  destruct (digit_not_word c (t +:+ tail) Hc) as [-> ->].
  by apply parse_decimal_digit.
Qed.

Lemma parse_float_int_text b1 sg ds b2 :
  Numeral.blanks b1 → Numeral.blanks b2 → Numeral.digits ds →
  PyFloat.parse (Numeral.int_text b1 sg ds b2) =
  Some (PyFloat.of_decimal (Numeral.negative sg) (Numeral.digits_value ds) 0).
Proof.
  intros H1 H2 Hds. unfold Numeral.int_text.
  pose proof (parse_float_prepared b1 sg ds EmptyString b2 H1 H2 Hds
                ltac:(constructor)) as Hp.
  rewrite !append_nil in Hp. rewrite Hp. clear Hp.
  destruct Hds as [Hne Hds].
  rewrite digits_from_digits by done.
  destruct ds as [|d ds]; [done|]. reflexivity.
Qed.

Lemma parse_float_point_text b1 sg ds1 ds2 b2 :
  Numeral.blanks b1 → Numeral.blanks b2 →
  Numeral.digits ds1 → Numeral.digits ds2 →
  PyFloat.parse (Numeral.point_text b1 sg ds1 ds2 b2) =
  Some (PyFloat.of_decimal (Numeral.negative sg)
          (Numeral.digits_value (ds1 ++ ds2)) (- Z.of_nat (length ds2))).
Proof.
  intros H1 H2 Hds1 Hds2. unfold Numeral.point_text.
  pose proof (parse_float_prepared b1 sg ds1
                ("." +:+ Numeral.digits_text ds2) b2 H1 H2 Hds1) as Hp.
  rewrite !append_assoc in Hp. rewrite Hp; clear Hp.
  2:{ rewrite append_cons, append_nil. cbn [list_ascii_of_string].
      constructor; [done|]. apply digits_text_chars; [|by destruct Hds2].
      intros c Hc. by apply isdigit_plain in Hc as (? & ? & _). }
  destruct Hds1 as [Hne1 Hds1].
  rewrite digits_from_digits by done.
  destruct ds1 as [|d1 ds1]; [done|].
  rewrite append_cons, append_nil, digits_from_stop by done.
  cbn [mbind option_bind].
  destruct (digits_text_head ds2 Hds2) as (c & t & Hct & Hc).
  destruct Hds2 as [Hne2 Hds2].
  unfold PyFloat.parse_fraction. rewrite Hct, Hc, <- Hct.
  rewrite <- (append_nil_r (Numeral.digits_text ds2)).
  rewrite digits_from_digits by done.
  destruct ds2 as [|d2 ds2]; [done|].
  cbn [PyStr.digits_from mbind option_bind PyFloat.parse_exponent].
  rewrite digits_value_app. do 2 f_equal; lia.
Qed.

Lemma parse_float_exponent_text b1 sg ds sge dse b2 :
  Numeral.blanks b1 → Numeral.blanks b2 →
  Numeral.digits ds → Numeral.digits dse →
  PyFloat.parse (Numeral.exponent_text b1 sg ds sge dse b2) =
  Some (PyFloat.of_decimal (Numeral.negative sg) (Numeral.digits_value ds)
          (Numeral.signed sge (Numeral.digits_value dse))).
Proof.
  intros H1 H2 Hds Hdse. unfold Numeral.exponent_text.
  pose proof (parse_float_prepared b1 sg ds
                ("e" +:+ Numeral.sign_text sge +:+ Numeral.digits_text dse)
                b2 H1 H2 Hds) as Hp.
  rewrite !append_assoc in Hp. rewrite Hp; clear Hp.
  2:{ rewrite append_cons, append_nil. cbn [list_ascii_of_string].
      constructor; [done|]. rewrite chars_append, Forall_app. split.
      - by apply sign_text_chars.
      - apply digits_text_chars; [|by destruct Hdse].
        intros c Hc. by apply isdigit_plain in Hc as (? & ? & _). }
  destruct Hds as [Hne Hds].
  rewrite digits_from_digits by done.
  destruct ds as [|d ds]; [done|].
  rewrite append_cons, append_nil, digits_from_stop by done.
  cbn [mbind option_bind PyFloat.parse_fraction PyFloat.parse_exponent].
  destruct (digits_text_head dse Hdse) as (c & t & Hct & Hc).
  destruct Hdse as [Hnee Hdse].
  rewrite Hct, split_sign_numeral, <- Hct by done.
  rewrite <- (append_nil_r (Numeral.digits_text dse)).
  rewrite digits_from_digits by done.
  destruct dse as [|de dse]; [done|].
  cbn [PyStr.digits_from mbind option_bind]. unfold Numeral.signed.
  replace (Ascii.eqb "e" "e" || Ascii.eqb "e" "E") with true by done.
  destruct (Numeral.negative sge); cbn [mbind option_bind];
    unfold Numeral.digits_value; do 2 f_equal; lia.
Qed.

(** The value of a decimal with an exponent that is not negative: the
    rounding of an integer. *)
Lemma of_decimal_integer neg d e :
  0 ≤ e →
  PyFloat.of_decimal neg d e =
  if d =? 0 then (if neg then (-0)%float else 0%float)
  else PyFloat.nearest (if neg then - (d * 10 ^ e) else d * 10 ^ e).
Proof.
  intros He. unfold PyFloat.of_decimal.
  destruct (d =? 0); [done|]. by rewrite (proj2 (Z.leb_le 0 e) He).
Qed.

(** *** What a text that converts is made of *)

Lemma lstrip_c_chars (P : ascii → Prop) s :
  (∀ c, PyStr.isspace_c c = true → P c) →
  Forall P (list_ascii_of_string (PyStr.lstrip_c s)) →
  Forall P (list_ascii_of_string s).
Proof.
  intros HP. induction s as [|c s IH]; [done|]. cbn [PyStr.lstrip_c].
  destruct (PyStr.isspace_c c) eqn:Ec; [|done].
  intros H. cbn [list_ascii_of_string]. constructor; auto.
Qed.

Lemma rstrip_c_chars (P : ascii → Prop) s :
  (∀ c, PyStr.isspace_c c = true → P c) →
  Forall P (list_ascii_of_string (PyStr.rstrip_c s)) →
  Forall P (list_ascii_of_string s).
Proof.
  intros HP. induction s as [|c s IH]; [done|]. rewrite rstrip_c_nonempty.
  cbn [list_ascii_of_string].
  destruct (PyStr.rstrip_c s) as [|c' t] eqn:Et.
  - destruct (PyStr.isspace_c c) eqn:Ec.
    + intros _. constructor; [auto|]. by apply IH.
    + intros [Hc _]%Forall_cons. constructor; [done|]. by apply IH.
  - intros [Hc Ht]%Forall_cons. constructor; [done|]. by apply IH.
Qed.

Lemma strip_c_chars (P : ascii → Prop) s :
  (∀ c, PyStr.isspace_c c = true → P c) →
  Forall P (list_ascii_of_string (PyStr.strip_c s)) →
  Forall P (list_ascii_of_string s).
Proof.
  intros HP H. apply lstrip_c_chars; [done|]. by apply rstrip_c_chars.
Qed.

Lemma split_sign_unfold c t :
  PyStr.split_sign (String c t) =
  if Ascii.eqb c "-" then (true, t)
  else if Ascii.eqb c "+" then (false, t) else (false, String c t).
Proof. by destruct c as [[] [] [] [] [] [] [] []]. Qed.

Lemma split_sign_chars (P : ascii → Prop) s neg body :
  P "+"%char → P "-"%char →
  PyStr.split_sign s = (neg, body) →
  Forall P (list_ascii_of_string body) → Forall P (list_ascii_of_string s).
Proof.
  intros Hp Hm. destruct s as [|c t]; [by intros [= _ <-]|].
  rewrite split_sign_unfold.
  destruct (Ascii.eqb_spec c "-") as [-> | _];
    [intros [= _ <-] H; by constructor|].
  destruct (Ascii.eqb_spec c "+") as [-> | _];
    [intros [= _ <-] H; by constructor|].
  by intros [= _ <-].
Qed.

Lemma digits_from_chars (P : ascii → Prop) acc n prev s v n' rest :
  (∀ c, PyStr.isdigit c = true → P c) → P "_"%char →
  PyStr.digits_from acc n prev s = Some (v, n', rest) →
  Forall P (list_ascii_of_string rest) → Forall P (list_ascii_of_string s).
Proof.
  intros Hd Hu. revert acc n prev.
  induction s as [|c s IH]; intros acc n prev; cbn [PyStr.digits_from].
  - destruct prev; [|done]. by intros [= _ _ <-].
  - destruct (PyStr.isdigit c) eqn:Ec.
    { intros H Hr. cbn [list_ascii_of_string]. constructor; [auto|].
      by eapply IH. }
    destruct (Ascii.eqb_spec c "_") as [-> | _].
    { destruct prev; [|done]. destruct s as [|d s']; [done|].
      destruct (PyStr.isdigit d); [|done]. intros H Hr.
      cbn [list_ascii_of_string]. constructor; [done|].
      by eapply (IH acc n false). }
    destruct prev; [|done]. by intros [= _ _ <-].
Qed.

Lemma int_char_parts :
  (∀ c, PyStr.isspace_c c = true → Numeral.int_char c = true) ∧
  (∀ c, PyStr.isdigit c = true → Numeral.int_char c = true) ∧
  Numeral.int_char "+" = true ∧ Numeral.int_char "-" = true ∧
  Numeral.int_char "_" = true.
Proof.
  unfold Numeral.int_char. split_and!; try done.
  - intros c ->. by rewrite orb_true_r.
  - by intros c ->.
Qed.

(** The text [int] accepts holds nothing but blanks, signs, digits and
    underscores. *)
Lemma parse_int_chars s v :
  PyStr.parse_int s = Some v →
  Forall (λ c, Numeral.int_char c = true)
    (list_ascii_of_string (PyStr.numeral_text s)).
Proof.
  destruct int_char_parts as (Hb & Hd & Hp & Hm & Hu).
  unfold PyStr.parse_int.
  destruct (PyStr.split_sign _) as [neg body] eqn:Es.
  destruct (PyStr.digits_from 0 0 false body) as [[[v' n'] rest]|] eqn:Ed;
    [|done].
  destruct rest; [|done]. intros _.
  apply strip_c_chars; [done|].
  eapply split_sign_chars; [done..|exact Es|].
  eapply digits_from_chars; [done..|exact Ed|]. constructor.
Qed.

Lemma continuation_code c a :
  PyStr.continuation c = Some a → 128 ≤ PyStr.code c.
Proof.
  unfold PyStr.continuation. case_match; [|done]. intros _. blia.
Qed.

(** Every byte below 128 of a text is one of its code points. *)
Lemma code_points_ascii s x :
  x ∈ list_ascii_of_string s → PyStr.code x < 128 →
  PyStr.code x ∈ PyStr.code_points s.
Proof.
  remember (String.length s) as n eqn:Hn.
  assert (String.length s ≤ n)%nat as Hlen by lia. clear Hn.
  revert s Hlen. induction n as [|n IH]; intros s Hlen Hx Hlt.
  { destruct s; [by apply elem_of_nil in Hx|simpl in Hlen; lia]. }
  destruct s as [|c0 s1]; [by apply elem_of_nil in Hx|].
  cbn [list_ascii_of_string] in Hx. cbn [String.length] in Hlen.
  cbn [PyStr.code_points].
  destruct (PyStr.code c0 <? 128) eqn:E0.
  { apply elem_of_cons in Hx as [-> | Hx]; [left|].
    right. apply IH; [lia|done..]. }
  apply elem_of_cons in Hx as [-> | Hx]; [blia|].
  assert (PyStr.code x ∈ PyStr.code_points s1) as H1
    by (apply IH; [lia|done..]).
  destruct s1 as [|c1 s2]; [by apply elem_of_nil in Hx|].
  destruct (PyStr.continuation c1) as [a|] eqn:E1; [|by right].
  apply continuation_code in E1.
  cbn [list_ascii_of_string] in Hx. cbn [String.length] in Hlen.
  apply elem_of_cons in Hx as [-> | Hx]; [lia|].
  case_match; [right; apply IH; [lia|done..]|].
  destruct s2 as [|c2 s3]; [by right|].
  destruct (PyStr.continuation c2) as [b|] eqn:E2; [|by right].
  apply continuation_code in E2.
  cbn [list_ascii_of_string] in Hx. cbn [String.length] in Hlen.
  apply elem_of_cons in Hx as [-> | Hx]; [lia|].
  case_match; [right; apply IH; [lia|done..]|].
  destruct s3 as [|c3 s4]; [by right|].
  destruct (PyStr.continuation c3) as [d|] eqn:E3; [|by right].
  apply continuation_code in E3.
  cbn [list_ascii_of_string] in Hx. cbn [String.length] in Hlen.
  apply elem_of_cons in Hx as [-> | Hx]; [lia|].
  case_match; [right; apply IH; [lia|done..]|by right].
Qed.

Lemma char_of_code c : PyStr.char_of (PyStr.code c) = c.
Proof.
  unfold PyStr.char_of, PyStr.code. by rewrite N2Z.id, ascii_N_embedding.
Qed.

(** A code point below 128 that a set of characters does not hold leaves,
    in the ASCII form of the text, a character the set does not hold:
    itself, or the question mark the text ends with. *)
Lemma to_ascii_foreign (P : ascii → bool) cps k :
  P "?"%char = false → k ∈ cps → 0 ≤ k < 128 →
  P (PyStr.char_of k) = false →
  ∃ c, c ∈ list_ascii_of_string (PyStr.to_ascii cps) ∧ P c = false.
Proof.
  intros Hq Hk Hr HP. induction cps as [|cp cps IH];
    [by apply elem_of_nil in Hk|].
  cbn [PyStr.to_ascii].
  assert (∀ c t, (∃ c', c' ∈ list_ascii_of_string t ∧ P c' = false) →
                 ∃ c', c' ∈ list_ascii_of_string (String c t) ∧ P c' = false)
    as Hnext.
  { intros c t (c' & H1 & H2). exists c'. split; [by right|done]. }
  assert (∃ c', c' ∈ list_ascii_of_string "?" ∧ P c' = false) as Hstop.
  { exists "?"%char. split; [left|done]. }
  apply elem_of_cons in Hk as [<- | Hk].
  - destruct ((0 <=? k) && (k <? 127)) eqn:E.
    + exists (PyStr.char_of k). split; [left|done].
    + assert (k = 127) as -> by blia. exact Hstop.
  - destruct ((0 <=? cp) && (cp <? 127)); [by apply Hnext, IH|].
    destruct (PyStr.unicode_space cp); [by apply Hnext, IH|].
    destruct (PyStr.unicode_decimal cp); [by apply Hnext, IH|exact Hstop].
Qed.

Lemma numeral_text_foreign (P : ascii → bool) s x :
  P "?"%char = false → x ∈ list_ascii_of_string s → PyStr.code x < 128 →
  P x = false →
  ∃ c, c ∈ list_ascii_of_string (PyStr.numeral_text s) ∧ P c = false.
Proof.
  intros Hq Hx Hlt HP. unfold PyStr.numeral_text.
  destruct (PyStr.is_ascii s); [by exists x|].
  apply (to_ascii_foreign P _ (PyStr.code x));
    [done| | |by rewrite char_of_code].
  - by apply code_points_ascii.
  - unfold PyStr.code in *. lia.
Qed.

(** [int] refuses a text that holds a character below 128 other than a
    blank, a sign, a digit and the underscore. *)
Lemma parse_int_foreign s x :
  x ∈ list_ascii_of_string s → PyStr.code x < 128 → Numeral.int_char x = false →
  PyStr.parse_int s = None.
Proof.
  intros Hx Hlt HP.
  destruct (PyStr.parse_int s) as [v|] eqn:E; [|done].
  apply parse_int_chars in E.
  destruct (numeral_text_foreign Numeral.int_char s x) as (c & Hc & Hf);
    [done..|].
  rewrite Forall_forall in E. apply E in Hc. congruence.
Qed.

Lemma lower_chars s :
  list_ascii_of_string (PyStr.lower s) =
  PyStr.lower_char <$> list_ascii_of_string s.
Proof.
  unfold PyStr.lower. induction s as [|c s IH]; [done|].
  cbn [PyStr.map_chars list_ascii_of_string fmap list_fmap]. by rewrite IH.
Qed.

Lemma word_chars body w :
  Forall (λ c, existsb (Ascii.eqb c)
                 ["e"; "i"; "n"; "f"; "t"; "y"; "a"]%char = true)
    (list_ascii_of_string w) →
  PyStr.lower body = w →
  Forall (λ c, Numeral.float_char c = true) (list_ascii_of_string body).
Proof.
  intros Hw <-. rewrite lower_chars, Forall_fmap in Hw.
  eapply Forall_impl; [exact Hw|]. intros c Hc.
  unfold Numeral.float_char. apply orb_true_iff. right. exact Hc.
Qed.

Lemma float_char_parts :
  (∀ c, Numeral.int_char c = true → Numeral.float_char c = true) ∧
  Numeral.float_char "." = true ∧ Numeral.float_char "e" = true ∧
  Numeral.float_char "E" = true.
Proof.
  unfold Numeral.float_char. split_and!; try done. by intros c ->.
Qed.

Lemma parse_fraction_unfold ip c t :
  PyFloat.parse_fraction ip (String c t) =
  if Ascii.eqb c "." then
    match t with
    | String d _ =>
        if PyStr.isdigit d then PyStr.digits_from ip 0 false t
        else Some (ip, 0, t)
    | EmptyString => Some (ip, 0, t)
    end
  else Some (ip, 0, String c t).
Proof. by destruct c as [[] [] [] [] [] [] [] []]. Qed.

Lemma parse_fraction_chars (P : ascii → Prop) ip s ds nf rest :
  (∀ c, PyStr.isdigit c = true → P c) → P "_"%char → P "."%char →
  PyFloat.parse_fraction ip s = Some (ds, nf, rest) →
  Forall P (list_ascii_of_string rest) → Forall P (list_ascii_of_string s).
Proof.
  intros Hd Hu Hp. destruct s as [|c t]; [by intros [= _ _ <-]|].
  rewrite parse_fraction_unfold.
  destruct (Ascii.eqb_spec c ".") as [-> | _]; [|by intros [= _ _ <-]].
  intros H Hr. cbn [list_ascii_of_string]. constructor; [done|].
  destruct t as [|d t']; [by injection H as _ _ <-|].
  destruct (PyStr.isdigit d); [|by injection H as _ _ <-].
  by eapply digits_from_chars.
Qed.

Lemma parse_exponent_chars (P : ascii → Prop) s e :
  (∀ c, PyStr.isdigit c = true → P c) → P "_"%char →
  P "+"%char → P "-"%char → P "e"%char → P "E"%char →
  PyFloat.parse_exponent s = Some e → Forall P (list_ascii_of_string s).
Proof.
  intros Hd Hu Hp Hm He HE. destruct s as [|c t]; [constructor|].
  cbn [PyFloat.parse_exponent].
  destruct (Ascii.eqb c "e" || Ascii.eqb c "E") eqn:Ec; [|done].
  destruct (PyStr.split_sign t) as [neg body] eqn:Es.
  destruct (PyStr.digits_from 0 0 false body) as [[[v n] rest]|] eqn:Ed;
    [|done].
  destruct rest; [|done]. intros _. cbn [list_ascii_of_string].
  constructor.
  - apply orb_true_iff in Ec as [Ec | Ec]; apply Ascii.eqb_eq in Ec;
      by subst.
  - eapply split_sign_chars; [done..|exact Es|].
    eapply digits_from_chars; [done..|exact Ed|]. constructor.
Qed.

Lemma parse_decimal_other neg c t :
  Ascii.eqb c "." = false →
  PyFloat.parse_decimal neg (String c t) =
  ('(ip, _, rest) ← PyStr.digits_from 0 0 false (String c t);
   '(ds, nf, rest') ← PyFloat.parse_fraction ip rest;
   e ← PyFloat.parse_exponent rest';
   Some (PyFloat.of_decimal neg ds (e - nf))).
Proof.
  destruct c as [[] [] [] [] [] [] [] []]; intros H;
    try discriminate H; reflexivity.
Qed.

Lemma parse_tail_chars (P : ascii → Prop) neg ip rest f :
  (∀ c, PyStr.isdigit c = true → P c) → P "_"%char → P "."%char →
  P "+"%char → P "-"%char → P "e"%char → P "E"%char →
  ('(ds, nf, rest') ← PyFloat.parse_fraction ip rest;
   e ← PyFloat.parse_exponent rest';
   Some (PyFloat.of_decimal neg ds (e - nf))) = Some f →
  Forall P (list_ascii_of_string rest).
Proof.
  intros Hd Hu Hpt Hp Hm He HE.
  destruct (PyFloat.parse_fraction ip rest) as [[[ds nf] rest']|] eqn:Ef;
    [|done].
  cbn [mbind option_bind].
  destruct (PyFloat.parse_exponent rest') as [e|] eqn:Ee; [|done].
  intros _. eapply parse_fraction_chars; [done..|exact Ef|].
  by eapply parse_exponent_chars.
Qed.

Lemma parse_decimal_chars (P : ascii → Prop) neg s f :
  (∀ c, PyStr.isdigit c = true → P c) → P "_"%char → P "."%char →
  P "+"%char → P "-"%char → P "e"%char → P "E"%char →
  PyFloat.parse_decimal neg s = Some f → Forall P (list_ascii_of_string s).
Proof.
  intros Hd Hu Hpt Hp Hm He HE. destruct s as [|c t]; [constructor|].
  destruct (Ascii.eqb_spec c ".") as [-> | Hc].
  - destruct t as [|d t']; [done|]. cbn [PyFloat.parse_decimal].
    destruct (PyStr.isdigit d); [|done].
    by apply parse_tail_chars.
  - rewrite parse_decimal_other by by apply Ascii.eqb_neq.
    destruct (PyStr.digits_from 0 0 false (String c t))
      as [[[ip n] rest]|] eqn:Ed; [|done].
    cbn [mbind option_bind]. intros H.
    eapply digits_from_chars; [done..|exact Ed|].
    by eapply parse_tail_chars.
Qed.

(** The text [float] accepts holds nothing but what an integer numeral
    holds, the point and the letters of [e], [inf], [infinity] and
    [nan]. *)
Lemma parse_float_chars s f :
  PyFloat.parse s = Some f →
  Forall (λ c, Numeral.float_char c = true)
    (list_ascii_of_string (PyStr.numeral_text s)).
Proof.
  destruct int_char_parts as (Hb & Hd & Hp & Hm & Hu).
  destruct float_char_parts as (Hi & Hpt & He & HE).
  unfold PyFloat.parse.
  destruct (PyStr.split_sign _) as [neg body] eqn:Es. intros H.
  apply strip_c_chars; [auto|].
  eapply split_sign_chars; [auto..|exact Es|].
  destruct (String.eqb (PyStr.lower body) "inf") eqn:E1.
  { apply String.eqb_eq in E1. eapply word_chars; [|exact E1].
    by repeat constructor. }
  destruct (String.eqb (PyStr.lower body) "infinity") eqn:E2.
  { apply String.eqb_eq in E2. eapply word_chars; [|exact E2].
    by repeat constructor. }
  destruct (String.eqb (PyStr.lower body) "nan") eqn:E3.
  { apply String.eqb_eq in E3. eapply word_chars; [|exact E3].
    by repeat constructor. }
  cbn [orb] in H. eapply parse_decimal_chars; [..|exact H]; auto.
Qed.

(** [float] refuses a text that holds a character below 128 other than
    those. *)
Lemma parse_float_foreign s x :
  x ∈ list_ascii_of_string s → PyStr.code x < 128 →
  Numeral.float_char x = false →
  PyFloat.parse s = None.
Proof.
  intros Hx Hlt HP.
  destruct (PyFloat.parse s) as [v|] eqn:E; [|done].
  apply parse_float_chars in E.
  destruct (numeral_text_foreign Numeral.float_char s x) as (c & Hc & Hf);
    [done..|].
  rewrite Forall_forall in E. apply E in Hc. congruence.
Qed.

(** *** Numbers *)

Lemma _safe_int_number :
  (∀ i, _safe_int (VInt i) = Some i) ∧
  (∀ b : bool, _safe_int (VBool b) = Some (if b then 1 else 0)) ∧
  (∀ f, _safe_int (VFloat f) =
        match Prim2SF f with
        | S754_zero _ => Some 0
        | S754_finite s m e =>
            let a := if 0 <=? e then Zpos m * 2 ^ e
                     else Zpos m / 2 ^ (- e) in
            Some (if s then - a else a)
        | S754_infinity _ | S754_nan => None
        end).
Proof.
  split_and!; [done|done|]. intros f.
  unfold _safe_int, _safe_int_try. simpl. unfold PyFloat.to_int.
  destruct (Prim2SF f) as [s|s| |s m e]; simpl; try done.
  destruct (0 <=? e) eqn:E.
  - rewrite Z.shiftl_mul_pow2 by blia. done.
  - rewrite Z.shiftl_div_pow2 by blia. done.
Qed.

Lemma _safe_float_number :
  (∀ f, _safe_float (VFloat f) = Some f) ∧
  (∀ b : bool, _safe_float (VBool b) = Some (if b then 1 else 0)%float) ∧
  (∀ i, _safe_float (VInt i) =
        if PrimFloat.is_infinity (PyFloat.nearest i) then None
        else Some (PyFloat.nearest i)).
Proof.
  split_and!; [done|done|]. intros i.
  unfold _safe_float, _safe_float_try. simpl.
  unfold PyFloat.of_int, PyFloat.nearest.
  by destruct (PrimFloat.is_infinity _).
Qed.

Lemma _safe_int_text s :
  _safe_int (VStr s) = PyStr.parse_int s.
Proof.
  unfold _safe_int, _safe_int_try. simpl.
  destruct (String.eqb s EmptyString) eqn:E.
  - apply String.eqb_eq in E. by subst.
  - by destruct (PyStr.parse_int s).
Qed.

Lemma _safe_float_text s :
  _safe_float (VStr s) = PyFloat.parse s.
Proof.
  unfold _safe_float, _safe_float_try. simpl.
  destruct (String.eqb s EmptyString) eqn:E.
  - apply String.eqb_eq in E. by subst.
  - by destruct (PyFloat.parse s).
Qed.

Lemma digits_value_nonneg ds :
  Forall (λ d, 0 ≤ d ≤ 9) ds → 0 ≤ Numeral.digits_value ds.
Proof.
  unfold Numeral.digits_value. intros Hds.
  assert (∀ a, 0 ≤ a → 0 ≤ foldl (λ acc d, 10 * acc + d) a ds) as H;
    [|by apply H].
  induction Hds as [|d ds Hd _ IH]; intros a Ha; [done|].
  apply IH. lia.
Qed.

(** C8. [coerce_int] and [coerce_float] ([_safe_int], [_safe_float]) never
    raise: the function as written, with its [try], always returns.  They
    return null on [None], on the empty string and on every input whose
    conversion fails, and the converted value otherwise, where the
    conversions are pinned down without the parser:
    - a number: an integer is itself, a boolean 0 or 1, a float its
      truncation towards zero, and null when it is infinite or not a number;
      as a float, an integer is the nearest binary64 number, and null when
      that is infinite;
    - a numeric string: blanks (TAB, LF, VT, FF, CR, space), an optional
      sign and decimal digits give the number the digits denote, for the
      integer coercion up to the interpreter's limit of 4300 digits; for the
      float coercion also digits, a point and digits, and digits with an
      exponent, give the binary64 number nearest to the decimal;
    - a string holding a character below 128 that no numeral holds gives
      null;
    - and texts that mark the edges: single underscores between digits, the
      separators U+001C to U+001F (not blanks here), blanks and decimal
      digits outside ASCII, [inf] and [nan]. *)
Theorem C8_coercion_total_and_faithful :
  (∀ x, _safe_int_try x = Ok (_safe_int x)) ∧
  (∀ x, _safe_float_try x = Ok (_safe_float x)) ∧
  _safe_int VNone = None ∧ _safe_int (VStr EmptyString) = None ∧
  _safe_float VNone = None ∧ _safe_float (VStr EmptyString) = None ∧
  (∀ x e, Py.int_ x = Raise e → _safe_int x = None) ∧
  (∀ x e, Py.float_ x = Raise e → _safe_float x = None) ∧
  (∀ x i, Py.int_ x = Ok i → _safe_int x = Some i) ∧
  (∀ x f, Py.float_ x = Ok f → _safe_float x = Some f) ∧
  (* numbers *)
  (∀ i, _safe_int (VInt i) = Some i) ∧
  (∀ b : bool, _safe_int (VBool b) = Some (if b then 1 else 0)) ∧
  (∀ f, _safe_int (VFloat f) =
        match Prim2SF f with
        | S754_zero _ => Some 0
        | S754_finite s m e =>
            let a := if 0 <=? e then Zpos m * 2 ^ e
                     else Zpos m / 2 ^ (- e) in
            Some (if s then - a else a)
        | S754_infinity _ | S754_nan => None
        end) ∧
  (∀ f, _safe_float (VFloat f) = Some f) ∧
  (∀ b : bool, _safe_float (VBool b) = Some (if b then 1 else 0)%float) ∧
  (∀ i, _safe_float (VInt i) =
        if PrimFloat.is_infinity (PyFloat.nearest i) then None
        else Some (PyFloat.nearest i)) ∧
  (* numeric strings *)
  (∀ b1 sg ds b2,
     Numeral.blanks b1 → Numeral.blanks b2 → Numeral.digits ds →
     Z.of_nat (length ds) ≤ PyStr.int_max_str_digits →
     _safe_int (VStr (Numeral.int_text b1 sg ds b2)) =
     Some (Numeral.signed sg (Numeral.digits_value ds))) ∧
  (∀ b1 sg ds b2,
     Numeral.blanks b1 → Numeral.blanks b2 → Numeral.digits ds →
     _safe_float (VStr (Numeral.int_text b1 sg ds b2)) =
     Some (if Numeral.digits_value ds =? 0
           then (if Numeral.negative sg then (-0)%float else 0%float)
           else PyFloat.nearest
                  (Numeral.signed sg (Numeral.digits_value ds)))) ∧
  (∀ b1 sg ds sge dse b2,
     Numeral.blanks b1 → Numeral.blanks b2 →
     Numeral.digits ds → Numeral.digits dse → sge ≠ Numeral.Minus →
     _safe_float (VStr (Numeral.exponent_text b1 sg ds sge dse b2)) =
     Some (if Numeral.digits_value ds =? 0
           then (if Numeral.negative sg then (-0)%float else 0%float)
           else PyFloat.nearest
                  (Numeral.signed sg
                     (Numeral.digits_value ds
                      * 10 ^ Numeral.digits_value dse)))) ∧
  (∀ b1 sg ds dse b2,
     Numeral.blanks b1 → Numeral.blanks b2 →
     Numeral.digits ds → Numeral.digits dse →
     _safe_float
       (VStr (Numeral.exponent_text b1 sg ds Numeral.Minus dse b2)) =
     Some (PyFloat.of_decimal (Numeral.negative sg)
             (Numeral.digits_value ds) (- Numeral.digits_value dse))) ∧
  (∀ b1 sg ds1 ds2 b2,
     Numeral.blanks b1 → Numeral.blanks b2 →
     Numeral.digits ds1 → Numeral.digits ds2 →
     _safe_float (VStr (Numeral.point_text b1 sg ds1 ds2 b2)) =
     Some (PyFloat.of_decimal (Numeral.negative sg)
             (Numeral.digits_value (ds1 ++ ds2))
             (- Z.of_nat (length ds2)))) ∧
  (* strings that are no numerals *)
  (∀ s x,
     x ∈ list_ascii_of_string s → PyStr.code x < 128 →
     Numeral.int_char x = false → _safe_int (VStr s) = None) ∧
  (∀ s x,
     x ∈ list_ascii_of_string s → PyStr.code x < 128 →
     Numeral.float_char x = false → _safe_float (VStr s) = None) ∧
  (* the integer coercion at the edges *)
  (_safe_int (VStr "-5") = Some (-5) ∧ _safe_int (VStr "+7") = Some 7 ∧
   _safe_int (VStr "007") = Some 7 ∧ _safe_int (VStr "-0") = Some 0 ∧
   _safe_int (VStr "1_000") = Some 1000 ∧
   _safe_int (VStr "1__0") = None ∧ _safe_int (VStr "_1") = None ∧
   _safe_int (VStr "1_") = None ∧ _safe_int (VStr "+-1") = None ∧
   _safe_int (VStr "+ 1") = None ∧ _safe_int (VStr "1 2") = None ∧
   _safe_int (VStr " ") = None ∧ _safe_int (VStr "3.5") = None ∧
   _safe_int (VStr "1e3") = None ∧ _safe_int (VStr "0x10") = None ∧
   _safe_int (VStr (Numeral.file_separator +:+ "7")) = None ∧
   _safe_int (VStr ("7" +:+ Numeral.file_separator)) = None ∧
   _safe_int (VStr (Numeral.no_break_space +:+ "7")) = Some 7 ∧
   _safe_int (VStr Numeral.arabic_indic_123) = Some 123 ∧
   _safe_int (VStr Numeral.fullwidth_7) = Some 7 ∧
   _safe_int (VStr ("1" +:+ Numeral.e_acute)) = None ∧
   _safe_int (VFloat 3.99) = Some 3 ∧ _safe_int (VFloat (-3.99)) = Some (-3) ∧
   _safe_int (VFloat 1e22) = Some (10 ^ 22) ∧
   _safe_int (VFloat (-0)) = Some 0 ∧
   _safe_int (VFloat infinity) = None ∧
   _safe_int (VFloat neg_infinity) = None ∧
   _safe_int (VFloat nan) = None) ∧
  (* the float coercion at the edges *)
  (_safe_float (VStr "0.5") = Some 0.5%float ∧
   _safe_float (VStr "0.1") = Some 0.1%float ∧
   _safe_float (VStr "-2.5e-3") = Some (-0.0025)%float ∧
   _safe_float (VStr "1E3") = Some 1000%float ∧
   _safe_float (VStr ".5") = Some 0.5%float ∧
   _safe_float (VStr "1.") = Some 1%float ∧
   _safe_float (VStr "1_0.5") = Some 10.5%float ∧
   _safe_float (VStr "+.5e-1") = Some 0.05%float ∧
   _safe_float (VStr "-0") = Some (-0)%float ∧
   _safe_float (VStr "inf") = Some infinity ∧
   _safe_float (VStr "-Infinity") = Some neg_infinity ∧
   _safe_float (VStr " NaN ") = Some nan ∧
   _safe_float (VStr "1e400") = Some infinity ∧
   _safe_float (VStr "1e-400") = Some 0%float ∧
   _safe_float (VStr "1,5") = None ∧ _safe_float (VStr ".") = None ∧
   _safe_float (VStr "1e") = None ∧ _safe_float (VStr "e5") = None ∧
   _safe_float (VStr "1._5") = None ∧ _safe_float (VStr "infinit") = None ∧
   _safe_float (VStr "0x10") = None ∧ _safe_float (VStr "1 2") = None ∧
   _safe_float (VStr " ") = None ∧
   _safe_float (VStr (Numeral.file_separator +:+ "1.5")) = None ∧
   _safe_float (VStr (Numeral.no_break_space +:+ "1.5 ")) = Some 1.5%float ∧
   _safe_float (VStr Numeral.arabic_indic_123) = Some 123%float ∧
   _safe_float (VInt 3) = Some 3%float ∧
   _safe_float (VInt (2 ^ 53 + 1)) = Some 9007199254740992%float ∧
   _safe_float (VInt (2 ^ 53 + 3)) = Some 9007199254740996%float ∧
   _safe_float (VInt (- 10 ^ 22)) = Some (-1e22)%float ∧
   _safe_float (VInt (2 ^ 1024)) = None).
Proof.
  destruct _safe_int_number as (Hi1 & Hi2 & Hi3).
  destruct _safe_float_number as (Hf1 & Hf2 & Hf3).
  split; [apply _safe_int_try_ok|]. split; [apply _safe_float_try_ok|].
  do 4 (split; [done|]).
  split; [intros x e H; apply _safe_int_None; by exists e|].
  split; [intros x e H; apply _safe_float_None; by exists e|].
  split; [intros x i; apply _safe_int_Some|].
  split; [intros x f; apply _safe_float_Some|].
  do 6 (split; [done|]).
  split.
  { intros b1 sg ds b2 H1 H2 Hds _.
    rewrite _safe_int_text. by apply parse_int_numeral. }
  split.
  { intros b1 sg ds b2 H1 H2 Hds.
    rewrite _safe_float_text, parse_float_int_text by done.
    rewrite of_decimal_integer by done. unfold Numeral.signed.
    by rewrite Z.pow_0_r, Z.mul_1_r. }
  split.
  { intros b1 sg ds sge dse b2 H1 H2 Hds Hdse Hsge.
    rewrite _safe_float_text, parse_float_exponent_text by done.
    assert (Numeral.negative sge = false) as Hn by by destruct sge.
    unfold Numeral.signed at 1. rewrite Hn.
    rewrite of_decimal_integer; [done|].
    apply digits_value_nonneg. by destruct Hdse. }
  split.
  { intros b1 sg ds dse b2 H1 H2 Hds Hdse.
    by rewrite _safe_float_text, parse_float_exponent_text. }
  split.
  { intros b1 sg ds1 ds2 b2 H1 H2 Hds1 Hds2.
    by rewrite _safe_float_text, parse_float_point_text. }
  split.
  { intros s x Hx Hlt Hc. rewrite _safe_int_text.
    by eapply parse_int_foreign. }
  split.
  { intros s x Hx Hlt Hc. rewrite _safe_float_text.
    by eapply parse_float_foreign. }
  split; split_and!; vm_compute; reflexivity.
Qed.

(** The contract of C8 at concrete inputs: numbers and numeric strings are
    converted, anything else gives null. *)
Lemma C8_coercion_witness :
  _safe_int (VStr " -42 ") = Some (-42) ∧
  _safe_int (VStr "4a2") = None ∧
  _safe_int (VFloat 3.5) = Some 3 ∧
  _safe_float (VStr "12.50") = Some 12.5%float ∧
  _safe_float (VStr "-3e2") = Some (-300)%float ∧
  _safe_float (VStr "25e-1") = Some 2.5%float ∧
  _safe_float (VStr " 7") = Some 7%float ∧
  _safe_float (VStr "1,5") = None ∧
  _safe_float (VInt 2) = Some 2%float.
Proof.
  pose proof C8_coercion_total_and_faithful
    as (_ & _ & _ & _ & _ & _ & _ & _ & _ & _ & _ & _ & Hif & _ & _ & Hfi
        & Hint & Hfint & Hexp & Hexpm & Hpoint & Hnoi & Hnof & _ & _).
  assert (Numeral.blanks " ") as Hb
    by (repeat constructor; apply blank_isspace_c; reflexivity).
  assert (Numeral.blanks EmptyString) as Hb0 by constructor.
  assert (∀ ds, ds ≠ [] → forallb (λ d, (0 <=? d) && (d <=? 9)) ds = true →
                Numeral.digits ds) as Hds.
  { intros ds Hne H. split; [done|]. apply Forall_forall. intros d Hd.
    rewrite forallb_forall in H. apply list_elem_of_In, H in Hd. blia. }
  split_and!.
  - refine (eq_trans (Hint " " Numeral.Minus [4; 2] " " Hb Hb _ _) _);
      [by apply Hds|vm_compute; discriminate|reflexivity].
  - apply (Hnoi "4a2" "a"%char); [|reflexivity..].
    apply list_elem_of_In. simpl. tauto.
  - refine (eq_trans (Hif 3.5%float) _). reflexivity.
  - refine (eq_trans
              (Hpoint EmptyString Numeral.Unsigned [1; 2] [5; 0] EmptyString
                 Hb0 Hb0 _ _) _);
      [by apply Hds..|vm_compute; reflexivity].
  - refine (eq_trans
              (Hexp EmptyString Numeral.Minus [3] Numeral.Unsigned [2]
                 EmptyString Hb0 Hb0 _ _ _) _);
      [by apply Hds..|done|vm_compute; reflexivity].
  - refine (eq_trans
              (Hexpm EmptyString Numeral.Unsigned [2; 5] [1] EmptyString
                 Hb0 Hb0 _ _) _);
      [by apply Hds..|vm_compute; reflexivity].
  - refine (eq_trans
              (Hfint " " Numeral.Unsigned [7] EmptyString Hb Hb0 _) _);
      [by apply Hds|vm_compute; reflexivity].
  - apply (Hnof "1,5" ","%char); [|reflexivity..].
    apply list_elem_of_In. simpl. tauto.
  - refine (eq_trans (Hfi 2) _). vm_compute. reflexivity.
Defined.

(** ** Name normalisation *)

Section MergeNameFacts.

Import MergeName.
Variable lower_other : ustr → N → ustr → ustr.

Abbreviation merge := (_merge_name lower_other).

Lemma kept_lt_128 c : kept c = true → (c <? 128)%N = true.
Proof. unfold kept. intros H. blia. Qed.

Lemma kept_lower_ascii c : kept c = true → lower_ascii c = c.
Proof.
  unfold kept, lower_ascii. intros H.
  destruct ((65 <=? c) && (c <=? 90))%N eqn:E; [|done]. blia.
Qed.

Lemma kept_isspace c : kept c = true → isspace c = true → c = 32%N.
Proof. unfold kept, isspace. blia. Qed.

Lemma isspace_32 : isspace 32 = true.
Proof. reflexivity. Qed.

Lemma kept_32 : kept 32 = true.
Proof. reflexivity. Qed.

Lemma lower_from_kept before s :
  Forall (λ c, kept c = true) s → lower_from lower_other before s = s.
Proof.
  intros H. revert before. induction H as [|c s Hc _ IH]; intros before; [done|].
  simpl. rewrite (kept_lt_128 _ Hc), (kept_lower_ascii _ Hc). simpl.
  by rewrite IH.
Qed.

Lemma lower_from_ascii before s :
  Forall (λ c, (c < 128)%N) s →
  lower_from lower_other before s = lower_ascii <$> s.
Proof.
  intros H. revert before. induction H as [|c s Hc _ IH]; intros before; [done|].
  simpl. apply N.ltb_lt in Hc. rewrite Hc. simpl. by rewrite IH.
Qed.

Lemma filter_kept_id s :
  Forall (λ c, kept c = true) s → filter (λ c, kept c = true) s = s.
Proof.
  induction 1 as [|c s Hc _ IH]; [done|].
  rewrite filter_cons_True by done. by rewrite IH.
Qed.

Lemma lstrip_Forall (P : N → Prop) s : Forall P s → Forall P (lstrip s).
Proof.
  induction 1 as [|c s Hc Hs IH]; simpl; [done|].
  destruct (isspace c); [done|]. by constructor.
Qed.

Lemma rstrip_Forall (P : N → Prop) s : Forall P s → Forall P (rstrip s).
Proof.
  induction 1 as [|c s Hc Hs IH]; simpl; [done|].
  destruct (rstrip s) as [|d t].
  - destruct (isspace c); [done|]. by repeat constructor.
  - by constructor.
Qed.

Lemma collapse_Forall b s :
  Forall (λ c, kept c = true) s → Forall (λ c, kept c = true) (collapse b s).
Proof.
  intros H. revert b. induction H as [|c s Hc Hs IH]; intros b; simpl; [done|].
  destruct (isspace c).
  - destruct b; [done|]. constructor; [apply kept_32 | done].
  - by constructor.
Qed.

(** [lstrip] and [rstrip] leave a string alone exactly when it does not
    start, respectively end, with a blank. *)
Lemma lstrip_fixed s :
  lstrip s = s ↔ match s with [] => True | c :: _ => isspace c = false end.
Proof.
  destruct s as [|c s]; simpl; [done|].
  destruct (isspace c) eqn:E; [|done]. split; [|done].
  intros H. assert (length (lstrip s) ≤ length s)%nat as Hlen.
  { clear. induction s as [|d s IH]; simpl; [done|].
    destruct (isspace d); simpl; lia. }
  rewrite H in Hlen. simpl in Hlen. lia.
Qed.

Lemma lstrip_idemp s : lstrip (lstrip s) = lstrip s.
Proof.
  induction s as [|c s IH]; simpl; [done|].
  destruct (isspace c) eqn:E; [done|]. simpl. by rewrite E.
Qed.

Lemma rstrip_idemp s : rstrip (rstrip s) = rstrip s.
Proof.
  induction s as [|c s IH]; simpl; [done|].
  destruct (rstrip s) as [|d t] eqn:E.
  - destruct (isspace c) eqn:Ec; [done|]. simpl. by rewrite Ec.
  - change (rstrip (c :: d :: t)) with
      (match rstrip (d :: t) with
       | [] => if isspace c then [] else [c]
       | u => c :: u
       end).
    by rewrite IH.
Qed.

Lemma rstrip_head s c t :
  lstrip s = s → rstrip s = c :: t → isspace c = false.
Proof.
  intros Hl%lstrip_fixed. destruct s as [|d s]; simpl in *; [done|].
  destruct (rstrip s).
  - rewrite Hl. congruence.
  - congruence.
Qed.

Lemma strip_fixed s : lstrip (strip s) = strip s ∧ rstrip (strip s) = strip s.
Proof.
  unfold strip. split; [|apply rstrip_idemp].
  apply lstrip_fixed.
  destruct (rstrip (lstrip s)) as [|c t] eqn:E; [done|].
  eapply rstrip_head; [|exact E]. apply lstrip_idemp.
Qed.

Lemma rstrip_cons_fixed c s :
  rstrip (c :: s) = c :: s →
  (s = [] ∧ isspace c = false) ∨ (s ≠ [] ∧ rstrip s = s).
Proof.
  simpl. destruct (rstrip s) as [|d t] eqn:E.
  - destruct (isspace c) eqn:Ec; [done|]. intros [= <-]. by left.
  - intros [= <-]. by right.
Qed.

Lemma collapse_nonempty b s : rstrip s = s → s ≠ [] → collapse b s ≠ [].
Proof.
  revert b. induction s as [|c s IH]; intros b Hr Hne; [done|].
  apply rstrip_cons_fixed in Hr as [[-> Hc]|[Hs Hr]]; simpl.
  - by rewrite Hc.
  - destruct (isspace c); [destruct b|]; try done. by apply IH.
Qed.

Lemma rstrip_collapse b s :
  rstrip s = s → rstrip (collapse b s) = collapse b s.
Proof.
  revert b. induction s as [|c s IH]; intros b Hr; [done|].
  apply rstrip_cons_fixed in Hr as [[-> Hc]|[Hs Hr]].
  - simpl. rewrite Hc. simpl. by rewrite Hc.
  - assert (∀ x b', rstrip (x :: collapse b' s) = x :: collapse b' s) as Hx.
    { intros x b'. simpl. rewrite (IH b' Hr).
      pose proof (collapse_nonempty b' s Hr Hs).
      by destruct (collapse b' s). }
    simpl. destruct (isspace c); [destruct b|]; auto.
Qed.

Lemma lstrip_collapse s :
  lstrip s = s → lstrip (collapse false s) = collapse false s.
Proof.
  intros H%lstrip_fixed. destruct s as [|c s]; [done|].
  simpl in *. rewrite H. simpl. by rewrite H.
Qed.

Lemma collapse_idemp b s : collapse b (collapse b s) = collapse b s.
Proof.
  revert b. induction s as [|c s IH]; intros b; [done|].
  simpl. destruct (isspace c) eqn:Ec.
  - destruct b; [apply IH|]. simpl. by rewrite IH.
  - simpl. rewrite Ec. by rewrite IH.
Qed.

Lemma filter_kept_Forall s :
  Forall (λ c, kept c = true) (filter (λ c, kept c = true) s).
Proof.
  apply Forall_forall. intros c Hc. by apply list_elem_of_filter in Hc as [? _].
Qed.

Lemma merge_normal x : normal (merge x).
Proof.
  unfold _merge_name.
  set (s := filter (λ c, kept c = true) (lower lower_other x)).
  destruct (strip_fixed s) as [Hl Hr].
  split_and!.
  - apply collapse_Forall, rstrip_Forall, lstrip_Forall, filter_kept_Forall.
  - by apply lstrip_collapse.
  - by apply rstrip_collapse.
  - apply collapse_idemp.
Qed.

Lemma merge_of_normal s : normal s → merge s = s.
Proof.
  intros (Hk & Hl & Hr & Hc). unfold _merge_name, lower, strip.
  by rewrite lower_from_kept, filter_kept_id, Hl, Hr, Hc.
Qed.

(** On ASCII text the result depends on the kept characters of the
    lower-cased name only. *)
Lemma merge_ascii x :
  Forall (λ c, (c < 128)%N) x →
  merge x =
  collapse false (strip (filter (λ c, kept c = true) (lower_ascii <$> x))).
Proof. intros H. unfold _merge_name, lower. by rewrite lower_from_ascii. Qed.

Lemma lower_ascii_idemp c : lower_ascii (lower_ascii c) = lower_ascii c.
Proof.
  unfold lower_ascii.
  destruct ((65 <=? c) && (c <=? 90))%N eqn:E; [|by rewrite E].
  destruct ((65 <=? c + 32) && (c + 32 <=? 90))%N eqn:E'; [|done]. blia.
Qed.

Lemma lower_ascii_lt c : (c < 128)%N → (lower_ascii c < 128)%N.
Proof.
  unfold lower_ascii. destruct ((65 <=? c) && (c <=? 90))%N eqn:E; [|done].
  blia.
Qed.

(** *** The normal form as words *)

Lemma kept_blank c : kept c = true → isspace c = (c =? 32)%N.
Proof.
  intros Hc. destruct (c =? 32)%N eqn:E.
  - apply N.eqb_eq in E. by subst.
  - destruct (isspace c) eqn:Es; [|done].
    apply N.eqb_neq in E. by apply kept_isspace in Es.
Qed.

Lemma unwords_cons w l :
  unwords (w :: l) = w ++ match l with [] => [] | l' => 32%N :: unwords l' end.
Proof. destruct l; simpl; [by rewrite app_nil_r|done]. Qed.

Lemma unwords_nil l : Forall (λ w, w ≠ []) l → unwords l = [] → l = [].
Proof.
  destruct l as [|w l]; [done|]. intros [Hw _]%Forall_cons.
  rewrite unwords_cons. by destruct w.
Qed.

Lemma words_nonempty s : Forall (λ w, w ≠ []) (words s).
Proof.
  apply Forall_forall. intros w Hw. by apply list_elem_of_filter in Hw as [? _].
Qed.

Lemma split_blank_cons s : ∃ w ws, split_blank s = w :: ws.
Proof.
  destruct s as [|c s]; simpl; [by eexists _, _|].
  destruct (c =? 32)%N; [by eexists _, _|].
  destruct (split_blank s); by eexists _, _.
Qed.

Lemma words_blank s : words (32%N :: s) = words s.
Proof. unfold words. simpl. by rewrite filter_cons_False by (by intros []). Qed.

Lemma words_lstrip s :
  Forall (λ c, kept c = true) s → words (lstrip s) = words s.
Proof.
  induction 1 as [|c s Hc _ IH]; [done|]. simpl.
  rewrite (kept_blank c Hc). destruct (c =? 32)%N eqn:E; [|done].
  apply N.eqb_eq in E. subst. by rewrite words_blank.
Qed.

Lemma rstrip_cons_plain c s :
  isspace c = false → rstrip (c :: s) = c :: rstrip s.
Proof. intros H. simpl. destruct (rstrip s); [by rewrite H|done]. Qed.

(** Collapsing a text without blanks at its end, read from a blank and
    read from the start of a word. *)
Lemma collapse_words s :
  Forall (λ c, kept c = true) s →
  collapse true (rstrip s) = unwords (words s) ∧
  ∀ w ws, split_blank s = w :: ws →
    collapse false (rstrip s) =
    w ++ match filter (λ w, w ≠ []) ws with
         | [] => []
         | l => 32%N :: unwords l
         end.
Proof.
  induction 1 as [|c s Hc Hs [IH1 IH2]]; [split; [done|]|].
  { intros w ws [= <- <-]. done. }
  destruct (split_blank_cons s) as (w' & ws' & Es).
  specialize (IH2 _ _ Es). pose proof (kept_blank c Hc) as Hb.
  destruct (c =? 32)%N eqn:E.
  - apply N.eqb_eq in E. subst c.
    assert (rstrip (32%N :: s) =
            match rstrip s with [] => [] | u => 32%N :: u end) as Hr.
    { simpl. by destruct (rstrip s). }
    rewrite words_blank. rewrite Hr. split.
    + destruct (rstrip s) as [|d u] eqn:Eu; [done|].
      rewrite <- IH1. done.
    + intros w ws. simpl. intros [= <- <-]. fold (words s).
      destruct (rstrip s) as [|d u] eqn:Eu.
      * simpl in IH1. symmetry in IH1.
        apply unwords_nil in IH1; [|apply words_nonempty]. by rewrite IH1.
      * change (collapse false (32%N :: d :: u))
          with (32%N :: collapse true (d :: u)).
        rewrite IH1. destruct (words s) as [|w1 l1] eqn:Ew; [|done].
        exfalso. simpl in IH1.
        apply (collapse_nonempty true (d :: u)); [|done|done].
        rewrite <- Eu. apply rstrip_idemp.
  - rewrite rstrip_cons_plain by done.
    assert (words (c :: s) = (c :: w') :: filter (λ w, w ≠ []) ws') as Ew.
    { unfold words. simpl. rewrite E, Es. by rewrite filter_cons_True. }
    simpl. rewrite Hb. split.
    + rewrite Ew, unwords_cons, IH2.
      by destruct (filter (λ w, w ≠ []) ws').
    + intros w ws. rewrite E, Es. intros [= <- <-]. by rewrite IH2.
Qed.

Lemma split_blank_head s ws :
  split_blank s = [] :: ws → s = [] ∨ ∃ s', s = 32%N :: s'.
Proof.
  destruct s as [|c s]; [by left|]. simpl.
  destruct (c =? 32)%N eqn:E.
  - apply N.eqb_eq in E. subst. right. by eexists.
  - by destruct (split_blank s).
Qed.

(** [_merge_name] puts one blank between the words of what is left of the
    lower-cased name. *)
Lemma merge_words x :
  merge x = unwords (words (filter (λ c, kept c = true) (lower lower_other x))).
Proof.
  unfold _merge_name, strip.
  set (t := filter (λ c, kept c = true) (lower lower_other x)).
  assert (Forall (λ c, kept c = true) t) as Ht by apply filter_kept_Forall.
  rewrite <- (words_lstrip t Ht).
  assert (Forall (λ c, kept c = true) (lstrip t)) as Hs by by apply lstrip_Forall.
  pose proof (lstrip_idemp t) as Hl. apply lstrip_fixed in Hl.
  destruct (collapse_words _ Hs) as [_ H2].
  destruct (split_blank_cons (lstrip t)) as (w & ws & Es).
  rewrite (H2 _ _ Es). unfold words. rewrite Es.
  destruct w as [|c w].
  - destruct (split_blank_head _ _ Es) as [E | [s' E]].
    + rewrite E in Es. by injection Es as <-.
    + by rewrite E in Hl.
  - rewrite filter_cons_True by done. rewrite unwords_cons.
    by destruct (filter (λ w, w ≠ []) ws).
Qed.

(** *** The shape of the result, said directly *)

Lemma rstrip_last s c :
  rstrip s = s → last s = Some c → isspace c = false.
Proof.
  induction s as [|d s IH]; [done|]. intros Hr Hl.
  apply rstrip_cons_fixed in Hr as [[-> Hd] | [Hs Hr]].
  - by injection Hl as <-.
  - apply IH; [done|]. by destruct s.
Qed.

Lemma collapse_length b s : (length (collapse b s) ≤ length s)%nat.
Proof.
  revert b. induction s as [|c s IH]; intros b; simpl; [done|].
  destruct (isspace c); [destruct b|]; simpl;
    [pose proof (IH true)|pose proof (IH true)|pose proof (IH false)]; lia.
Qed.

Lemma collapse_no_run b u c1 c2 v :
  isspace c1 = true → isspace c2 = true →
  collapse b (u ++ c1 :: c2 :: v) ≠ u ++ c1 :: c2 :: v.
Proof.
  intros H1 H2. revert b. induction u as [|d u IH]; intros b Hc.
  - simpl in Hc. rewrite H1, H2 in Hc.
    pose proof (collapse_length true v) as Hlen.
    apply (f_equal length) in Hc. destruct b; simpl in Hc; lia.
  - simpl in Hc. destruct (isspace d).
    + destruct b.
      * pose proof (collapse_length true (u ++ c1 :: c2 :: v)) as Hlen.
        apply (f_equal length) in Hc. simpl in Hc. lia.
      * injection Hc as _ Hc. by apply IH in Hc.
    + injection Hc as Hc. by apply IH in Hc.
Qed.

Lemma merge_shape x :
  Forall (λ c, kept c = true) (merge x) ∧
  head (merge x) ≠ Some 32%N ∧ last (merge x) ≠ Some 32%N ∧
  ∀ u v, merge x ≠ u ++ 32%N :: 32%N :: v.
Proof.
  destruct (merge_normal x) as (Hk & Hl & Hr & Hc). split_and!.
  - done.
  - apply lstrip_fixed in Hl. destruct (merge x) as [|c s]; [done|].
    simpl. intros [= ->]. done.
  - intros Hlast. by apply (rstrip_last _ _ Hr) in Hlast.
  - intros u v E. rewrite E in Hc. by apply collapse_no_run in Hc.
Qed.

(** *** Any text *)

Lemma kept_ge_128 c : (128 ≤ c)%N → kept c = false.
Proof. unfold kept. intros H. blia. Qed.

Lemma filter_lower_from before x :
  (∀ b c a, (128 ≤ c)%N →
            filter (λ c, kept c = true) (lower_other b c a) = kept_other c) →
  filter (λ c, kept c = true) (lower_from lower_other before x) =
  x ≫= kept_lower.
Proof.
  intros Hlo. revert before.
  induction x as [|c x IH]; intros before; [done|].
  cbn [lower_from]. rewrite filter_app, IH, bind_cons. f_equal.
  unfold kept_lower. destruct (c <? 128)%N eqn:E.
  - destruct (kept (lower_ascii c)) eqn:Ek.
    + by rewrite filter_cons_True.
    + rewrite filter_cons_False; [done|]. by rewrite Ek.
  - apply Hlo. blia.
Qed.

Lemma kept_lower_explicit c :
  kept_lower c =
  if ((65 <=? c) && (c <=? 90))%N then [(c + 32)%N]
  else if ((97 <=? c) && (c <=? 122) || (48 <=? c) && (c <=? 57)
           || (c =? 32))%N then [c]
  else if (c =? 304)%N then [105%N]
  else if (c =? 8490)%N then [107%N] else [].
Proof.
  unfold kept_lower, kept_other, lower_ascii, kept.
  destruct ((65 <=? c) && (c <=? 90))%N eqn:E1.
  - assert ((c <? 128)%N = true) as -> by blia.
    assert (((97 <=? c + 32) && (c + 32 <=? 122)
             || (48 <=? c + 32) && (c + 32 <=? 57) || (c + 32 =? 32))%N
            = true) as -> by blia.
    done.
  - destruct ((97 <=? c) && (c <=? 122) || (48 <=? c) && (c <=? 57)
              || (c =? 32))%N eqn:E2.
    + assert ((c <? 128)%N = true) as -> by blia. done.
    + destruct (c <? 128)%N eqn:E3; [|done].
      assert ((c =? 304)%N = false) as -> by blia.
      assert ((c =? 8490)%N = false) as -> by blia. done.
Qed.

Lemma kept_explicit c :
  kept c = true ↔ (97 ≤ c ≤ 122 ∨ 48 ≤ c ≤ 57 ∨ c = 32)%N.
Proof. unfold kept. blia. Qed.

(** C9. [merge_name] ([_merge_name]) is idempotent on every string.  Its
    result is what the specification describes: the lower-cased name, the
    characters outside [a-z0-9] and the blank taken out, cut into its words
    (the maximal runs without a blank), with one blank between two words.
    So it holds those characters only, neither starts nor ends with a
    blank, and has no two blanks in a row.  It sends "Mike O'Brien" and
    "mike obrien" to the same name.  Two names with the same lower-cased
    text give the same result, and on ASCII names a character that
    lower-cases to something outside [a-z0-9] and the blank is not seen.
    For names of any characters: as [str.lower] leaves, of a character from
    128 on, nothing in [a-z0-9] and the blank but [i] for U+0130 and [k]
    for U+212A, the result is made character by character, and a character
    that leaves nothing is not seen. *)
Theorem C9_merge_name_idempotent_insensitive :
  (∀ x, merge (merge x) = merge x) ∧
  (∀ x, normal (merge x)) ∧
  (∀ x, merge x =
        unwords (words (filter (λ c, kept c = true) (lower lower_other x)))) ∧
  (∀ x, Forall (λ c, (97 ≤ c ≤ 122 ∨ 48 ≤ c ≤ 57 ∨ c = 32)%N) (merge x) ∧
        head (merge x) ≠ Some 32%N ∧ last (merge x) ≠ Some 32%N ∧
        ∀ u v, merge x ≠ u ++ 32%N :: 32%N :: v) ∧
  merge (of_string "Mike O'Brien") = merge (of_string "mike obrien") ∧
  merge (of_string "Mike O'Brien") = of_string "mike obrien" ∧
  merge (of_string "  Mike   O' Brien-SMITH 3rd.  ") =
    of_string "mike o briensmith 3rd" ∧
  merge (of_string " . ") = [] ∧
  (∀ x y, lower lower_other x = lower lower_other y → merge x = merge y) ∧
  (∀ x y, Forall (λ c, (c < 128)%N) x → Forall (λ c, (c < 128)%N) y →
          lower_ascii <$> x = lower_ascii <$> y → merge x = merge y) ∧
  (∀ x1 c x2, Forall (λ c, (c < 128)%N) (x1 ++ c :: x2) →
              kept (lower_ascii c) = false →
              merge (x1 ++ c :: x2) = merge (x1 ++ x2)) ∧
  ((∀ b c a, (128 ≤ c)%N →
             filter (λ c, kept c = true) (lower_other b c a) = kept_other c) →
   (∀ x, merge x = unwords (words (x ≫= kept_lower))) ∧
   (∀ c, kept_lower c =
         if ((65 <=? c) && (c <=? 90))%N then [(c + 32)%N]
         else if ((97 <=? c) && (c <=? 122) || (48 <=? c) && (c <=? 57)
                  || (c =? 32))%N then [c]
         else if (c =? 304)%N then [105%N]
         else if (c =? 8490)%N then [107%N] else []) ∧
   (∀ x y, kept_lower <$> x = kept_lower <$> y → merge x = merge y) ∧
   (∀ x1 c x2, kept_lower c = [] →
               merge (x1 ++ c :: x2) = merge (x1 ++ x2))).
Proof.
  split; [intros x; apply merge_of_normal, merge_normal|].
  split; [apply merge_normal|].
  split; [apply merge_words|].
  split.
  { intros x. destruct (merge_shape x) as (Hk & Hh & Hl & Hr).
    split_and!; try done.
    eapply Forall_impl; [exact Hk|]. intros c. apply kept_explicit. }
  do 4 (split; [reflexivity|]).
  split; [intros x y Hxy; unfold _merge_name; by rewrite Hxy|].
  split; [intros x y Hx Hy Hxy; by rewrite !merge_ascii, Hxy|].
  split.
  { intros x1 c x2 Hall Hc.
    assert (Forall (λ c, (c < 128)%N) (x1 ++ x2)) as Hall'.
    { apply Forall_app in Hall as [H1 H2]. apply Forall_cons in H2 as [_ H2].
      by apply Forall_app. }
    rewrite !merge_ascii by done.
    rewrite !fmap_app, fmap_cons, !filter_app, filter_cons_False; [done|].
    by rewrite Hc. }
  intros Hlo.
  assert (∀ x, merge x = unwords (words (x ≫= kept_lower))) as Hm.
  { intros x. rewrite merge_words. unfold lower.
    by rewrite filter_lower_from. }
  split_and!; [done|apply kept_lower_explicit| |].
  - intros x y Hxy. rewrite !Hm. do 2 f_equal. revert y Hxy.
    induction x as [|c x IH]; intros [|d y] Hxy; try done.
    rewrite !fmap_cons in Hxy. injection Hxy as Hc Hxy.
    rewrite !bind_cons, Hc. f_equal. by apply IH.
  - intros x1 c x2 Hc. rewrite !Hm.
    by rewrite !bind_app, bind_cons, Hc.
Qed.

End MergeNameFacts.

(** C9 at concrete names, for a [str.lower] that maps U+0130 to [i] and a
    dot above, the Kelvin sign U+212A to [k], the capital letters U+00C0
    to U+00DE to their small letters, and leaves every other character
    from 128 on alone. *)
Lemma C9_merge_name_witness :
  let lower_other : MergeName.ustr → N → MergeName.ustr → MergeName.ustr :=
    λ _ c _, if (c =? 304)%N then [105; 775]%N
             else if (c =? 8490)%N then [107]%N
             else if ((192 <=? c) && (c <=? 222))%N then [c + 32]%N
             else [c] in
  let merge := MergeName._merge_name lower_other in
  merge (MergeName.of_string "AL  Smith-JONES jr.") =
    merge (MergeName.of_string "al  smith-jones JR.") ∧
  merge (MergeName.of_string "D.J. Moore") =
    merge (MergeName.of_string "DJ Moore") ∧
  merge (MergeName.of_string "Jos" ++ [201%N] ++ MergeName.of_string "  Ruiz ")
    = MergeName.of_string "jos ruiz" ∧
  merge ([8490%N; 304%N] ++ MergeName.of_string "m") =
    MergeName.of_string "kim" ∧
  merge (MergeName.of_string "Jos" ++ [233%N]) =
    merge (MergeName.of_string "JOS").
Proof.
  intros lower_other merge.
  pose proof (C9_merge_name_idempotent_insensitive lower_other)
    as (_ & _ & _ & _ & _ & _ & _ & _ & _ & Hcase & Hpunct & Hany).
  assert (∀ b c a, (128 ≤ c)%N →
            filter (λ c, MergeName.kept c = true) (lower_other b c a)
            = MergeName.kept_other c) as Hlo.
  { intros b c a Hc. unfold lower_other, MergeName.kept_other.
    destruct (c =? 304)%N; [reflexivity|].
    destruct (c =? 8490)%N; [reflexivity|].
    destruct ((192 <=? c) && (c <=? 222))%N.
    - rewrite filter_cons_False; [done|]. unfold MergeName.kept. blia.
    - rewrite filter_cons_False; [done|]. unfold MergeName.kept. blia. }
  destruct (Hany Hlo) as (Hwords & _ & Hsame & Hdrop).
  assert (∀ s, Forall (λ c, (c < 128)%N) (MergeName.of_string s) ↔
               forallb (λ c, (c <? 128)%N) (MergeName.of_string s) = true)
    as Hascii.
  { intros s. rewrite forallb_forall, Forall_forall.
    split; intros H c Hc.
    - apply N.ltb_lt, H. by apply list_elem_of_In.
    - apply N.ltb_lt, H. by apply list_elem_of_In. }
  split_and!.
  - apply Hcase; [by apply Hascii..|reflexivity].
  - etrans.
    { apply (Hpunct (MergeName.of_string "D") 46%N
               (MergeName.of_string "J. Moore")); [|reflexivity].
      by apply (Hascii "D.J. Moore"). }
    apply (Hpunct (MergeName.of_string "DJ") 46%N
             (MergeName.of_string " Moore")); [|reflexivity].
    by apply (Hascii "DJ. Moore").
  - etrans; [apply Hwords|]. vm_compute. reflexivity.
  - etrans; [apply Hwords|]. vm_compute. reflexivity.
  - etrans.
    { apply (Hdrop (MergeName.of_string "Jos") 233%N []). reflexivity. }
    apply Hsame. vm_compute. reflexivity.
Defined.

(** ** Ranking and truncation *)

Section Ranking.

Context {A : Type} (key : A → Z).

Lemma insert_desc_Permutation x l : insert_desc key x l ≡ₚ x :: l.
Proof.
  induction l as [|y l IH]; simpl; [done|].
  destruct (key y <=? key x); [done|].
  rewrite IH. apply Permutation_swap.
Qed.

Lemma sort_desc_Permutation l : sort_desc key l ≡ₚ l.
Proof.
  induction l as [|x l IH]; simpl; [done|].
  by rewrite insert_desc_Permutation, IH.
Qed.

Lemma sort_desc_length l : length (sort_desc key l) = length l.
Proof. by rewrite sort_desc_Permutation. Qed.

Lemma elem_of_sort_desc x l : x ∈ sort_desc key l ↔ x ∈ l.
Proof. by rewrite sort_desc_Permutation. Qed.

Lemma insert_desc_sorted x l :
  StronglySorted (λ a b, key b ≤ key a) l →
  StronglySorted (λ a b, key b ≤ key a) (insert_desc key x l).
Proof.
  induction 1 as [|y l Hs IH Hy]; simpl.
  - repeat constructor.
  - destruct (key y <=? key x) eqn:E.
    + apply Z.leb_le in E. constructor; [by constructor|].
      constructor; [done|].
      eapply Forall_impl; [exact Hy|]. simpl. lia.
    + apply Z.leb_gt in E. constructor; [done|].
      rewrite insert_desc_Permutation. constructor; [lia | done].
Qed.

Lemma sort_desc_sorted l :
  StronglySorted (λ a b, key b ≤ key a) (sort_desc key l).
Proof.
  induction l as [|x l IH]; simpl; [constructor|].
  by apply insert_desc_sorted.
Qed.

(** The sort is stable: the rows of any one key keep their order. *)
Lemma insert_desc_stable k x l :
  StronglySorted (λ a b, key b ≤ key a) l →
  filter (λ y, key y = k) (insert_desc key x l) =
  filter (λ y, key y = k) (x :: l).
Proof.
  induction 1 as [|y l Hs IH Hy]; simpl; [done|].
  destruct (key y <=? key x) eqn:E; [done|]. apply Z.leb_gt in E.
  rewrite (filter_cons _ y), IH, !(filter_cons _ x), (filter_cons _ y).
  repeat case_decide; try done. lia.
Qed.

Lemma sort_desc_stable k l :
  filter (λ y, key y = k) (sort_desc key l) = filter (λ y, key y = k) l.
Proof.
  induction l as [|x l IH]; simpl; [done|].
  rewrite insert_desc_stable by apply sort_desc_sorted.
  by rewrite !filter_cons, IH.
Qed.

(** In a ranked list a row with a larger key stands before a row with a
    smaller one. *)
Lemma sorted_before a b l :
  StronglySorted (λ a b, key b ≤ key a) l →
  a ∈ l → b ∈ l → key b < key a →
  ∃ l1 l2 l3, l = l1 ++ a :: l2 ++ b :: l3.
Proof.
  induction 1 as [|c l Hs IH Hc]; intros Ha Hb Hlt.
  - by apply elem_of_nil in Ha.
  - apply elem_of_cons in Ha as [->|Ha].
    + apply elem_of_cons in Hb as [->|Hb]; [lia|].
      apply list_elem_of_split in Hb as (l2 & l3 & ->).
      by exists [], l2, l3.
    + apply elem_of_cons in Hb as [->|Hb].
      * rewrite Forall_forall in Hc. specialize (Hc _ Ha). simpl in Hc. lia.
      * destruct (IH Ha Hb Hlt) as (l1 & l2 & l3 & ->).
        by exists (c :: l1), l2, l3.
Qed.

End Ranking.

Lemma StronglySorted_take {A} (R : A → A → Prop) n l :
  StronglySorted R l → StronglySorted R (take n l).
Proof.
  intros H. revert n. induction H as [|x l Hs IH Hx]; intros [|n]; simpl;
    try constructor; [apply IH|].
  apply Forall_forall. intros y Hy. rewrite Forall_forall in Hx. apply Hx.
  rewrite <- (take_drop n l). apply elem_of_app. by left.
Qed.

Lemma elem_of_take_1 {A} (x : A) n l : x ∈ take n l → x ∈ l.
Proof.
  intros H. rewrite <- (take_drop n l). apply elem_of_app. by left.
Qed.

Lemma clamp_bounds limit cap : 1 ≤ cap → 1 ≤ clamp limit cap ≤ cap.
Proof. unfold clamp. lia. Qed.

Lemma truncate_length {A} limit cap (l : list A) :
  length (truncate limit cap l) = Nat.min (Z.to_nat (clamp limit cap)) (length l).
Proof. unfold truncate. apply length_take. Qed.

Lemma truncate_nil {A} limit cap : truncate limit cap (@nil A) = [].
Proof. unfold truncate. apply take_nil. Qed.

Lemma truncate_sorted {A} (key : A → Z) limit cap l :
  StronglySorted (λ a b, key b ≤ key a)
    (truncate limit cap (sort_desc key l)).
Proof. apply StronglySorted_take, sort_desc_sorted. Qed.

Lemma elem_of_truncate_sort {A} (key : A → Z) limit cap l x :
  x ∈ truncate limit cap (sort_desc key l) → x ∈ l.
Proof. intros H%elem_of_take_1. by apply elem_of_sort_desc in H. Qed.

(** ** Loops that collect rows *)

Lemma collectR_Ok {A B} (f : A → result (option B)) l out :
  collectR f l = Ok out →
  ∃ ys, Forall2 (λ x y, f x = Ok y) l ys ∧ out = omap id ys.
Proof.
  revert out. induction l as [|x l IH]; intros out; simpl.
  - intros [= <-]. by exists [].
  - destruct (f x) as [y|] eqn:Ex; [|done]. simpl.
    destruct (collectR f l) as [ys|] eqn:Ey; [|done]. simpl.
    intros [= <-]. destruct (IH _ eq_refl) as (zs & Hzs & ->).
    exists (y :: zs). split; [by constructor|]. by destruct y.
Qed.

Lemma collectR_elem_of {A B} (f : A → result (option B)) l out o :
  collectR f l = Ok out → o ∈ out ↔ ∃ x, x ∈ l ∧ f x = Ok (Some o).
Proof.
  intros (ys & Hys & ->)%collectR_Ok. rewrite list_elem_of_omap. split.
  - intros (y & Hy & Hyo). simpl in Hyo. subst y.
    apply list_elem_of_lookup in Hy as [i Hi].
    destruct (Forall2_lookup_r _ _ _ _ _ Hys Hi) as (x & Hx & Hfx).
    exists x. split; [|done]. apply list_elem_of_lookup. by exists i.
  - intros (x & Hx & Hfx). exists (Some o). split; [|done].
    apply list_elem_of_lookup in Hx as [i Hi].
    destruct (Forall2_lookup_l _ _ _ _ _ Hys Hi) as (y & Hy & Hfy).
    apply list_elem_of_lookup. exists i. congruence.
Qed.

(** A loop whose turns never raise returns. *)
Lemma collectR_total {A B} (f : A → result (option B)) (g : A → option B) l :
  (∀ x, x ∈ l → f x = Ok (g x)) → collectR f l = Ok (omap g l).
Proof.
  induction l as [|x l IH]; intros H; simpl; [done|].
  rewrite H by (apply elem_of_cons; by left). simpl.
  rewrite IH by (intros y Hy; apply H; apply elem_of_cons; by right).
  simpl. by destruct (g x).
Qed.

(** ** Strings *)

Lemma upper_char_idemp c : PyStr.upper_char (PyStr.upper_char c) = PyStr.upper_char c.
Proof. by destruct c as [[] [] [] [] [] [] [] []]. Qed.

Lemma upper_idemp s : PyStr.upper (PyStr.upper s) = PyStr.upper s.
Proof.
  unfold PyStr.upper. induction s as [|c s IH]; [done|].
  cbn [PyStr.map_chars]. by rewrite upper_char_idemp, IH.
Qed.

Lemma String_eqb_true s t : String.eqb s t = true ↔ s = t.
Proof. apply String.eqb_eq. Qed.

Lemma String_eqb_false s t : String.eqb s t = false ↔ s ≠ t.
Proof. apply String.eqb_neq. Qed.

(** ** The season list *)

Section SeasonListFacts.

Variable sb_select :
  string → string → list (string * string) → option string → Z → list row.
Variable photo : string → option string → option string.

Abbreviation entry := (list_entry photo).
Abbreviation players_list := (get_players_list sb_select photo).

(** What a turn of the loop that appends a row has established. *)
Lemma list_entry_Some season pm tm pf tf s o :
  entry season pm tm pf tf s = Ok (Some o) →
  ∃ pid p pos,
    _safe_int (get s "player_id") = Some pid ∧ pm !! pid = Some p ∧
    PyStr.upper pos = pos ∧ (pf ≠ EmptyString → pos = pf) ∧
    (∀ t, tf = Some t → _safe_int (get p "team_id") = Some t) ∧
    pl_player_id o = PyStr.of_int pid ∧
    pl_position o = (if String.eqb pos EmptyString then None else Some pos) ∧
    pl_team o = _safe_int (get p "team_id") ≫= (tm !!.) ∧
    pl_season o = season ∧
    pl_passingAttempts o = Py.or_zero (_safe_int (get s "passing_attempts")) ∧
    pl_passingCompletions o =
      Py.or_zero (_safe_int (get s "passing_completions")) ∧
    pl_rushAttempts o = Py.or_zero (_safe_int (get s "rushing_attempts")) ∧
    pl_receptions o = Py.or_zero (_safe_int (get s "receptions")) ∧
    pl_targets o = Py.or_zero (_safe_int (get s "receiving_targets")) ∧
    pl_receivingYards o = Py.or_zero (_safe_int (get s "receiving_yards")) ∧
    pl_rushingYards o = Py.or_zero (_safe_int (get s "rushing_yards")).
Proof.
  unfold list_entry.
  destruct (_safe_int (get s "player_id")) as [pid|] eqn:Epid; [|done].
  destruct (pm !! pid) as [p|] eqn:Ep; [|done].
  destruct (Py.empty_dict p); [done|].
  destruct (Py.strip (Py.or_ (get p "position_abbreviation") _))
    as [pos0|]; simpl; [|done].
  destruct (negb (String.eqb pf EmptyString)
            && negb (String.eqb (PyStr.upper pos0) pf)) eqn:Epf; [done|].
  destruct (match tf with Some t => _ | None => false end) eqn:Etf; [done|].
  destruct (Py.strip (Py.or_ (get p "first_name") _))
    as [first|]; simpl; [|done].
  destruct (Py.strip (Py.or_ (get p "last_name") _))
    as [last|]; simpl; [|done].
  destruct (average (Py.or_zero (_safe_int (get s "receiving_yards"))) _)
    as [ypc|]; simpl; [|done].
  destruct (average _ _) as [ypr|]; simpl; [|done].
  intros [= <-]. exists pid, p, (PyStr.upper pos0). simpl.
  split_and!; try done.
  - apply upper_idemp.
  - intros Hpf. apply andb_false_iff in Epf as [E|E].
    + apply negb_false_iff, String_eqb_true in E. done.
    + by apply negb_false_iff, String_eqb_true in E.
  - intros t ->. apply negb_false_iff in Etf. by apply bool_decide_eq_true in Etf.
Qed.

(** The key by which the list is ranked, read off the position of a row
    the loop produced. *)
Lemma sort_key_of_position o pos :
  PyStr.upper pos = pos →
  pl_position o = (if String.eqb pos EmptyString then None else Some pos) →
  ((pl_position o = Some "WR" ∨ pl_position o = Some "TE") →
   sort_key o = pl_receivingYards o) ∧
  (pl_position o ≠ Some "WR" → pl_position o ≠ Some "TE" →
   sort_key o = pl_rushingYards o).
Proof.
  intros Hup Hpos. unfold sort_key. rewrite Hpos.
  destruct (String.eqb pos EmptyString) eqn:E.
  - split; [intros [?|?]; done|]. done.
  - simpl. rewrite Hup. split.
    + intros [[= ->]|[= ->]]; reflexivity.
    + intros H1 H2.
      destruct (String.eqb pos "WR") eqn:E1.
      { apply String_eqb_true in E1. congruence. }
      destruct (String.eqb pos "TE") eqn:E2.
      { apply String_eqb_true in E2. congruence. }
      done.
Qed.

Lemma list_rows_Ok season position team stats out :
  list_rows sb_select photo season position team stats = Ok out →
  ∀ o, o ∈ out →
    ∃ s pm tm pf tf, s ∈ stats ∧ entry season pm tm pf tf s = Ok (Some o).
Proof.
  unfold list_rows. destruct (player_team_ids _) as [ids|]; [|done].
  cbn [mbind result_bind]. intros El o Ho.
  apply (collectR_elem_of _ _ _ o) in El. apply El in Ho as (s & Hs & He).
  eauto 10.
Qed.

(** The list is a truncation of ranked rows that do not depend on the
    limit; when the call returns, the rows come from the loop. *)
Lemma get_players_list_ranked season position team :
  ∃ ranked : result (list player_row),
    (∀ limit, players_list season position team limit =
              truncate limit 300 <$> ranked) ∧
    (∀ rows, ranked = Ok rows →
       StronglySorted (λ a b, sort_key b ≤ sort_key a) rows ∧
       ∀ o, o ∈ rows →
         ∃ s0 s pm tm pf tf,
           season = Some s0 ∧
           s ∈ season_stats_rows sb_select s0 ∧
           entry s0 pm tm pf tf s = Ok (Some o)).
Proof.
  assert (∃ ranked : result (list player_row),
            (∀ limit, Ok [] = truncate limit 300 <$> ranked) ∧
            (∀ rows, ranked = Ok rows →
               StronglySorted (λ a b, sort_key b ≤ sort_key a) rows ∧
               ∀ o, o ∈ rows →
                 ∃ s0 s pm tm pf tf,
                   season = Some s0 ∧
                   s ∈ season_stats_rows sb_select s0 ∧
                   entry s0 pm tm pf tf s = Ok (Some o))) as Hempty.
  { exists (Ok []). split.
    - intros limit. simpl. by rewrite truncate_nil.
    - intros rows [= <-]. split; [constructor|].
      intros o Ho. by apply elem_of_nil in Ho. }
  destruct season as [s0|]; simpl; [|done].
  destruct (season_stats_rows sb_select s0) as [|r rs] eqn:Es; [done|].
  destruct (omap _ (r :: rs)) eqn:Eo; [done|]. clear Hempty Eo.
  rewrite <- Es. clear Es.
  exists (sort_desc sort_key <$>
            list_rows sb_select photo s0 position team
              (season_stats_rows sb_select s0)).
  split.
  - intros limit. by destruct (list_rows _ _ _ _ _ _).
  - intros rows Hrows.
    destruct (list_rows _ _ _ _ _ _) as [out|] eqn:El; [|done].
    injection Hrows as <-. split; [apply sort_desc_sorted|].
    intros o Ho%elem_of_sort_desc.
    destruct (list_rows_Ok _ _ _ _ _ El o Ho) as (s & pm & tm & pf & tf & ? & ?).
    eauto 10.
Qed.

Lemma get_players_list_Ok season position team limit out :
  players_list season position team limit = Ok out →
  StronglySorted (λ a b, sort_key b ≤ sort_key a) out ∧
  ∀ o, o ∈ out →
    ∃ s0 s pm tm pf tf,
      season = Some s0 ∧ s ∈ season_stats_rows sb_select s0 ∧
      entry s0 pm tm pf tf s = Ok (Some o).
Proof.
  destruct (get_players_list_ranked season position team)
    as (ranked & Hr & Hrows).
  rewrite Hr. destruct ranked as [rows|]; [|done]. simpl. intros [= <-].
  destruct (Hrows _ eq_refl) as [Hs Ho]. split.
  - by apply StronglySorted_take.
  - intros o Hin. apply Ho. by apply elem_of_take_1 in Hin.
Qed.

End SeasonListFacts.

(** [_has_any_stats] holds exactly when one of the five counters coerces
    to a positive integer. *)
Lemma _has_any_stats_spec r :
  _has_any_stats r = true ↔
  ∃ k, k ∈ stat_keys ∧ 0 < Py.or_zero (_safe_int (get r k)).
Proof.
  unfold _has_any_stats. rewrite existsb_exists. split.
  - intros (k & Hk%list_elem_of_In & H). exists k. split; [done|].
    destruct (_safe_int (get r k)) as [v|]; [|done]. simpl. blia.
  - intros (k & Hk%list_elem_of_In & H). exists k. split; [done|].
    destruct (_safe_int (get r k)) as [v|]; simpl in *; [blia|lia].
Qed.

Lemma elem_of_season_stats_rows sb_select season s :
  s ∈ season_stats_rows sb_select season →
  _has_any_stats s = true ∧
  s ∈ sb_select "nfl_player_season_stats" season_stats_columns
        [("season", "eq." +:+ PyStr.of_int season); ("postseason", "eq.false")]
        None 8000.
Proof. unfold season_stats_rows. by rewrite list_elem_of_filter. Qed.

(** The rows of a summary come from rows of the season list. *)
Lemma receiving_season_Ok sb_select photo season team limit out :
  receiving_season sb_select photo season team limit = Ok out →
  ∃ rows,
    get_players_list sb_select photo (Some season) None team 8000 = Ok rows ∧
    StronglySorted (λ a b, rs_targets b ≤ rs_targets a) out ∧
    ∀ o, o ∈ out →
      ∃ r, r ∈ rows ∧
        receiving_season_entry photo season (by_team_of pl_targets rows) r
        = Ok (Some o).
Proof.
  unfold receiving_season.
  destruct (get_players_list _ _ _ _ _ _) as [rows|]; [|done].
  cbn [mbind result_bind].
  destruct (collectR _ rows) as [ys|] eqn:Ec; [|done].
  cbn [mbind result_bind]. intros [= <-]. exists rows.
  split_and!; [done|apply truncate_sorted|].
  intros o Ho%elem_of_truncate_sort.
  by apply (collectR_elem_of _ _ _ o Ec).
Qed.

Lemma rushing_season_Ok sb_select photo season team limit out :
  rushing_season sb_select photo season team limit = Ok out →
  ∃ rows,
    get_players_list sb_select photo (Some season) None team 8000 = Ok rows ∧
    StronglySorted (λ a b, us_rush_yards b ≤ us_rush_yards a) out ∧
    ∀ o, o ∈ out →
      ∃ r, r ∈ rows ∧
        rushing_season_entry photo season (by_team_of pl_rushAttempts rows) r
        = Ok (Some o).
Proof.
  unfold rushing_season.
  destruct (get_players_list _ _ _ _ _ _) as [rows|]; [|done].
  cbn [mbind result_bind].
  destruct (collectR _ rows) as [ys|] eqn:Ec; [|done].
  cbn [mbind result_bind]. intros [= <-]. exists rows.
  split_and!; [done|apply truncate_sorted|].
  intros o Ho%elem_of_truncate_sort.
  by apply (collectR_elem_of _ _ _ o Ec).
Qed.

Lemma receiving_season_entry_Some photo season by_team r o :
  receiving_season_entry photo season by_team r = Ok (Some o) →
  (row_position r = "WR" ∨ row_position r = "TE" ∨ row_position r = "RB") ∧
  share_of (pl_targets r) by_team (team_key r)
    = Ok (rs_team_target_share o) ∧
  rs_team o = pl_team r ∧ rs_player_id o = pl_player_id r ∧
  rs_player_name o = pl_player_name r ∧ rs_position o = pl_position r ∧
  rs_targets o = pl_targets r ∧ rs_receptions o = pl_receptions r ∧
  rs_rec_yards o = pl_receivingYards r ∧ rs_season o = season.
Proof.
  unfold receiving_season_entry.
  destruct (negb _) eqn:E; [done|].
  destruct (share_of _ _ _) as [sh|]; [|done]. cbn [mbind result_bind].
  intros [= <-]. simpl. split_and!; try done.
  apply negb_false_iff in E. rewrite !orb_true_iff, !String_eqb_true in E.
  tauto.
Qed.

Lemma rushing_season_entry_Some photo season by_team r o :
  rushing_season_entry photo season by_team r = Ok (Some o) →
  (row_position r = "RB" ∨ row_position r = "QB" ∨ row_position r = "WR"
   ∨ row_position r = "TE") ∧
  share_of (pl_rushAttempts r) by_team (team_key r)
    = Ok (us_team_rush_share o) ∧
  us_team o = pl_team r ∧ us_player_id o = pl_player_id r ∧
  us_player_name o = pl_player_name r ∧ us_position o = pl_position r ∧
  us_rush_attempts o = pl_rushAttempts r ∧
  us_rush_yards o = pl_rushingYards r ∧ us_season o = season.
Proof.
  unfold rushing_season_entry.
  destruct (negb _) eqn:E; [done|].
  destruct (share_of _ _ _) as [sh|]; [|done]. cbn [mbind result_bind].
  intros [= <-]. simpl. split_and!; try done.
  apply negb_false_iff in E. rewrite !orb_true_iff, !String_eqb_true in E.
  tauto.
Qed.

(** A row of the season list has a positive counter. *)
Lemma players_list_row_positive sb_select photo season position team limit
    out o :
  get_players_list sb_select photo season position team limit = Ok out →
  o ∈ out →
  ∃ s0 s pid,
    season = Some s0 ∧
    s ∈ sb_select "nfl_player_season_stats" season_stats_columns
          [("season", "eq." +:+ PyStr.of_int s0); ("postseason", "eq.false")]
          None 8000 ∧
    _has_any_stats s = true ∧
    _safe_int (get s "player_id") = Some pid ∧
    pl_player_id o = PyStr.of_int pid ∧
    (0 < pl_passingAttempts o ∨ 0 < pl_passingCompletions o ∨
     0 < pl_rushAttempts o ∨ 0 < pl_receptions o ∨ 0 < pl_targets o).
Proof.
  intros Hout Ho.
  destruct (get_players_list_Ok _ _ _ _ _ _ _ Hout) as [_ Hrows].
  destruct (Hrows o Ho) as (s0 & s & pm & tm & pf & tf & -> & Hs & He).
  apply elem_of_season_stats_rows in Hs as [Hst Hs].
  apply list_entry_Some in He
    as (pid & p & pos & Hpid & _ & _ & _ & _ & Hid & _ & _ & _
        & Hpa & Hpc & Hra & Hre & Hta & _).
  exists s0, s, pid. split_and!; try done.
  apply _has_any_stats_spec in Hst as (k & Hk & Hpos).
  rewrite Hpa, Hpc, Hra, Hre, Hta. unfold stat_keys in Hk.
  repeat (apply elem_of_cons in Hk as [->|Hk]; [tauto|]).
  by apply elem_of_nil in Hk.
Qed.

(** ** The season list: ranking and the stats filter *)

(** C6. The season list is sorted descending by the per-row key, which is
    the receiving yards of a row whose position is WR or TE and the rushing
    yards of any other row; so when a WR row and an RB row are both in the
    list and the receiving yards of the first exceed the rushing yards of
    the second, the WR row stands before the RB row. *)
Theorem C6_season_list_sorted_by_position_key
    sb_select photo season position team limit out :
  get_players_list sb_select photo season position team limit = Ok out →
  StronglySorted (λ a b, sort_key b ≤ sort_key a) out ∧
  (∀ r, r ∈ out →
     ((pl_position r = Some "WR" ∨ pl_position r = Some "TE") →
      sort_key r = pl_receivingYards r) ∧
     (pl_position r ≠ Some "WR" → pl_position r ≠ Some "TE" →
      sort_key r = pl_rushingYards r)) ∧
  (∀ a b, a ∈ out → b ∈ out →
     pl_position a = Some "WR" → pl_position b = Some "RB" →
     pl_rushingYards b < pl_receivingYards a →
     ∃ l1 l2 l3, out = l1 ++ a :: l2 ++ b :: l3).
Proof.
  intros Hout.
  destruct (get_players_list_Ok _ _ _ _ _ _ _ Hout) as [Hsorted Hrows].
  assert (∀ r, r ∈ out →
     ((pl_position r = Some "WR" ∨ pl_position r = Some "TE") →
      sort_key r = pl_receivingYards r) ∧
     (pl_position r ≠ Some "WR" → pl_position r ≠ Some "TE" →
      sort_key r = pl_rushingYards r)) as Hkey.
  { intros r Hr.
    destruct (Hrows r Hr) as (s0 & s & pm & tm & pf & tf & _ & _ & He).
    apply list_entry_Some in He
      as (pid & p & pos & _ & _ & Hup & _ & _ & _ & Hpos & _).
    by apply (sort_key_of_position r pos). }
  split_and!; [done..|].
  intros a b Ha Hb Hpa Hpb Hlt.
  apply (sorted_before sort_key); try done.
  destruct (Hkey a Ha) as [Hka _]. destruct (Hkey b Hb) as [_ Hkb].
  rewrite Hka by auto. rewrite Hkb by congruence. done.
Qed.

(** C6 on the sample season: the receiver with 120 receiving yards is
    returned before the rusher with 80 rushing yards. *)
Lemma C6_season_list_sorted_witness :
  ∃ out a b,
    get_players_list (Mem.select Sample.season_db) Mem.no_photo
      (Some 2023) None None 50 = Ok out ∧
    pl_player_name a = "Alex Able" ∧ pl_receivingYards a = 120 ∧
    pl_player_name b = "Ben Baker" ∧ pl_rushingYards b = 80 ∧
    ∃ l1 l2 l3, out = l1 ++ a :: l2 ++ b :: l3.
Proof.
  eexists _, _, _. split; [vm_compute; reflexivity|].
  split_and!; [shelve..|].
  eapply (C6_season_list_sorted_by_position_key
            (Mem.select Sample.season_db) Mem.no_photo (Some 2023) None None 50).
  - vm_compute. reflexivity.
  - apply elem_of_cons. left. reflexivity.
  - apply elem_of_cons. right. apply elem_of_cons. left. reflexivity.
  - reflexivity.
  - reflexivity.
  - vm_compute. reflexivity.
  Unshelve. all: reflexivity.
Defined.

(** C4. Every row of the season list comes from a fetched stat row that
    passes the has-stats test, and so has at least one of passing attempts,
    passing completions, rushing attempts, receptions and targets strictly
    positive; the same holds for the rows of the season summaries, which
    are rows of the list.  A stat row whose five counters all coerce to 0
    fails the test and is not among the rows the list is built from. *)
Theorem C4_season_list_only_rows_with_stats sb_select photo :
  (∀ season position team limit out o,
     get_players_list sb_select photo season position team limit = Ok out →
     o ∈ out →
     ∃ s0 s pid,
       season = Some s0 ∧
       s ∈ sb_select "nfl_player_season_stats" season_stats_columns
             [("season", "eq." +:+ PyStr.of_int s0);
              ("postseason", "eq.false")] None 8000 ∧
       _has_any_stats s = true ∧
       _safe_int (get s "player_id") = Some pid ∧
       pl_player_id o = PyStr.of_int pid ∧
       (0 < pl_passingAttempts o ∨ 0 < pl_passingCompletions o ∨
        0 < pl_rushAttempts o ∨ 0 < pl_receptions o ∨ 0 < pl_targets o)) ∧
  (∀ season team limit out o,
     receiving_season sb_select photo season team limit = Ok out →
     o ∈ out →
     ∃ rows r,
       get_players_list sb_select photo (Some season) None team 8000
         = Ok rows ∧
       r ∈ rows ∧ rs_player_id o = pl_player_id r ∧
       (0 < pl_passingAttempts r ∨ 0 < pl_passingCompletions r ∨
        0 < pl_rushAttempts r ∨ 0 < pl_receptions r ∨ 0 < pl_targets r)) ∧
  (∀ season team limit out o,
     rushing_season sb_select photo season team limit = Ok out →
     o ∈ out →
     ∃ rows r,
       get_players_list sb_select photo (Some season) None team 8000
         = Ok rows ∧
       r ∈ rows ∧ us_player_id o = pl_player_id r ∧
       (0 < pl_passingAttempts r ∨ 0 < pl_passingCompletions r ∨
        0 < pl_rushAttempts r ∨ 0 < pl_receptions r ∨ 0 < pl_targets r)) ∧
  (∀ s,
     (∀ k, k ∈ stat_keys → Py.or_zero (_safe_int (get s k)) = 0) →
     _has_any_stats s = false ∧
     ∀ season, s ∉ season_stats_rows sb_select season).
Proof.
  split_and!.
  - intros. by eapply players_list_row_positive.
  - intros season team limit out o Hout Ho.
    apply receiving_season_Ok in Hout as (rows & Hrows & _ & Hent).
    destruct (Hent o Ho) as (r & Hr & He).
    apply receiving_season_entry_Some in He as (_ & _ & _ & Hid & _).
    exists rows, r. split_and!; try done.
    destruct (players_list_row_positive _ _ _ _ _ _ _ _ Hrows Hr)
      as (? & ? & ? & _ & _ & _ & _ & _ & Hpos).
    done.
  - intros season team limit out o Hout Ho.
    apply rushing_season_Ok in Hout as (rows & Hrows & _ & Hent).
    destruct (Hent o Ho) as (r & Hr & He).
    apply rushing_season_entry_Some in He as (_ & _ & _ & Hid & _).
    exists rows, r. split_and!; try done.
    destruct (players_list_row_positive _ _ _ _ _ _ _ _ Hrows Hr)
      as (? & ? & ? & _ & _ & _ & _ & _ & Hpos).
    done.
  - intros s Hzero.
    assert (_has_any_stats s = false) as Hf.
    { apply not_true_is_false. intros Ht.
      apply _has_any_stats_spec in Ht as (k & Hk & Hpos).
      rewrite (Hzero k Hk) in Hpos. lia. }
    split; [done|]. intros season [Ht _]%elem_of_season_stats_rows.
    congruence.
Qed.

(** C4 on the sample season: the defender whose five counters are 0 is left
    out, the other two players are listed. *)
Lemma C4_season_list_witness :
  ∃ out,
    get_players_list (Mem.select Sample.season_db) Mem.no_photo
      (Some 2023) None None 50 = Ok out ∧
    pl_player_id <$> out = ["1"; "2"] ∧
    (Sample.idle_stat ∉ season_stats_rows (Mem.select Sample.season_db) 2023) ∧
    Forall (λ o, 0 < pl_passingAttempts o ∨ 0 < pl_passingCompletions o ∨
                 0 < pl_rushAttempts o ∨ 0 < pl_receptions o ∨
                 0 < pl_targets o) out.
Proof.
  pose proof (C4_season_list_only_rows_with_stats
                (Mem.select Sample.season_db) Mem.no_photo)
    as (Hlist & _ & _ & Hzero).
  eexists. split; [vm_compute; reflexivity|].
  split_and!.
  - reflexivity.
  - apply Hzero. intros k Hk. unfold stat_keys in Hk.
    repeat (apply elem_of_cons in Hk as [->|Hk]; [reflexivity|]).
    by apply elem_of_nil in Hk.
  - apply Forall_forall. intros o Ho.
    pose proof (Hlist (Some 2023) None None 50 _ o
                  ltac:(vm_compute; reflexivity) Ho)
      as (s0 & s & pid & _ & _ & _ & _ & _ & Hpos).
    exact Hpos.
Defined.

(** ** The game log *)

(** What a row of the game log says about the stat row it was made from. *)
Lemma log_entry_Some season game_map tmap r o :
  log_entry season game_map tmap r = Some o →
  ∃ gid,
    _safe_int (get r "game_id") = Some gid ∧
    lg_game_id o = PyStr.of_int gid ∧
    lg_team o = _safe_int (get r "team_id") ≫= (tmap !!.) ∧
    let g := default [] (game_map !! gid) in
    let ht := _safe_int (get g "home_team_id") in
    let vt := _safe_int (get g "visitor_team_id") in
    lg_home_team o = ht ≫= (tmap !!.) ∧
    lg_away_team o = vt ≫= (tmap !!.) ∧
    (∀ t h v,
       _safe_int (get r "team_id") = Some t → ht = Some h → vt = Some v →
       (t = h → lg_location o = "home" ∧ lg_opponent o = tmap !! v) ∧
       (t ≠ h → lg_location o = "away" ∧ lg_opponent o = tmap !! h)) ∧
    (_safe_int (get r "team_id") = None ∨ ht = None ∨ vt = None →
     lg_location o = "home" ∧ lg_opponent o = None).
Proof.
  unfold log_entry.
  destruct (_safe_int (get r "game_id")) as [gid|]; [|done].
  intros H. exists gid. revert H. cbv zeta.
  destruct (location_opponent _ _ _ _ _) as [location opp] eqn:El.
  intros [= <-]. simpl. split_and!; try done.
  - intros t h v Ht Hh Hv. rewrite Ht, Hh, Hv in El. simpl in El.
    destruct (t =? h) eqn:E; injection El as <- <-.
    + apply Z.eqb_eq in E. split; [done|]. intros ?. done.
    + apply Z.eqb_neq in E. split; [|done]. intros ?. done.
  - intros Hnone. unfold location_opponent in El.
    destruct (_safe_int (get r "team_id")) as [t|];
      destruct (_safe_int (get (default [] (game_map !! gid)) "home_team_id"))
        as [h|];
      destruct (_safe_int
                  (get (default [] (game_map !! gid)) "visitor_team_id"))
        as [v|];
      try (injection El as <- <-; done).
    by destruct Hnone as [?|[?|?]].
Qed.

(** A stat row yields a row of the log exactly when its game id is an
    integer. *)
Lemma log_entry_None season game_map tmap r :
  log_entry season game_map tmap r = None ↔
  _safe_int (get r "game_id") = None.
Proof.
  unfold log_entry. destruct (_safe_int (get r "game_id")); [|done].
  by destruct (location_opponent _ _ _ _ _).
Qed.

(** No game record, or no integer in it: both team ids of the game are
    missing. *)
Lemma get_empty k : get [] k = VNone.
Proof. reflexivity. Qed.

Lemma _safe_int_VNone : _safe_int VNone = None.
Proof. reflexivity. Qed.

(** The log the function returns is the list of rows made from the stat
    rows, with the lookups built from them. *)
Lemma get_player_game_logs_Ok sb_select player_id season pp out :
  get_player_game_logs sb_select player_id season pp = Ok out →
  out = [] ∨
  ∃ pid game_ids,
    _safe_int (VStr player_id) = Some pid ∧
    game_ids_of (game_log_stats sb_select pid season pp) = Ok game_ids ∧
    out =
      omap (log_entry season
              (game_map_of (games_of sb_select game_ids))
              (_team_map sb_select
                 (log_team_ids (games_of sb_select game_ids)
                    (game_log_stats sb_select pid season pp))))
        (game_log_stats sb_select pid season pp).
Proof.
  unfold get_player_game_logs.
  destruct (_safe_int (VStr player_id)) as [pid|]; [|intros [= <-]; by left].
  destruct (game_log_stats sb_select pid season pp) as [|r rs] eqn:Er;
    [intros [= <-]; by left|].
  rewrite <- Er.
  destruct (game_ids_of _) as [ids|] eqn:Ei; [|done].
  cbn [mbind result_bind]. intros [= <-]. right. by exists pid, ids.
Qed.

(** The conversion of the game ids goes through when every game id that is
    present converts. *)
Lemma mapR_Ok {A B} (f : A → result B) (g : A → B) l :
  (∀ x, x ∈ l → f x = Ok (g x)) → mapR f l = Ok (g <$> l).
Proof.
  induction l as [|x l IH]; intros H; simpl; [done|].
  rewrite H by (apply elem_of_cons; by left). cbn [mbind result_bind].
  rewrite IH by (intros y Hy; apply H; apply elem_of_cons; by right).
  done.
Qed.

Lemma mapR_Raise {A B} (f : A → result B) l x e :
  x ∈ l → f x = Raise e → ∃ e', mapR f l = Raise e'.
Proof.
  induction l as [|y l IH]; intros Hx Hf; [by apply elem_of_nil in Hx|].
  simpl. apply elem_of_cons in Hx as [->|Hx].
  - rewrite Hf. by eexists.
  - destruct (f y); [|by eexists]. cbn [mbind result_bind].
    destruct (IH Hx Hf) as [e' ->]. by eexists.
Qed.

Lemma item_get_present r k :
  Py.present (get r k) = true → Py.item r k = Ok (get r k).
Proof.
  unfold get, Py.item. destruct (row_lookup k r); [done|]. simpl. done.
Qed.

Lemma game_ids_of_Ok rows :
  (∀ r, r ∈ rows → Py.present (get r "game_id") = true →
        ∃ i, Py.int_ (get r "game_id") = Ok i) →
  ∃ ids, game_ids_of rows = Ok ids.
Proof.
  intros H. unfold game_ids_of.
  rewrite (mapR_Ok _ (λ r, Py.or_zero (_safe_int (get r "game_id")))).
  { by eexists. }
  intros r [Hp Hr]%list_elem_of_filter.
  rewrite item_get_present by done. cbn [mbind result_bind].
  destruct (H r Hr Hp) as [i Hi]. rewrite Hi.
  apply _safe_int_Some in Hi. by rewrite Hi.
Qed.

Lemma game_ids_of_Raise rows r e :
  r ∈ rows → Py.present (get r "game_id") = true →
  Py.int_ (get r "game_id") = Raise e →
  ∃ e', game_ids_of rows = Raise e'.
Proof.
  intros Hr Hp He. unfold game_ids_of.
  destruct (mapR_Raise (λ r, v ← Py.item r "game_id"; Py.int_ v)
              (filter (λ r, Py.present (get r "game_id") = true) rows) r e)
    as [e' ->].
  - by apply list_elem_of_filter.
  - rewrite item_get_present by done. done.
  - by eexists.
Qed.

(** The log, when the player id is an integer and the game ids convert. *)
Lemma get_player_game_logs_eq sb_select player_id season pp pid game_ids :
  _safe_int (VStr player_id) = Some pid →
  game_ids_of (game_log_stats sb_select pid season pp) = Ok game_ids →
  get_player_game_logs sb_select player_id season pp =
  Ok (omap (log_entry season
              (game_map_of (games_of sb_select game_ids))
              (_team_map sb_select
                 (log_team_ids (games_of sb_select game_ids)
                    (game_log_stats sb_select pid season pp))))
        (game_log_stats sb_select pid season pp)).
Proof.
  intros Hpid Hids. unfold get_player_game_logs. rewrite Hpid.
  destruct (game_log_stats sb_select pid season pp) as [|r rs] eqn:Er; [done|].
  by rewrite Hids.
Qed.

(** C7. In the game log, a stat row with an integer game id whose game is
    in the game lookup, and for which the team id of the row and the home
    and visitor team ids of the game are integers, gives a row of the log;
    when the team id of the row equals the home team id the location is
    "home" and the opponent is what the team lookup gives for the visitor,
    otherwise the location is "away" and the opponent is what the team
    lookup gives for the home team. *)
Theorem C7_game_log_location_and_opponent
    sb_select player_id season pp out pid game_ids :
  get_player_game_logs sb_select player_id season pp = Ok out →
  _safe_int (VStr player_id) = Some pid →
  let rows := game_log_stats sb_select pid season pp in
  game_ids_of rows = Ok game_ids →
  let game_map := game_map_of (games_of sb_select game_ids) in
  let tmap :=
    _team_map sb_select (log_team_ids (games_of sb_select game_ids) rows) in
  out = omap (log_entry season game_map tmap) rows ∧
  ∀ r gid g t h v,
    r ∈ rows →
    _safe_int (get r "game_id") = Some gid →
    game_map !! gid = Some g →
    _safe_int (get r "team_id") = Some t →
    _safe_int (get g "home_team_id") = Some h →
    _safe_int (get g "visitor_team_id") = Some v →
    ∃ o, log_entry season game_map tmap r = Some o ∧ o ∈ out ∧
      lg_game_id o = PyStr.of_int gid ∧
      lg_home_team o = tmap !! h ∧ lg_away_team o = tmap !! v ∧
      (t = h → lg_location o = "home" ∧ lg_opponent o = tmap !! v) ∧
      (t ≠ h → lg_location o = "away" ∧ lg_opponent o = tmap !! h).
Proof.
  intros Hout Hpid rows Hids game_map tmap.
  rewrite (get_player_game_logs_eq _ _ _ _ _ _ Hpid Hids) in Hout.
  injection Hout as <-. split; [done|].
  intros r gid g t h v Hr Hgid Hg Ht Hh Hv.
  destruct (log_entry season game_map tmap r) as [o|] eqn:Eo.
  2:{ apply log_entry_None in Eo. congruence. }
  exists o. split; [done|]. split.
  { apply list_elem_of_omap. by exists r. }
  apply log_entry_Some in Eo as (gid' & Hgid' & Hid & _ & Hfacts).
  assert (gid' = gid) as -> by congruence.
  cbv zeta in Hfacts. rewrite Hg in Hfacts. simpl in Hfacts.
  destruct Hfacts as (Hhome & Haway & Hres & _).
  rewrite Hh in Hhome. rewrite Hv in Haway.
  destruct (Hres t h v Ht Hh Hv) as [H1 H2].
  split_and!; done.
Qed.

(** C7 on the sample log of player 7: at home against SF in week 1, away
    at DEN in week 2. *)
Lemma C7_game_log_witness :
  ∃ out o1 o2,
    get_player_game_logs (Mem.select Sample.log_db) "7" 2023 false = Ok out ∧
    o1 ∈ out ∧ lg_week o1 = 1 ∧ lg_location o1 = "home" ∧
    lg_opponent o1 = Some "SF" ∧
    o2 ∈ out ∧ lg_week o2 = 2 ∧ lg_location o2 = "away" ∧
    lg_opponent o2 = Some "DEN".
Proof.
  assert (get_player_game_logs (Mem.select Sample.log_db) "7" 2023 false
          = Ok (default [] (match get_player_game_logs
                                    (Mem.select Sample.log_db) "7" 2023 false
                            with Ok l => Some l | Raise _ => None end)))
    as E by (vm_compute; reflexivity).
  destruct (C7_game_log_location_and_opponent
              (Mem.select Sample.log_db) "7" 2023 false _ 7 [100; 101; 102; 103]
              E eq_refl ltac:(vm_compute; reflexivity)) as [_ Hrows].
  destruct (Hrows
              (Mem.project game_stats_columns
                 (Sample.game_stat (VInt 7) (VInt 100) (VInt 1) 2023 1
                    [("rushing_yards", 50)]))
              100 (Mem.project "id,home_team_id,visitor_team_id,postseason"
                     (Sample.game 100 (VInt 1) (VInt 2))) 1 1 2)
    as (o1 & E1 & Hin1 & _ & _ & _ & Hhome1 & _);
    [vm_compute; apply elem_of_cons; left; reflexivity
    |vm_compute; reflexivity..|].
  destruct (Hrows
              (Mem.project game_stats_columns
                 (Sample.game_stat (VInt 7) (VInt 101) (VInt 1) 2023 2
                    [("rushing_yards", 60)]))
              101 (Mem.project "id,home_team_id,visitor_team_id,postseason"
                     (Sample.game 101 (VInt 3) (VInt 1))) 1 3 1)
    as (o2 & E2 & Hin2 & _ & _ & _ & _ & Haway2);
    [vm_compute; apply elem_of_cons; right; apply elem_of_cons; left;
     reflexivity
    |vm_compute; reflexivity..|].
  destruct (Hhome1 eq_refl) as [Hl1 Ho1].
  destruct (Haway2 ltac:(lia)) as [Hl2 Ho2].
  eexists. exists o1, o2. split; [exact E|].
  vm_compute in E1. injection E1 as <-.
  vm_compute in E2. injection E2 as <-.
  split_and!; try done; try reflexivity.
Defined.

(** The conversion of the game ids is outside any [try]: one stat row whose
    game id is present but does not convert makes the whole call raise. *)
Lemma game_log_unguarded_game_id sb_select player_id season pp pid r e :
  _safe_int (VStr player_id) = Some pid →
  r ∈ game_log_stats sb_select pid season pp →
  Py.present (get r "game_id") = true →
  Py.int_ (get r "game_id") = Raise e →
  ∃ e', get_player_game_logs sb_select player_id season pp = Raise e'.
Proof.
  intros Hpid Hr Hp He. unfold get_player_game_logs. rewrite Hpid.
  destruct (game_ids_of_Raise _ r e Hr Hp He) as [e' He'].
  destruct (game_log_stats sb_select pid season pp) as [|r0 rs] eqn:Er.
  { by apply elem_of_nil in Hr. }
  rewrite He'. by exists e'.
Qed.

(** When every game id that is present converts, the call returns, every
    stat row with an integer game id is kept, with location "home" and no
    opponent where the game, one of its team ids or the team id of the row
    is missing, and exactly the rows without an integer game id are left
    out. *)
Lemma game_log_rows_retained sb_select player_id season pp pid :
  _safe_int (VStr player_id) = Some pid →
  let rows := game_log_stats sb_select pid season pp in
  (∀ r, r ∈ rows → Py.present (get r "game_id") = true →
        ∃ i, Py.int_ (get r "game_id") = Ok i) →
  ∃ game_ids,
    game_ids_of rows = Ok game_ids ∧
    let game_map := game_map_of (games_of sb_select game_ids) in
    let tmap :=
      _team_map sb_select (log_team_ids (games_of sb_select game_ids) rows) in
    get_player_game_logs sb_select player_id season pp
      = Ok (omap (log_entry season game_map tmap) rows) ∧
    ∀ r, r ∈ rows →
      (_safe_int (get r "game_id") = None →
       log_entry season game_map tmap r = None) ∧
      (∀ gid, _safe_int (get r "game_id") = Some gid →
         ∃ o, log_entry season game_map tmap r = Some o ∧
           lg_game_id o = PyStr.of_int gid ∧
           (game_map !! gid = None ∨
            (∃ g, game_map !! gid = Some g ∧
                  (_safe_int (get g "home_team_id") = None ∨
                   _safe_int (get g "visitor_team_id") = None)) ∨
            _safe_int (get r "team_id") = None →
            lg_location o = "home" ∧ lg_opponent o = None)).
Proof.
  intros Hpid rows Hconv.
  destruct (game_ids_of_Ok rows Hconv) as [game_ids Hids].
  exists game_ids. split; [done|]. cbv zeta. split.
  { by apply get_player_game_logs_eq. }
  intros r Hr. split; [intros Hn; by apply log_entry_None|].
  intros gid Hgid.
  destruct (log_entry season _ _ r) as [o|] eqn:Eo.
  2:{ apply log_entry_None in Eo. congruence. }
  exists o. split; [done|].
  apply log_entry_Some in Eo as (gid' & Hgid' & Hid & _ & Hfacts).
  assert (gid' = gid) as -> by congruence.
  split; [done|]. cbv zeta in Hfacts.
  destruct Hfacts as (_ & _ & _ & Hdefault).
  intros [Hg|[(g & Hg & Hhv)|Ht]]; apply Hdefault.
  - rewrite Hg. simpl. right. by left.
  - rewrite Hg. simpl. right. done.
  - by left.
Qed.

(** C10. The game log at two inputs.  On the sample log every row with an
    integer game id is kept, with location "home" and no opponent where the
    home team id of the game is null (week 3), the game is not in the table
    (week 4) or the team id of the row is not an integer (week 6), and the
    row without a game id (week 5) is left out.  With one more stat row
    whose game id is the text "abc", the call raises [ValueError] where
    the claim has that row dropped and the others kept. *)
Theorem C10_game_log_text_game_id_raises :
  (λ o, (lg_week o, lg_location o, lg_opponent o)) <$>
    default [] (match get_player_game_logs (Mem.select Sample.log_db)
                        "7" 2023 false with
                | Ok out => Some out
                | Raise _ => None
                end)
  = [(1, "home", Some "SF"); (2, "away", Some "DEN"); (3, "home", None);
     (4, "home", None); (6, "home", None)] ∧
  get_player_game_logs (Mem.select Sample.log_db_text_game_id) "7" 2023 false
  = Raise ValueError.
Proof. split; vm_compute; reflexivity. Qed.

(** ** Lookup misses *)

Section LookupFacts.

Variable sb_select :
  string → string → list (string * string) → option string → Z → list row.
Variable photo : string → option string → option string.

(** Season list: an integer player id the player lookup does not know ends
    the turn with [continue]. *)
Lemma list_entry_player_miss season pm tm pf tf s pid :
  _safe_int (get s "player_id") = Some pid → pm !! pid = None →
  list_entry photo season pm tm pf tf s = Ok None.
Proof. intros Hpid Hp. unfold list_entry. by rewrite Hpid, Hp. Qed.

(** Season list: what the team lookup holds never decides whether a turn
    appends a row, skips it or raises. *)
Lemma list_entry_team_map_irrelevant season pm tm tm' pf tf s :
  turn_outcome (list_entry photo season pm tm pf tf s) =
  turn_outcome (list_entry photo season pm tm' pf tf s).
Proof.
  unfold list_entry.
  destruct (_safe_int (get s "player_id")) as [pid|]; [|done].
  destruct (pm !! pid) as [p|]; [|done].
  destruct (Py.empty_dict p); [done|].
  destruct (Py.strip (Py.or_ (get p "position_abbreviation") _))
    as [pos0|]; simpl; [|done].
  destruct (negb (String.eqb pf EmptyString)
            && negb (String.eqb (PyStr.upper pos0) pf)); [done|].
  destruct (match tf with Some t => _ | None => false end); [done|].
  destruct (Py.strip (Py.or_ (get p "first_name") _))
    as [first|]; simpl; [|done].
  destruct (Py.strip (Py.or_ (get p "last_name") _))
    as [last|]; simpl; [|done].
  destruct (average (Py.or_zero (_safe_int (get s "receiving_yards"))) _)
    as [ypc|]; simpl; [|done].
  by destruct (average _ _) as [ypr|].
Qed.

(** The lookups the loop of the season list runs with. *)
Lemma list_rows_context season position team stats out :
  list_rows sb_select photo season position team stats = Ok out →
  ∃ team_ids,
    let players :=
      season_players sb_select
        (omap (λ r, _safe_int (get r "player_id")) stats) in
    player_team_ids players = Ok team_ids ∧
    collectR (list_entry photo season (player_map_of players)
                (_team_map sb_select team_ids)
                (PyStr.upper (PyStr.strip (default EmptyString position)))
                (team_id_of sb_select team)) stats = Ok out.
Proof.
  unfold list_rows. destruct (player_team_ids _) as [ids|]; [|done].
  cbn [mbind result_bind]. intros El. by exists ids.
Qed.

(** Every row of the season list was made from a stat row whose player id
    the player lookup resolves. *)
Lemma players_list_rows_resolved season position team limit out o :
  get_players_list sb_select photo (Some season) position team limit = Ok out →
  o ∈ out →
  let stats := season_stats_rows sb_select season in
  let players :=
    season_players sb_select
      (omap (λ r, _safe_int (get r "player_id")) stats) in
  ∃ s pid p team_ids,
    s ∈ stats ∧ _safe_int (get s "player_id") = Some pid ∧
    player_map_of players !! pid = Some p ∧
    player_team_ids players = Ok team_ids ∧
    pl_player_id o = PyStr.of_int pid ∧
    pl_team o =
      _safe_int (get p "team_id") ≫= (_team_map sb_select team_ids !!.).
Proof.
  intros Hout Ho. cbv zeta. unfold get_players_list in Hout.
  destruct (season_stats_rows sb_select season) as [|r rs] eqn:Es.
  { injection Hout as <-. by apply elem_of_nil in Ho. }
  destruct (omap _ (r :: rs)) eqn:Eo.
  { injection Hout as <-. by apply elem_of_nil in Ho. }
  rewrite <- Eo. clear Eo. rewrite <- Es in *. clear Es.
  destruct (list_rows _ _ _ _ _ _) as [rows|] eqn:El; [|done].
  cbn [mbind result_bind] in Hout. injection Hout as <-.
  apply elem_of_truncate_sort in Ho.
  apply list_rows_context in El as (team_ids & Hids & Hc).
  apply (collectR_elem_of _ _ _ o Hc) in Ho as (s & Hs & He).
  apply list_entry_Some in He
    as (pid & p & pos & Hpid & Hp & _ & _ & _ & Hid & _ & Hteam & _).
  by exists s, pid, p, team_ids.
Qed.

(** Dashboards: a stat row is left out exactly when its player id is not
    an integer; a player the lookup does not know leaves the row in, named
    by the id and without position; the team is what the team lookup
    gives. *)
Lemma receiving_entry_spec season week pmap tmap r :
  (_safe_int (get r "player_id") = None →
   receiving_entry photo season week pmap tmap r = None) ∧
  (∀ pid, _safe_int (get r "player_id") = Some pid →
     ∃ o, receiving_entry photo season week pmap tmap r = Some o ∧
       rv_player_id o = PyStr.of_int pid ∧
       rv_team o = _safe_int (get r "team_id") ≫= (tmap !!.) ∧
       rv_targets o = Py.or_zero (_safe_int (get r "receiving_targets")) ∧
       (pmap !! pid = None →
        rv_player_name o = PyStr.of_int pid ∧ rv_position o = VNone)).
Proof.
  unfold receiving_entry. split.
  - by intros ->.
  - intros pid ->. eexists. split; [done|]. simpl. split_and!; try done.
    by intros ->.
Qed.

Lemma rushing_entry_spec season week pmap tmap r :
  (_safe_int (get r "player_id") = None →
   rushing_entry photo season week pmap tmap r = None) ∧
  (∀ pid, _safe_int (get r "player_id") = Some pid →
     ∃ o, rushing_entry photo season week pmap tmap r = Some o ∧
       ru_player_id o = PyStr.of_int pid ∧
       ru_team o = _safe_int (get r "team_id") ≫= (tmap !!.) ∧
       ru_rush_yards o = Py.or_zero (_safe_int (get r "rushing_yards")) ∧
       (pmap !! pid = None →
        ru_player_name o = PyStr.of_int pid ∧ ru_position o = VNone)).
Proof.
  unfold rushing_entry. split.
  - by intros ->.
  - intros pid ->. eexists. split; [done|]. simpl. split_and!; try done.
    by intros ->.
Qed.

End LookupFacts.

(** C1, as the code has it.  Season list and season summaries: a stat row
    whose player id the player lookup does not resolve is skipped without
    an error, so every returned row comes from a resolved player; the team
    lookup never decides whether a row is kept, and the team of a returned
    row is what the team lookup gives for the team id of the player, null
    on a miss.  Weekly dashboards: a stat row is left out only when its
    player id is not an integer; a row whose player id the player lookup
    does not resolve is returned, with the id as name and a null position,
    and its team is what the team lookup gives, null on a miss. *)
Theorem C1_lookup_miss_policy sb_select photo :
  (∀ season pm tm pf tf s pid,
     _safe_int (get s "player_id") = Some pid → pm !! pid = None →
     list_entry photo season pm tm pf tf s = Ok None) ∧
  (∀ season pm tm tm' pf tf s,
     turn_outcome (list_entry photo season pm tm pf tf s) =
     turn_outcome (list_entry photo season pm tm' pf tf s)) ∧
  (∀ season position team limit out o,
     get_players_list sb_select photo (Some season) position team limit
       = Ok out →
     o ∈ out →
     let stats := season_stats_rows sb_select season in
     let players :=
       season_players sb_select
         (omap (λ r, _safe_int (get r "player_id")) stats) in
     ∃ s pid p team_ids,
       s ∈ stats ∧ _safe_int (get s "player_id") = Some pid ∧
       player_map_of players !! pid = Some p ∧
       player_team_ids players = Ok team_ids ∧
       pl_player_id o = PyStr.of_int pid ∧
       pl_team o =
         _safe_int (get p "team_id") ≫= (_team_map sb_select team_ids !!.)) ∧
  (∀ season team limit out o,
     receiving_season sb_select photo season team limit = Ok out → o ∈ out →
     ∃ rows r,
       get_players_list sb_select photo (Some season) None team 8000
         = Ok rows ∧
       r ∈ rows ∧ rs_player_id o = pl_player_id r ∧ rs_team o = pl_team r) ∧
  (∀ season team limit out o,
     rushing_season sb_select photo season team limit = Ok out → o ∈ out →
     ∃ rows r,
       get_players_list sb_select photo (Some season) None team 8000
         = Ok rows ∧
       r ∈ rows ∧ us_player_id o = pl_player_id r ∧ us_team o = pl_team r) ∧
  (∀ season week pmap tmap r,
     (_safe_int (get r "player_id") = None →
      receiving_entry photo season week pmap tmap r = None) ∧
     (∀ pid, _safe_int (get r "player_id") = Some pid →
        ∃ o, receiving_entry photo season week pmap tmap r = Some o ∧
          rv_player_id o = PyStr.of_int pid ∧
          rv_team o = _safe_int (get r "team_id") ≫= (tmap !!.) ∧
          rv_targets o = Py.or_zero (_safe_int (get r "receiving_targets")) ∧
          (pmap !! pid = None →
           rv_player_name o = PyStr.of_int pid ∧ rv_position o = VNone))) ∧
  (∀ season week pmap tmap r,
     (_safe_int (get r "player_id") = None →
      rushing_entry photo season week pmap tmap r = None) ∧
     (∀ pid, _safe_int (get r "player_id") = Some pid →
        ∃ o, rushing_entry photo season week pmap tmap r = Some o ∧
          ru_player_id o = PyStr.of_int pid ∧
          ru_team o = _safe_int (get r "team_id") ≫= (tmap !!.) ∧
          ru_rush_yards o = Py.or_zero (_safe_int (get r "rushing_yards")) ∧
          (pmap !! pid = None →
           ru_player_name o = PyStr.of_int pid ∧ ru_position o = VNone))).
Proof.
  split_and!.
  - intros. by eapply list_entry_player_miss.
  - intros. apply list_entry_team_map_irrelevant.
  - intros. by eapply players_list_rows_resolved.
  - intros season team limit out o Hout Ho.
    apply receiving_season_Ok in Hout as (rows & Hrows & _ & Hent).
    destruct (Hent o Ho) as (r & Hr & He).
    apply receiving_season_entry_Some in He as (_ & _ & Ht & Hid & _).
    by exists rows, r.
  - intros season team limit out o Hout Ho.
    apply rushing_season_Ok in Hout as (rows & Hrows & _ & Hent).
    destruct (Hent o Ho) as (r & Hr & He).
    apply rushing_season_entry_Some in He as (_ & _ & Ht & Hid & _).
    by exists rows, r.
  - intros. apply receiving_entry_spec.
  - intros. apply rushing_entry_spec.
Qed.

(** C1 on the season with lookup misses: player 42 is not in the players
    table and is not listed; player 2, whose team is unknown, is listed
    without a team. *)
Lemma C1_lookup_miss_witness :
  ∃ out,
    get_players_list (Mem.select Sample.miss_db) Mem.no_photo
      (Some 2023) None None 50 = Ok out ∧
    (λ o, (pl_player_id o, pl_team o)) <$> out
      = [("1", Some "KC"); ("2", None)] ∧
    list_entry Mem.no_photo 2023
      (player_map_of (nfl_players Sample.miss_db)) ∅ EmptyString None
      (Sample.season_stat (VInt 42) 2023
         [("receptions", 50); ("receiving_targets", 70);
          ("receiving_yards", 900)]) = Ok None ∧
    Forall (λ o, ∃ s pid p,
              s ∈ season_stats_rows (Mem.select Sample.miss_db) 2023 ∧
              _safe_int (get s "player_id") = Some pid ∧
              player_map_of
                (season_players (Mem.select Sample.miss_db)
                   (omap (λ r, _safe_int (get r "player_id"))
                      (season_stats_rows (Mem.select Sample.miss_db) 2023)))
              !! pid = Some p ∧
              pl_player_id o = PyStr.of_int pid) out.
Proof.
  pose proof (C1_lookup_miss_policy (Mem.select Sample.miss_db) Mem.no_photo)
    as (Hmiss & _ & Hlist & _).
  eexists. split; [vm_compute; reflexivity|]. split_and!.
  - reflexivity.
  - apply (Hmiss _ _ _ _ _ _ 42); vm_compute; reflexivity.
  - apply Forall_forall. intros o Ho.
    destruct (Hlist 2023 None None 50 _ o ltac:(vm_compute; reflexivity) Ho)
      as (s & pid & p & ids & Hs & Hpid & Hp & _ & Hid & _).
    exists s, pid, p.
    split; [exact Hs|]. split; [exact Hpid|]. split; [exact Hp|exact Hid].
Defined.

(** Against C1 as stated: in week 5 of the sample tables no player row has
    id 99, and both dashboards still return the stat row of player 99,
    named by the id and without a position. *)
Lemma C1_dashboard_keeps_unresolved_player :
  Forall (λ p, _safe_int (get p "id") ≠ Some 99)
    (nfl_players Sample.week_db) ∧
  (λ o, (rv_player_id o, rv_player_name o, rv_position o, rv_targets o)) <$>
    receiving_dashboard (Mem.select Sample.week_db) Mem.no_photo 2023 5 None 10
  = [("12", "Will Wide", VStr "WR", 11); ("10", "Tom Tight", VStr "TE", 9);
     ("99", "99", VNone, 7); ("12", "Will Wide", VStr "WR", 3)] ∧
  (λ o, (ru_player_id o, ru_player_name o, ru_position o, ru_rush_yards o)) <$>
    rushing_dashboard (Mem.select Sample.week_db) Mem.no_photo 2023 5 None 10
  = [("99", "99", VNone, 30); ("12", "Will Wide", VStr "WR", 8);
     ("10", "Tom Tight", VStr "TE", 4); ("12", "Will Wide", VStr "WR", 1)].
Proof.
  split_and!.
  - repeat constructor; vm_compute; discriminate.
  - vm_compute. reflexivity.
  - vm_compute. reflexivity.
Qed.

(** ** Truncation *)

Section TruncationFacts.

Variable sb_select :
  string → string → list (string * string) → option string → Z → list row.
Variable photo : string → option string → option string.

Lemma truncate_le {A} limit cap (l : list A) :
  1 ≤ cap →
  (length (truncate limit cap l) ≤ Z.to_nat (clamp limit cap))%nat ∧
  (Z.to_nat (clamp limit cap) ≤ Z.to_nat cap)%nat.
Proof.
  intros Hcap. rewrite truncate_length.
  pose proof (clamp_bounds limit cap Hcap). lia.
Qed.

(** With limit 0 the slice keeps exactly the first row, if there is one. *)
Lemma truncate_zero {A} cap (l : list A) :
  1 ≤ cap → truncate 0 cap l = take 1 l.
Proof.
  intros Hcap. unfold truncate, clamp.
  assert (Z.min (Z.max 0 1) cap = 1) as -> by lia. done.
Qed.

(** A view that is a truncation of ranked rows: the bounds that follow. *)
Lemma truncated_view_bounds {A} (view : Z → result (list A))
    (ranked : result (list A)) cap :
  1 ≤ cap →
  (∀ limit, view limit = truncate limit cap <$> ranked) →
  (∀ limit out, view limit = Ok out →
     (length out ≤ Z.to_nat (clamp limit cap))%nat ∧
     (length out ≤ Z.to_nat cap)%nat) ∧
  (∀ limit out, view limit = Ok out → out ≠ [] → ∃ o, view 0 = Ok [o]).
Proof.
  intros Hcap Hview. split.
  - intros limit out. rewrite Hview. destruct ranked as [rows|]; [|done].
    intros [= <-]. destruct (truncate_le limit cap rows Hcap). lia.
  - intros limit out. rewrite !Hview. destruct ranked as [rows|]; [|done].
    simpl. intros [= <-] Hne. rewrite truncate_zero by done.
    destruct rows as [|o rows]; [by rewrite truncate_nil in Hne|].
    by exists o.
Qed.

Lemma receiving_season_ranked season team :
  ∃ ranked, ∀ limit,
    receiving_season sb_select photo season team limit =
    truncate limit 200 <$> ranked.
Proof.
  exists (rows ← get_players_list sb_select photo (Some season) None team 8000;
          out ← collectR (receiving_season_entry photo season
                            (by_team_of pl_targets rows)) rows;
          Ok (sort_desc rs_targets out)).
  intros limit. unfold receiving_season.
  destruct (get_players_list _ _ _ _ _ _) as [rows|]; [|done].
  cbn [mbind result_bind]. by destruct (collectR _ rows).
Qed.

Lemma rushing_season_ranked season team :
  ∃ ranked, ∀ limit,
    rushing_season sb_select photo season team limit =
    truncate limit 200 <$> ranked.
Proof.
  exists (rows ← get_players_list sb_select photo (Some season) None team 8000;
          out ← collectR (rushing_season_entry photo season
                            (by_team_of pl_rushAttempts rows)) rows;
          Ok (sort_desc us_rush_yards out)).
  intros limit. unfold rushing_season.
  destruct (get_players_list _ _ _ _ _ _) as [rows|]; [|done].
  cbn [mbind result_bind]. by destruct (collectR _ rows).
Qed.

Lemma length_omap_le {A B} (f : A → option B) l :
  (length (omap f l) ≤ length l)%nat.
Proof.
  induction l as [|x l IH]; csimpl; [done|]. destruct (f x); simpl; lia.
Qed.

Lemma omap_truncate_length {A B} (f : A → option B) limit (l : list A) :
  (length (omap f (truncate limit 200 l)) ≤ Z.to_nat (clamp limit 200))%nat ∧
  (length (omap f (truncate limit 200 l)) ≤ 200)%nat.
Proof.
  pose proof (length_omap_le f (truncate limit 200 l)).
  destruct (truncate_le limit 200 l ltac:(lia)). lia.
Qed.

(** The stat rows a dashboard hydrates are the first rows of the ranked
    stat rows, which do not depend on the limit. *)
Lemma week_stats_ranked columns rank_column season week team :
  ∃ ranked, ∀ limit,
    week_stats sb_select columns rank_column season week team limit =
    truncate limit 200 ranked ∧
    StronglySorted
      (λ a b, Py.or_zero (_safe_int (get b rank_column))
              ≤ Py.or_zero (_safe_int (get a rank_column))) ranked.
Proof.
  eexists. intros limit. split; [reflexivity|]. apply sort_desc_sorted.
Qed.

End TruncationFacts.

(** C5, as the code has it.  With [clamp limit cap] for
    [min(max(limit, 1), cap)]: the season list is the first
    [clamp limit 300] rows of ranked rows that do not depend on the limit,
    and each season summary the first [clamp limit 200] rows of such rows;
    so neither returns more rows than that, a limit of 10000 gives at most
    300 rows of the list, and a limit of 0 gives exactly one row whenever
    some limit gives a row at all.  A weekly dashboard cuts the ranked stat
    rows down to the first [clamp limit 200] and then leaves out those
    without an integer player id: it returns at most [clamp limit 200]
    rows, possibly fewer than there are rows to show. *)
Theorem C5_truncation_to_clamped_limit sb_select photo :
  (∀ limit cap, 1 ≤ cap → 1 ≤ clamp limit cap ≤ cap) ∧
  (∀ season position team,
     (∃ ranked, ∀ limit,
        get_players_list sb_select photo season position team limit =
        truncate limit 300 <$> ranked) ∧
     (∀ limit out,
        get_players_list sb_select photo season position team limit = Ok out →
        (length out ≤ Z.to_nat (clamp limit 300))%nat ∧
        (length out ≤ 300)%nat) ∧
     (∀ out,
        get_players_list sb_select photo season position team 10000 = Ok out →
        (length out ≤ 300)%nat) ∧
     (∀ limit out,
        get_players_list sb_select photo season position team limit = Ok out →
        out ≠ [] →
        ∃ o, get_players_list sb_select photo season position team 0
             = Ok [o])) ∧
  (∀ season team,
     (∃ ranked, ∀ limit,
        receiving_season sb_select photo season team limit =
        truncate limit 200 <$> ranked) ∧
     (∀ limit out,
        receiving_season sb_select photo season team limit = Ok out →
        (length out ≤ Z.to_nat (clamp limit 200))%nat ∧
        (length out ≤ 200)%nat) ∧
     (∀ limit out,
        receiving_season sb_select photo season team limit = Ok out →
        out ≠ [] →
        ∃ o, receiving_season sb_select photo season team 0 = Ok [o])) ∧
  (∀ season team,
     (∃ ranked, ∀ limit,
        rushing_season sb_select photo season team limit =
        truncate limit 200 <$> ranked) ∧
     (∀ limit out,
        rushing_season sb_select photo season team limit = Ok out →
        (length out ≤ Z.to_nat (clamp limit 200))%nat ∧
        (length out ≤ 200)%nat) ∧
     (∀ limit out,
        rushing_season sb_select photo season team limit = Ok out →
        out ≠ [] →
        ∃ o, rushing_season sb_select photo season team 0 = Ok [o])) ∧
  (∀ season week team,
     ∃ ranked, ∀ limit,
       let stats := truncate limit 200 ranked in
       receiving_dashboard sb_select photo season week team limit =
       omap (receiving_entry photo season week (week_pmap sb_select stats)
               (week_tmap sb_select stats)) stats ∧
       (length (receiving_dashboard sb_select photo season week team limit)
        ≤ Z.to_nat (clamp limit 200))%nat ∧
       (length (receiving_dashboard sb_select photo season week team limit)
        ≤ 200)%nat) ∧
  (∀ season week team,
     ∃ ranked, ∀ limit,
       let stats := truncate limit 200 ranked in
       rushing_dashboard sb_select photo season week team limit =
       omap (rushing_entry photo season week (week_pmap sb_select stats)
               (week_tmap sb_select stats)) stats ∧
       (length (rushing_dashboard sb_select photo season week team limit)
        ≤ Z.to_nat (clamp limit 200))%nat ∧
       (length (rushing_dashboard sb_select photo season week team limit)
        ≤ 200)%nat).
Proof.
  split_and!.
  - apply clamp_bounds.
  - intros season position team.
    destruct (get_players_list_ranked sb_select photo season position team)
      as (ranked & Hview & _).
    destruct (truncated_view_bounds _ ranked 300 ltac:(lia) Hview)
      as [Hlen Hzero].
    split_and!; [by exists ranked|exact Hlen| |exact Hzero].
    intros out Hout. by destruct (Hlen _ _ Hout).
  - intros season team.
    destruct (receiving_season_ranked sb_select photo season team)
      as (ranked & Hview).
    destruct (truncated_view_bounds _ ranked 200 ltac:(lia) Hview)
      as [Hlen Hzero].
    split_and!; [by exists ranked|exact Hlen|exact Hzero].
  - intros season team.
    destruct (rushing_season_ranked sb_select photo season team)
      as (ranked & Hview).
    destruct (truncated_view_bounds _ ranked 200 ltac:(lia) Hview)
      as [Hlen Hzero].
    split_and!; [by exists ranked|exact Hlen|exact Hzero].
  - intros season week team.
    destruct (week_stats_ranked sb_select receiving_columns
                "receiving_targets" season week team) as [ranked Hr].
    exists ranked. intros limit. cbv zeta. destruct (Hr limit) as [Hs _].
    unfold receiving_dashboard. rewrite Hs.
    split; [reflexivity|apply omap_truncate_length].
  - intros season week team.
    destruct (week_stats_ranked sb_select rushing_columns
                "rushing_yards" season week team) as [ranked Hr].
    exists ranked. intros limit. cbv zeta. destruct (Hr limit) as [Hs _].
    unfold rushing_dashboard. rewrite Hs.
    split; [reflexivity|apply omap_truncate_length].
Qed.

(** C5 on the sample season: the list is not empty at limit 50, so limit
    0 returns exactly one row, and limit 10000 returns no more than 300. *)
Lemma C5_truncation_witness :
  (∃ o, get_players_list (Mem.select Sample.season_db) Mem.no_photo
          (Some 2023) None None 0 = Ok [o]) ∧
  (∃ out, get_players_list (Mem.select Sample.season_db) Mem.no_photo
            (Some 2023) None None 10000 = Ok out ∧ (length out ≤ 300)%nat).
Proof.
  pose proof (C5_truncation_to_clamped_limit
                (Mem.select Sample.season_db) Mem.no_photo)
    as (_ & Hlist & _).
  destruct (Hlist (Some 2023) None None) as (_ & _ & Hbig & Hzero).
  split.
  - eapply (Hzero 50); [vm_compute; reflexivity|discriminate].
  - eexists. split; [vm_compute; reflexivity|].
    eapply Hbig. vm_compute. reflexivity.
Defined.

(** Against C5 as stated: in week 5 of the sample tables the stat row with
    the most targets has no player id.  Four rows are shown at limit 10,
    but limit 0 returns no row at all and limit 2 returns one row: the cut
    to the first [clamp limit 200] stat rows comes before the rows without
    a player id are left out. *)
Lemma C5_dashboard_truncates_before_dropping :
  length (receiving_dashboard (Mem.select Sample.week_db) Mem.no_photo
            2023 5 None 10) = 4%nat ∧
  receiving_dashboard (Mem.select Sample.week_db) Mem.no_photo 2023 5 None 0
    = [] ∧
  clamp 0 200 = 1 ∧
  length (receiving_dashboard (Mem.select Sample.week_db) Mem.no_photo
            2023 5 None 2) = 1%nat ∧
  clamp 2 200 = 2.
Proof. split_and!; vm_compute; reflexivity. Qed.

(** ** The team lookup *)

Lemma item_int_safe_int t k i :
  (v ← Py.item t k; Py.int_ v) = Ok i ↔ _safe_int (get t k) = Some i.
Proof.
  rewrite _safe_int_Some. unfold Py.item, get.
  destruct (row_lookup k t); simpl; [done|]. split; intros; done.
Qed.

(** An entry of the map built by the loop comes from a team row with that
    id, or was there before. *)
Lemma team_map_turn_lookup teams m i a :
  foldl team_map_turn m teams !! i = Some a →
  m !! i = Some a ∨
  ∃ t, t ∈ teams ∧ _safe_int (get t "id") = Some i ∧
       a = PyStr.upper
             (Py.str_ (Py.or_ (get t "abbreviation") (VStr EmptyString))).
Proof.
  revert m. induction teams as [|t teams IH]; intros m; simpl; [by left|].
  intros H. apply IH in H as [H|(t' & Ht' & H)].
  - unfold team_map_turn in H.
    destruct (v ← Py.item t "id"; Py.int_ v) as [j|] eqn:Ej; [|by left].
    apply item_int_safe_int in Ej.
    destruct (decide (j = i)) as [->|Hne].
    + rewrite lookup_insert_eq in H. injection H as <-.
      right. exists t. split; [apply elem_of_cons; by left|done].
    + rewrite lookup_insert_ne in H by done. by left.
  - right. exists t'. split; [apply elem_of_cons; by right|done].
Qed.

Lemma team_map_turn_is_Some teams m i :
  is_Some (m !! i) ∨ (∃ t, t ∈ teams ∧ _safe_int (get t "id") = Some i) →
  is_Some (foldl team_map_turn m teams !! i).
Proof.
  revert m. induction teams as [|t teams IH]; intros m H; simpl.
  - destruct H as [H|(t & Ht & _)]; [done|by apply elem_of_nil in Ht].
  - apply IH. unfold team_map_turn.
    destruct H as [H|(t' & [->|Ht']%elem_of_cons & Hid)].
    + left. destruct (v ← Py.item t "id"; Py.int_ v) as [j|]; [|done].
      destruct (decide (j = i)) as [->|Hne].
      * rewrite lookup_insert_eq. by eexists.
      * by rewrite lookup_insert_ne.
    + left. apply item_int_safe_int in Hid as ->.
      rewrite lookup_insert_eq. by eexists.
    + right. by exists t'.
Qed.

(** When some team row has the id and all team rows with the id agree on
    the abbreviation, the map sends the id to that abbreviation. *)
Lemma team_map_turn_determined teams i a :
  (∃ t, t ∈ teams ∧ _safe_int (get t "id") = Some i) →
  (∀ t, t ∈ teams → _safe_int (get t "id") = Some i →
        PyStr.upper
          (Py.str_ (Py.or_ (get t "abbreviation") (VStr EmptyString))) = a) →
  foldl team_map_turn ∅ teams !! i = Some a.
Proof.
  intros Hex Hall.
  destruct (team_map_turn_is_Some teams ∅ i (or_intror Hex)) as [b Hb].
  rewrite Hb. f_equal.
  apply team_map_turn_lookup in Hb as [Hb|(t & Ht & Hid & ->)].
  - by rewrite lookup_empty in Hb.
  - by apply Hall.
Qed.

Lemma sorted_set_const l x :
  l ≠ [] → (∀ y, y ∈ l → y = x) → sorted_set l = [x].
Proof.
  intros Hne Hall. unfold sorted_set.
  assert (remove_dups l = [x]) as ->.
  { pose proof (NoDup_remove_dups l) as Hnd.
    assert (∀ y, y ∈ remove_dups l → y = x) as Hall'.
    { intros y Hy. apply Hall. by apply elem_of_remove_dups. }
    assert (remove_dups l ≠ []) as Hne'.
    { destruct l as [|y l]; [done|]. intros Hnil.
      assert (y ∈ remove_dups (y :: l)) as Hy.
      { apply elem_of_remove_dups, elem_of_cons. by left. }
      rewrite Hnil in Hy. by apply elem_of_nil in Hy. }
    destruct (remove_dups l) as [|a [|b l']]; [done| |].
    - f_equal. apply Hall'. apply elem_of_cons. by left.
    - exfalso. apply NoDup_cons in Hnd as [Hni _]. apply Hni.
      rewrite (Hall' a) by (apply elem_of_cons; by left).
      rewrite <- (Hall' b) at 1
        by (apply elem_of_cons; right; apply elem_of_cons; by left).
      apply elem_of_cons. by left. }
  apply Permutation_singleton_r, merge_sort_Permutation.
Qed.

(** ** The team filter of the weekly dashboards *)

Section TeamFilterFacts.

Variable sb_select :
  string → string → list (string * string) → option string → Z → list row.
Variable photo : string → option string → option string.

Lemma week_filters_resolved season week team tid :
  team_id_of sb_select team = Some tid →
  week_filters sb_select season week team =
  [("season", "eq." +:+ PyStr.of_int season);
   ("week", "eq." +:+ PyStr.of_int week);
   ("postseason", "eq.false");
   ("team_id", "eq." +:+ PyStr.of_int tid)].
Proof. intros H. unfold week_filters. by rewrite H. Qed.

Lemma week_filters_unresolved season week team :
  team_id_of sb_select team = None →
  week_filters sb_select season week team =
  [("season", "eq." +:+ PyStr.of_int season);
   ("week", "eq." +:+ PyStr.of_int week);
   ("postseason", "eq.false")].
Proof. intros H. unfold week_filters. by rewrite H. Qed.

Lemma elem_of_week_stats columns rank_column season week team limit r :
  r ∈ week_stats sb_select columns rank_column season week team limit →
  r ∈ sb_select "nfl_player_game_stats" columns
        (week_filters sb_select season week team) None 5000.
Proof. unfold week_stats. apply elem_of_truncate_sort. Qed.

Lemma week_stats_nil columns rank_column season week team limit :
  sb_select "nfl_player_game_stats" columns
    (week_filters sb_select season week team) None 5000 = [] →
  week_stats sb_select columns rank_column season week team limit = [].
Proof. intros H. unfold week_stats. rewrite H. apply truncate_nil. Qed.

(** When all stat rows carry one team id and the team fetched for it has
    the abbreviation, the team lookup of the dashboard resolves the id to
    the abbreviation. *)
Lemma week_tmap_resolved stats tid abbr :
  stats ≠ [] →
  (∀ r, r ∈ stats → _safe_int (get r "team_id") = Some tid) →
  let teams :=
    sb_select "nfl_teams" "id,abbreviation" [("id", _in_list [tid])] None 1 in
  (∃ t, t ∈ teams ∧ _safe_int (get t "id") = Some tid) →
  (∀ t, t ∈ teams → _safe_int (get t "id") = Some tid →
        PyStr.upper
          (Py.str_ (Py.or_ (get t "abbreviation") (VStr EmptyString)))
        = abbr) →
  week_tmap sb_select stats !! tid = Some abbr.
Proof.
  intros Hne Hall teams Hex Hagree. unfold week_tmap.
  rewrite (sorted_set_const _ tid).
  - unfold _team_map. by apply team_map_turn_determined.
  - destruct stats as [|r rs]; [done|]. csimpl.
    rewrite (Hall r) by (apply elem_of_cons; by left). done.
  - intros y (r & Hr & Hy)%list_elem_of_omap. rewrite (Hall r Hr) in Hy.
    congruence.
Qed.

End TeamFilterFacts.

(** C2, as the code has it.  When the supplied abbreviation resolves to a
    team id in the teams table, the stat fetch of both dashboards carries
    the filter [team_id = eq.<id>]; if the client honours that filter and
    the team fetched for the id carries the supplied abbreviation, every
    returned row has the supplied abbreviation as its team.  When the
    abbreviation resolves to no team id the fetch has no team filter.  When
    the fetch returns no stat rows the result is the empty list. *)
Theorem C2_weekly_dashboard_team_filter
    sb_select photo season week team limit :
  (∀ tid,
     team_id_of sb_select (Some team) = Some tid →
     week_filters sb_select season week (Some team) =
       [("season", "eq." +:+ PyStr.of_int season);
        ("week", "eq." +:+ PyStr.of_int week);
        ("postseason", "eq.false");
        ("team_id", "eq." +:+ PyStr.of_int tid)] ∧
     (honours_team_filter sb_select receiving_columns season week team tid →
      ∀ o, o ∈ receiving_dashboard sb_select photo season week (Some team)
                 limit →
           rv_team o = Some team) ∧
     (honours_team_filter sb_select rushing_columns season week team tid →
      ∀ o, o ∈ rushing_dashboard sb_select photo season week (Some team)
                 limit →
           ru_team o = Some team)) ∧
  (team_id_of sb_select (Some team) = None →
   week_filters sb_select season week (Some team) =
     [("season", "eq." +:+ PyStr.of_int season);
      ("week", "eq." +:+ PyStr.of_int week);
      ("postseason", "eq.false")]) ∧
  (sb_select "nfl_player_game_stats" receiving_columns
     (week_filters sb_select season week (Some team)) None 5000 = [] →
   receiving_dashboard sb_select photo season week (Some team) limit = []) ∧
  (sb_select "nfl_player_game_stats" rushing_columns
     (week_filters sb_select season week (Some team)) None 5000 = [] →
   rushing_dashboard sb_select photo season week (Some team) limit = []).
Proof.
  split_and!.
  - intros tid Htid. split_and!.
    + by apply week_filters_resolved.
    + intros (Hrows & Hex & Hagree) o Ho. unfold receiving_dashboard in Ho.
      apply list_elem_of_omap in Ho as (r & Hr & He).
      assert (_safe_int (get r "team_id") = Some tid) as Ht.
      { apply Hrows. by eapply elem_of_week_stats. }
      destruct (receiving_entry_spec photo season week
                  (week_pmap sb_select
                     (week_stats sb_select receiving_columns
                        "receiving_targets" season week (Some team) limit))
                  (week_tmap sb_select
                     (week_stats sb_select receiving_columns
                        "receiving_targets" season week (Some team) limit)) r)
        as [Hnone Hsome].
      destruct (_safe_int (get r "player_id")) as [pid|] eqn:Epid.
      2:{ rewrite Hnone in He; done. }
      destruct (Hsome pid eq_refl) as (o' & He' & _ & Hteam & _).
      rewrite He in He'. injection He' as <-.
      rewrite Hteam, Ht. simpl.
      apply week_tmap_resolved; try done.
      * intros Hnil. rewrite Hnil in Hr. by apply elem_of_nil in Hr.
      * intros r' Hr'. apply Hrows. by eapply elem_of_week_stats.
    + intros (Hrows & Hex & Hagree) o Ho. unfold rushing_dashboard in Ho.
      apply list_elem_of_omap in Ho as (r & Hr & He).
      assert (_safe_int (get r "team_id") = Some tid) as Ht.
      { apply Hrows. by eapply elem_of_week_stats. }
      destruct (rushing_entry_spec photo season week
                  (week_pmap sb_select
                     (week_stats sb_select rushing_columns
                        "rushing_yards" season week (Some team) limit))
                  (week_tmap sb_select
                     (week_stats sb_select rushing_columns
                        "rushing_yards" season week (Some team) limit)) r)
        as [Hnone Hsome].
      destruct (_safe_int (get r "player_id")) as [pid|] eqn:Epid.
      2:{ rewrite Hnone in He; done. }
      destruct (Hsome pid eq_refl) as (o' & He' & _ & Hteam & _).
      rewrite He in He'. injection He' as <-.
      rewrite Hteam, Ht. simpl.
      apply week_tmap_resolved; try done.
      * intros Hnil. rewrite Hnil in Hr. by apply elem_of_nil in Hr.
      * intros r' Hr'. apply Hrows. by eapply elem_of_week_stats.
  - apply week_filters_unresolved.
  - intros Hnil. unfold receiving_dashboard.
    by rewrite (week_stats_nil _ _ _ _ _ _ _ Hnil).
  - intros Hnil. unfold rushing_dashboard.
    by rewrite (week_stats_nil _ _ _ _ _ _ _ Hnil).
Qed.

(** Membership goals over a list that computes to explicit rows. *)
Ltac by_rows H :=
  vm_compute in H;
  repeat (apply elem_of_cons in H as [->|H]; [vm_compute; reflexivity|]);
  by apply elem_of_nil in H.

(** C2 on the sample week with team "KC": the abbreviation resolves to
    team 1, the reference client honours the filter, and the two returned
    rows are rows of "KC". *)
Lemma C2_weekly_dashboard_witness :
  team_id_of (Mem.select Sample.week_db) (Some "KC") = Some 1 ∧
  length (receiving_dashboard (Mem.select Sample.week_db) Mem.no_photo
            2023 5 (Some "KC") 10) = 2%nat ∧
  Forall (λ o, rv_team o = Some "KC")
    (receiving_dashboard (Mem.select Sample.week_db) Mem.no_photo
       2023 5 (Some "KC") 10).
Proof.
  assert (team_id_of (Mem.select Sample.week_db) (Some "KC") = Some 1) as Htid
    by (vm_compute; reflexivity).
  destruct (C2_weekly_dashboard_team_filter (Mem.select Sample.week_db)
              Mem.no_photo 2023 5 "KC" 10) as (Hres & _).
  destruct (Hres 1 Htid) as (_ & Hrv & _).
  split_and!; [exact Htid|vm_compute; reflexivity|].
  apply Forall_forall. apply Hrv. split_and!.
  - intros r Hr. by_rows Hr.
  - eexists. split; [vm_compute; apply elem_of_cons; left; reflexivity|].
    vm_compute. reflexivity.
  - intros t Ht _. by_rows Ht.
Defined.

(** Against C2 as stated: no team has the abbreviation "XX", so the
    dashboards fetch without a team filter and return the rows of every
    team; none of the returned rows has "XX" as its team. *)
Lemma C2_unknown_team_is_not_filtered :
  team_id_of (Mem.select Sample.week_db) (Some "XX") = None ∧
  rv_team <$>
    receiving_dashboard (Mem.select Sample.week_db) Mem.no_photo
      2023 5 (Some "XX") 10
  = [Some "SF"; Some "KC"; Some "KC"; None] ∧
  ru_team <$>
    rushing_dashboard (Mem.select Sample.week_db) Mem.no_photo
      2023 5 (Some "XX") 10
  = [Some "KC"; Some "SF"; Some "KC"; None].
Proof. split_and!; vm_compute; reflexivity. Qed.

(** ** Team shares of the season summaries *)

Lemma team_total_cons stat r rows k :
  team_total stat (r :: rows) k =
  (if decide (team_key r = k) then stat r else 0) + team_total stat rows k.
Proof.
  unfold team_total. case_decide.
  - by rewrite filter_cons_True by done.
  - rewrite filter_cons_False by done. lia.
Qed.

(** [by_team] holds, for every key, the sum of the stat over the rows
    counted under that key. *)
Lemma by_team_fold stat rows (m : gmap string Z) k :
  default 0
    (foldl (λ by_team r,
              <[team_key r := default 0 (by_team !! team_key r) + stat r]>
                by_team) m rows !! k)
  = default 0 (m !! k) + team_total stat rows k.
Proof.
  revert m. induction rows as [|r rows IH]; intros m.
  - unfold team_total. simpl. lia.
  - cbn [foldl]. rewrite IH, team_total_cons. case_decide as Hk.
    + rewrite Hk, lookup_insert_eq. simpl. lia.
    + rewrite lookup_insert_ne by done. lia.
Qed.

Lemma by_team_of_total stat rows k :
  default 0 (by_team_of stat rows !! k) = team_total stat rows k.
Proof.
  unfold by_team_of. rewrite by_team_fold, lookup_empty. simpl. lia.
Qed.

(** The share the code computes, in terms of the team total. *)
Lemma share_of_by_team x stat rows k sh :
  share_of x (by_team_of stat rows) k = Ok sh →
  let total := team_total stat rows k in
  (total = 0 → sh = None) ∧
  (total ≠ 0 →
   ∃ a b, PyFloat.of_int x = Ok a ∧ PyFloat.of_int total = Ok b ∧
          sh = Some (a / b)%float).
Proof.
  unfold share_of. unfold Py.or_zero. cbn [default from_option].
  rewrite by_team_of_total. unfold id. cbv zeta.
  destruct (team_total stat rows k =? 0) eqn:E.
  - apply Z.eqb_eq in E. intros [= <-]. split; [done|]. intros. done.
  - apply Z.eqb_neq in E.
    destruct (PyFloat.of_int x) as [a|]; [|done]. cbn [mbind result_bind].
    destruct (PyFloat.of_int (team_total stat rows k)) as [b|]; [|done].
    cbn [mbind result_bind]. intros [= <-]. split; [done|].
    intros _. by exists a, b.
Qed.

(** C3, as the code has it.  Every row of the season receiving summary
    comes from a row of the season list the summary is built on, and its
    [team_target_share] is the targets of that row divided by the team
    total, null when the total is zero; the team total is the sum of
    targets over all rows of that season list, before the position filter
    and the truncation of the summary, that are counted under the same
    key, the key being the team abbreviation with a missing one read as the
    empty string.  The same holds for [team_rush_share] with rush attempts.
    With a total of 100, 80 and 20 give 0.8 and 0.2; with a total of 0 the
    share is null. *)
Theorem C3_team_share_over_season_list sb_select photo season team limit :
  (∀ out,
     receiving_season sb_select photo season team limit = Ok out →
     ∃ rows,
       get_players_list sb_select photo (Some season) None team 8000
         = Ok rows ∧
       ∀ o, o ∈ out →
         ∃ r, r ∈ rows ∧ rs_player_id o = pl_player_id r ∧
           rs_team o = pl_team r ∧ rs_targets o = pl_targets r ∧
           let total := team_total pl_targets rows (team_key r) in
           (total = 0 → rs_team_target_share o = None) ∧
           (total ≠ 0 →
            ∃ a b, PyFloat.of_int (pl_targets r) = Ok a ∧
                   PyFloat.of_int total = Ok b ∧
                   rs_team_target_share o = Some (a / b)%float)) ∧
  (∀ out,
     rushing_season sb_select photo season team limit = Ok out →
     ∃ rows,
       get_players_list sb_select photo (Some season) None team 8000
         = Ok rows ∧
       ∀ o, o ∈ out →
         ∃ r, r ∈ rows ∧ us_player_id o = pl_player_id r ∧
           us_team o = pl_team r ∧ us_rush_attempts o = pl_rushAttempts r ∧
           let total := team_total pl_rushAttempts rows (team_key r) in
           (total = 0 → us_team_rush_share o = None) ∧
           (total ≠ 0 →
            ∃ a b, PyFloat.of_int (pl_rushAttempts r) = Ok a ∧
                   PyFloat.of_int total = Ok b ∧
                   us_team_rush_share o = Some (a / b)%float)) ∧
  (PyFloat.of_int 80 = Ok 80%float ∧ PyFloat.of_int 20 = Ok 20%float ∧
   PyFloat.of_int 100 = Ok 100%float ∧
   (80 / 100 = 0.8)%float ∧ (20 / 100 = 0.2)%float).
Proof.
  split_and!.
  - intros out Hout.
    apply receiving_season_Ok in Hout as (rows & Hrows & _ & Hent).
    exists rows. split; [done|]. intros o Ho.
    destruct (Hent o Ho) as (r & Hr & He).
    apply receiving_season_entry_Some in He
      as (_ & Hshare & Ht & Hid & _ & _ & Htg & _).
    exists r. split_and!; try done.
    exact (share_of_by_team _ _ _ _ _ Hshare).
  - intros out Hout.
    apply rushing_season_Ok in Hout as (rows & Hrows & _ & Hent).
    exists rows. split; [done|]. intros o Ho.
    destruct (Hent o Ho) as (r & Hr & He).
    apply rushing_season_entry_Some in He
      as (_ & Hshare & Ht & Hid & _ & _ & Hra & _).
    exists r. split_and!; try done.
    exact (share_of_by_team _ _ _ _ _ Hshare).
  - vm_compute. reflexivity.
  - vm_compute. reflexivity.
  - vm_compute. reflexivity.
  - vm_compute. reflexivity.
  - vm_compute. reflexivity.
Qed.

(** C3 on the season of the spec's example: 80 and 20 targets in one team
    give the shares 0.8 and 0.2, and the lone rusher, whose team has no
    target at all, gets a null share. *)
Lemma C3_team_share_witness :
  ∃ out rows,
    receiving_season (Mem.select Sample.share_db) Mem.no_photo 2023 None 10
      = Ok out ∧
    get_players_list (Mem.select Sample.share_db) Mem.no_photo
      (Some 2023) None None 8000 = Ok rows ∧
    (λ o, (rs_player_name o, rs_targets o, rs_team_target_share o)) <$> out
      = [("Alex Able", 80, Some 0.8%float); ("Tom Tight", 20, Some 0.2%float);
         ("Ray Rush", 0, None)] ∧
    ∀ o, o ∈ out →
      ∃ r, r ∈ rows ∧ rs_targets o = pl_targets r ∧
        (team_total pl_targets rows (team_key r) = 0 →
         rs_team_target_share o = None) ∧
        (team_total pl_targets rows (team_key r) ≠ 0 →
         ∃ a b, PyFloat.of_int (pl_targets r) = Ok a ∧
                PyFloat.of_int (team_total pl_targets rows (team_key r))
                  = Ok b ∧
                rs_team_target_share o = Some (a / b)%float).
Proof.
  destruct (C3_team_share_over_season_list (Mem.select Sample.share_db)
              Mem.no_photo 2023 None 10) as (Hrv & _ & _).
  eexists.
  destruct (Hrv _ ltac:(vm_compute; reflexivity)) as (rows & Hrows & Hshare).
  exists rows. split_and!.
  - vm_compute. reflexivity.
  - exact Hrows.
  - vm_compute. reflexivity.
  - intros o Ho. destruct (Hshare o Ho) as (r & Hr & _ & _ & Htg & Hsh).
    exists r. cbv zeta in Hsh. destruct Hsh as [Hzero Hpos].
    split; [exact Hr|]. split; [exact Htg|]. split; [exact Hzero|exact Hpos].
Defined.

(** Against C3 as stated: the receiver "Fred Free" has no team and the
    quarterback "Quinn Back" plays for a team whose abbreviation is null,
    which the team lookup turns into the empty string.  The summary
    returns the receiver alone, with the share 80 / 100 = 0.8: the 20
    targets of the quarterback are in his total, although the quarterback
    is not in the result and does not have his team abbreviation.  Counted
    as the claim words it, over the season list or over the returned rows,
    the total is 80 and the share 1. *)
Lemma C3_share_counts_rows_outside_result :
  ∃ rows fred o,
    get_players_list (Mem.select Sample.share_scope_db) Mem.no_photo
      (Some 2023) None None 8000 = Ok rows ∧
    (λ r, (pl_player_name r, pl_position r, pl_team r, pl_targets r)) <$> rows
      = [("Fred Free", Some "WR", None, 80);
         ("Quinn Back", Some "QB", Some EmptyString, 20)] ∧
    head rows = Some fred ∧
    receiving_season (Mem.select Sample.share_scope_db) Mem.no_photo
      2023 None 10 = Ok [o] ∧
    rs_player_name o = "Fred Free" ∧ rs_team o = None ∧
    rs_team_target_share o = Some 0.8%float ∧
    claimed_share pl_targets rows fred = Ok (Some 1%float) ∧
    claimed_share pl_targets [fred] fred = Ok (Some 1%float) ∧
    Some 0.8%float ≠ Some 1%float.
Proof.
  eexists _, _, _. split_and!; try (vm_compute; reflexivity).
  intros H.
  pose proof (f_equal (λ o, match o with
                            | Some x => PrimFloat.eqb x 1
                            | None => false
                            end) H) as E.
  vm_compute in E. discriminate E.
Qed.
(** * Further properties of the code *)

(** ** Distinct sorted integers *)

(** What the loop of [_uniq_sorted_int] keeps: [out] has no duplicates,
    [seen] holds its members, and these are the members at the start and
    the integers the values read convert to. *)
Lemma uniq_turn_invariant vals out seen :
  NoDup out → (∀ i, i ∈ seen ↔ i ∈ out) →
  NoDup (foldl uniq_turn (out, seen) vals).1 ∧
  (∀ i, i ∈ (foldl uniq_turn (out, seen) vals).1 ↔
        i ∈ out ∨ ∃ v, v ∈ vals ∧ Py.int_ v = Ok i).
Proof.
  revert out seen. induction vals as [|v vals IH]; intros out seen Hnd Hseen.
  { simpl. split; [done|]. intros i. split; [by left|].
    intros [?|(v & Hv & _)]; [done|by apply elem_of_nil in Hv]. }
  cbn [foldl]. unfold uniq_turn at 2 4. cbn [fst snd].
  destruct (Py.int_ v) as [j|e] eqn:Ej.
  - case_bool_decide as Hj.
    + destruct (IH out seen Hnd Hseen) as [H1 H2]. split; [done|].
      intros i. rewrite H2. split.
      * intros [?|(w & Hw & Hi)]; [by left|].
        right. exists w. split; [apply elem_of_cons; by right|done].
      * intros [?|(w & [->|Hw]%elem_of_cons & Hi)]; [by left| |].
        -- left. apply Hseen. congruence.
        -- right. by exists w.
    + assert (j ∉ out) as Hjo by (by rewrite <- Hseen).
      destruct (IH (out ++ [j]) ({[j]} ∪ seen)) as [H1 H2].
      { apply NoDup_app. split_and!; [done| |apply NoDup_singleton].
        intros x Hx ->%list_elem_of_singleton. done. }
      { intros i. rewrite elem_of_union, elem_of_singleton, elem_of_app,
          list_elem_of_singleton, Hseen. tauto. }
      split; [done|]. intros i. rewrite H2, elem_of_app, list_elem_of_singleton.
      split.
      * intros [[?| ->]|(w & Hw & Hi)]; [by left| |].
        -- right. exists v. split; [apply elem_of_cons; by left|done].
        -- right. exists w. split; [apply elem_of_cons; by right|done].
      * intros [?|(w & [->|Hw]%elem_of_cons & Hi)]; [left; by left| |].
        -- left. right. congruence.
        -- right. by exists w.
  - destruct (IH out seen Hnd Hseen) as [H1 H2]. split; [done|].
    intros i. rewrite H2. split.
    + intros [?|(w & Hw & Hi)]; [by left|].
      right. exists w. split; [apply elem_of_cons; by right|done].
    + intros [?|(w & [->|Hw]%elem_of_cons & Hi)]; [by left|congruence|].
      right. by exists w.
Qed.

(** A sorted list without duplicates is strictly sorted. *)
Lemma StronglySorted_strict (R : Z → Z → Prop) l :
  StronglySorted R l → NoDup l → StronglySorted (λ a b, R a b ∧ a ≠ b) l.
Proof.
  induction 1 as [|x l Hs IH Hx]; intros Hnd; constructor.
  - apply IH. by apply NoDup_cons in Hnd as [_ ?].
  - apply NoDup_cons in Hnd as [Hni _].
    rewrite Forall_forall in Hx. apply Forall_forall. intros y Hy. split.
    + by apply Hx.
    + intros ->. done.
Qed.

Lemma StronglySorted_weaken {A} (R S : A → A → Prop) l :
  (∀ a b, R a b → S a b) → StronglySorted R l → StronglySorted S l.
Proof.
  intros HRS. induction 1 as [|x l Hs IH Hx]; constructor; [done|].
  eapply Forall_impl; [done|]. intros y. apply HRS.
Qed.

(** Reading a sorted list backwards turns the order around. *)
Lemma StronglySorted_reverse {A} (R : A → A → Prop) l :
  StronglySorted R l → StronglySorted (flip R) (reverse l).
Proof.
  induction 1 as [|x l Hs IH Hx]; [constructor|].
  rewrite reverse_cons. apply StronglySorted_app_2; [|done|repeat constructor].
  intros a b Ha ->%list_elem_of_singleton.
  rewrite elem_of_reverse in Ha. unfold flip. rewrite Forall_forall in Hx.
  by apply Hx.
Qed.

Lemma uniq_out_spec vals :
  NoDup (foldl uniq_turn ([], ∅) vals).1 ∧
  ∀ i, i ∈ (foldl uniq_turn ([], ∅) vals).1 ↔
       ∃ v, v ∈ vals ∧ Py.int_ v = Ok i.
Proof.
  destruct (uniq_turn_invariant vals [] ∅) as [H1 H2].
  { constructor. }
  { intros i. rewrite elem_of_nil. set_solver. }
  split; [done|]. intros i. rewrite H2. split; [|by right].
  intros [H|H]; [by apply elem_of_nil in H|done].
Qed.

(** The result of [_uniq_sorted_int]: its members, and no duplicates. *)
Lemma uniq_sorted_members vals desc :
  (∀ i, i ∈ _uniq_sorted_int vals desc ↔
        ∃ v, v ∈ vals ∧ Py.int_ v = Ok i) ∧
  NoDup (_uniq_sorted_int vals desc).
Proof.
  destruct (uniq_out_spec vals) as [Hnd Hmem]. unfold _uniq_sorted_int.
  cbv zeta. destruct desc.
  - split; [|by rewrite sort_desc_Permutation].
    intros i. by rewrite elem_of_sort_desc.
  - split; [|by rewrite merge_sort_Permutation].
    intros i. by rewrite merge_sort_Permutation.
Qed.

Lemma uniq_sorted_strict vals (desc : bool) :
  StronglySorted (λ a b : Z, if desc then b < a else a < b)
    (_uniq_sorted_int vals desc).
Proof.
  destruct (uniq_sorted_members vals desc) as [_ Hnd]. revert Hnd.
  unfold _uniq_sorted_int. cbv zeta. destruct desc; intros Hnd.
  - eapply StronglySorted_weaken;
      [|apply StronglySorted_strict; [apply (sort_desc_sorted id)|done]].
    unfold id. intros a b. simpl. lia.
  - eapply StronglySorted_weaken;
      [|apply StronglySorted_strict;
        [apply (StronglySorted_merge_sort Z.le)|done]].
    intros a b. simpl. lia.
Qed.

(** X1. [_uniq_sorted_int] returns exactly the integers that the values
    convert to under [int], each once, whatever the other values are; the
    result is strictly ascending, and strictly descending with [desc]. *)
Theorem uniq_sorted_int_distinct_sorted vals desc :
  (∀ i, i ∈ _uniq_sorted_int vals desc ↔
        ∃ v, v ∈ vals ∧ Py.int_ v = Ok i) ∧
  NoDup (_uniq_sorted_int vals desc) ∧
  StronglySorted (λ a b : Z, if desc then b < a else a < b)
    (_uniq_sorted_int vals desc).
Proof.
  destruct (uniq_sorted_members vals desc) as [Hm Hnd].
  split_and!; [done..|]. apply uniq_sorted_strict.
Qed.

(** Sorting integers in descending order gives the ascending order read
    backwards. *)
Lemma sort_desc_reverse_merge_sort (l : list Z) :
  sort_desc id l = reverse (merge_sort Z.le l).
Proof.
  assert (AntiSymm (=) (λ a b : Z, b ≤ a)) as Hanti.
  { intros a b ??. lia. }
  apply (StronglySorted_unique (λ a b : Z, b ≤ a)).
  - apply (sort_desc_sorted id).
  - apply (StronglySorted_reverse Z.le).
    apply (StronglySorted_merge_sort Z.le).
  - by rewrite sort_desc_Permutation, reverse_Permutation,
      merge_sort_Permutation.
Qed.

(** X2. With [desc] the result of [_uniq_sorted_int] is the ascending
    result read backwards, and the other way round. *)
Theorem uniq_sorted_int_desc_reverse vals :
  _uniq_sorted_int vals true = reverse (_uniq_sorted_int vals false) ∧
  _uniq_sorted_int vals false = reverse (_uniq_sorted_int vals true).
Proof.
  unfold _uniq_sorted_int. cbv zeta.
  rewrite sort_desc_reverse_merge_sort. by rewrite reverse_involutive.
Qed.

(** Two strictly ascending lists with the same members are equal. *)
Lemma sorted_same_members (l1 l2 : list Z) :
  NoDup l1 → NoDup l2 → (∀ i, i ∈ l1 ↔ i ∈ l2) →
  StronglySorted Z.le l1 → StronglySorted Z.le l2 → l1 = l2.
Proof.
  intros H1 H2 Hm S1 S2.
  apply (StronglySorted_unique Z.le); [done..|].
  by apply NoDup_Permutation.
Qed.

(** Values that convert to the same integers give the same result. *)
Lemma uniq_sorted_int_same_members vals1 vals2 desc :
  (∀ i, (∃ v, v ∈ vals1 ∧ Py.int_ v = Ok i) ↔
        (∃ v, v ∈ vals2 ∧ Py.int_ v = Ok i)) →
  _uniq_sorted_int vals1 desc = _uniq_sorted_int vals2 desc.
Proof.
  intros Hsame.
  assert (_uniq_sorted_int vals1 false = _uniq_sorted_int vals2 false) as Hasc.
  { destruct (uniq_out_spec vals1) as [Hnd1 Hm1].
    destruct (uniq_out_spec vals2) as [Hnd2 Hm2].
    unfold _uniq_sorted_int. cbv zeta.
    apply sorted_same_members.
    - by rewrite merge_sort_Permutation.
    - by rewrite merge_sort_Permutation.
    - intros i. by rewrite !merge_sort_Permutation, Hm1, Hm2.
    - apply (StronglySorted_merge_sort Z.le).
    - apply (StronglySorted_merge_sort Z.le). }
  destruct desc; [|done]. revert Hasc. unfold _uniq_sorted_int. cbv zeta.
  rewrite !sort_desc_reverse_merge_sort. by intros ->.
Qed.

(** X3. The result of [_uniq_sorted_int] depends only on which integers
    occur among the values: neither the order of the values, nor
    repetitions, nor values that do not convert change it. *)
Theorem uniq_sorted_int_set_determined vals1 vals2 desc :
  (∀ i, (∃ v, v ∈ vals1 ∧ Py.int_ v = Ok i) ↔
        (∃ v, v ∈ vals2 ∧ Py.int_ v = Ok i)) →
  _uniq_sorted_int vals1 desc = _uniq_sorted_int vals2 desc.
Proof. apply uniq_sorted_int_same_members. Qed.

Ltac is_member :=
  solve [repeat first [apply list_elem_of_here | apply list_elem_of_further]].

(** X3 at work: seasons given as integers, as text, as a float and as a
    boolean, with repetitions, next to the same seasons given once. *)
Lemma uniq_sorted_int_set_determined_witness :
  _uniq_sorted_int
    [VStr "2023"; VInt 2021; VNone; VStr "x"; VInt 2023; VFloat 2022.5;
     VStr " 2021 "] true
  = _uniq_sorted_int [VInt 2021; VInt 2022; VInt 2023] true.
Proof.
  apply uniq_sorted_int_set_determined.
  intros i. split; intros (v & Hv & Hi);
    repeat (apply elem_of_cons in Hv as [->|Hv]);
    try (by apply elem_of_nil in Hv);
    vm_compute in Hi; try discriminate Hi; injection Hi as <-;
    first
      [ exists (VInt 2021); split; [is_member|vm_compute; reflexivity]
      | exists (VInt 2022); split; [is_member|vm_compute; reflexivity]
      | exists (VFloat 2022.5); split; [is_member|vm_compute; reflexivity]
      | exists (VInt 2023); split; [is_member|vm_compute; reflexivity] ].
Defined.

(** ** Filter options and table summary *)

(** X4. [options] and [summary] over any client.  The seasons of [options]
    are the integers the season column of the fetched games converts to,
    each once and strictly descending; its weeks likewise, strictly
    ascending; its teams are the abbreviations of the fetched team rows
    that are strings, and nothing else.  The seasons of [summary] are the
    integers of its own fetch, each once and strictly ascending, and its
    three counts are what the client counts. *)
Theorem options_summary_lists sb_select sb_count :
  (∀ i, i ∈ op_seasons (options sb_select) ↔
        ∃ g, g ∈ sb_select "nfl_games" "season,week" []
                   (Some "season.desc,week.asc") 5000 ∧
             Py.int_ (get g "season") = Ok i) ∧
  StronglySorted (λ a b, b < a) (op_seasons (options sb_select)) ∧
  (∀ i, i ∈ op_weeks (options sb_select) ↔
        ∃ g, g ∈ sb_select "nfl_games" "season,week" []
                   (Some "season.desc,week.asc") 5000 ∧
             Py.int_ (get g "week") = Ok i) ∧
  StronglySorted (λ a b, a < b) (op_weeks (options sb_select)) ∧
  (∀ a, a ∈ op_teams (options sb_select) ↔
        ∃ t, t ∈ sb_select "nfl_teams" "abbreviation" []
                   (Some "abbreviation.asc") 1000 ∧
             get t "abbreviation" = VStr a) ∧
  (∀ i, i ∈ sm_seasons (summary sb_select sb_count) ↔
        ∃ r, r ∈ sb_select "nfl_games" "season" [] (Some "season.asc") 5000 ∧
             Py.int_ (get r "season") = Ok i) ∧
  StronglySorted (λ a b, a < b) (sm_seasons (summary sb_select sb_count)) ∧
  sm_games (summary sb_select sb_count) = sb_count "nfl_games" ∧
  sm_players (summary sb_select sb_count) = sb_count "nfl_players" ∧
  sm_teams (summary sb_select sb_count) = sb_count "nfl_teams".
Proof.
  assert (∀ (k : string) (rows : list row) i,
            (∃ v, v ∈ (λ g, get g k) <$> rows ∧ Py.int_ v = Ok i) ↔
            (∃ g, g ∈ rows ∧ Py.int_ (get g k) = Ok i)) as Hcol.
  { intros k rows i. split.
    - intros (v & (g & -> & Hg)%list_elem_of_fmap & Hi). by exists g.
    - intros (g & Hg & Hi). exists (get g k).
      split; [|done]. apply list_elem_of_fmap. by exists g. }
  unfold options, summary. cbn [op_seasons op_weeks op_teams sm_seasons
                                  sm_games sm_players sm_teams].
  split_and!; try reflexivity.
  - intros i.
    destruct (uniq_out_spec ((λ g, get g "season") <$>
                sb_select "nfl_games" "season,week" []
                  (Some "season.desc,week.asc") 5000)) as [_ Hm].
    unfold _uniq_sorted_int. cbv zeta.
    by rewrite elem_of_sort_desc, Hm, Hcol.
  - apply (uniq_sorted_strict _ true).
  - intros i.
    destruct (uniq_out_spec ((λ g, get g "week") <$>
                sb_select "nfl_games" "season,week" []
                  (Some "season.desc,week.asc") 5000)) as [_ Hm].
    unfold _uniq_sorted_int. cbv zeta.
    by rewrite merge_sort_Permutation, Hm, Hcol.
  - apply (uniq_sorted_strict _ false).
  - intros a. rewrite list_elem_of_omap. split.
    + intros (t & Ht & Ha). exists t. split; [done|].
      destruct (get t "abbreviation"); congruence.
    + intros (t & Ht & Ha). exists t. split; [done|]. by rewrite Ha.
  - intros i.
    destruct (uniq_out_spec ((λ g, get g "season") <$>
                sb_select "nfl_games" "season" []
                  (Some "season.asc") 5000)) as [_ Hm].
    unfold _uniq_sorted_int. cbv zeta.
    by rewrite merge_sort_Permutation, Hm, Hcol.
  - apply (uniq_sorted_strict _ false).
Qed.

(** X5. When the two fetches of the games table show the same seasons,
    [options] lists the seasons of [summary] in reverse order. *)
Theorem options_seasons_reverse_of_summary sb_select sb_count :
  (∀ i,
     (∃ g, g ∈ sb_select "nfl_games" "season,week" []
                 (Some "season.desc,week.asc") 5000 ∧
           Py.int_ (get g "season") = Ok i) ↔
     (∃ r, r ∈ sb_select "nfl_games" "season" [] (Some "season.asc") 5000 ∧
           Py.int_ (get r "season") = Ok i)) →
  op_seasons (options sb_select) =
  reverse (sm_seasons (summary sb_select sb_count)).
Proof.
  intros Hsame. unfold options, summary. cbn [op_seasons sm_seasons].
  rewrite (uniq_sorted_int_same_members _
             ((λ r, get r "season") <$>
                sb_select "nfl_games" "season" [] (Some "season.asc") 5000)).
  { unfold _uniq_sorted_int. cbv zeta. apply sort_desc_reverse_merge_sort. }
  intros i. split.
  - intros (v & (g & -> & Hg)%list_elem_of_fmap & Hi).
    destruct (proj1 (Hsame i)) as (r & Hr & Hri); [by exists g|].
    exists (get r "season"). split; [|done].
    apply list_elem_of_fmap. by exists r.
  - intros (v & (r & -> & Hr)%list_elem_of_fmap & Hi).
    destruct (proj2 (Hsame i)) as (g & Hg & Hgi); [by exists r|].
    exists (get g "season"). split; [|done].
    apply list_elem_of_fmap. by exists g.
Qed.

(** X5 on the sample schedule: the seasons 2021 (given as text), 2022 and
    2023. *)
Lemma options_seasons_reverse_witness :
  op_seasons (options (Mem.select Sample.schedule_db)) = [2023; 2022; 2021] ∧
  op_seasons (options (Mem.select Sample.schedule_db)) =
  reverse (sm_seasons (summary (Mem.select Sample.schedule_db)
                         (λ t, Z.of_nat (length (Mem.table Sample.schedule_db
                                                   t))))).
Proof.
  split; [vm_compute; reflexivity|].
  apply options_seasons_reverse_of_summary.
  intros i. split; intros (g & Hg & Hi); vm_compute in Hg;
    repeat (apply elem_of_cons in Hg as [->|Hg]);
    try (by apply elem_of_nil in Hg);
    vm_compute in Hi; try discriminate Hi; injection Hi as <-;
    first
      [ exists [("season", VInt 2022)]; split;
          [vm_compute; is_member|vm_compute; reflexivity]
      | exists [("season", VInt 2023)]; split;
          [vm_compute; is_member|vm_compute; reflexivity]
      | exists [("season", VStr "2021")]; split;
          [vm_compute; is_member|vm_compute; reflexivity]
      | exists [("season", VInt 2022); ("week", VInt 1)]; split;
          [vm_compute; is_member|vm_compute; reflexivity]
      | exists [("season", VInt 2023); ("week", VInt 2)]; split;
          [vm_compute; is_member|vm_compute; reflexivity]
      | exists [("season", VStr "2021"); ("week", VInt 1)]; split;
          [vm_compute; is_member|vm_compute; reflexivity] ].
Defined.

(** ** Identifiers as text

    The pipelines print an integer id with [str] and read it back with
    [int]: the player id of a row of the season list is the argument of the
    game log. *)

Lemma _safe_int_of_int i : _safe_int (VStr (PyStr.of_int i)) = Some i.
Proof.
  apply _safe_int_Some. simpl. by rewrite parse_int_of_int.
Qed.

(** A number below [10 ^ k] is printed with at most [k] digits. *)
Lemma pretty_N_go_length k x s :
  (x < 10 ^ N.of_nat k)%N →
  (String.length (pretty_N_go x s) ≤ k + String.length s)%nat.
Proof.
  revert x s. induction k as [|k IH]; intros x s Hx.
  - assert (x = 0%N) as -> by (simpl in Hx; lia).
    rewrite pretty_N_go_0. lia.
  - destruct (decide (x = 0)%N) as [-> | Hx0];
      [rewrite pretty_N_go_0; lia|].
    rewrite pretty_N_go_step by lia.
    etrans; [apply IH|simpl; lia].
    rewrite Nat2N.inj_succ, N.pow_succ_r' in Hx.
    apply N.Div0.div_lt_upper_bound. lia.
Qed.

(** X6. An integer of at most 4300 digits, the most the interpreter prints
    and reads, is printed with at most that many digits, and printed with
    [str] and read back with [int] or [_safe_int] it is the same integer,
    whatever its sign; the text is never empty, so [_safe_int] never takes
    it for a missing value. *)
Theorem int_of_str_of_int i :
  Z.abs i < 10 ^ PyStr.int_max_str_digits →
  Z.of_nat (String.length (Py.str_ (VInt (Z.abs i))))
    ≤ PyStr.int_max_str_digits ∧
  Py.int_ (VStr (Py.str_ (VInt i))) = Ok i ∧
  _safe_int (VStr (Py.str_ (VInt i))) = Some i ∧
  Py.str_ (VInt i) ≠ EmptyString.
Proof.
  intros Hi. split_and!.
  - cbn [Py.str_]. rewrite of_int_unfold.
    destruct (Z.abs i) as [|p|p] eqn:Ep; [done| |lia].
    pose (k := Z.to_nat PyStr.int_max_str_digits).
    assert (Z.of_nat k = PyStr.int_max_str_digits) as Hk
      by (by apply Z2Nat.id).
    clearbody k.
    pose proof (pretty_N_go_length k (Npos p) EmptyString) as H.
    cbn [String.length] in H.
    enough (String.length (pretty_N_go (Npos p) EmptyString) ≤ k)%nat
      by lia.
    etrans; [apply H|lia].
    apply N2Z.inj_lt. rewrite N2Z.inj_pow, nat_N_Z, Hk. exact Hi.
  - simpl. by rewrite parse_int_of_int.
  - apply _safe_int_of_int.
  - apply of_int_nonempty.
Qed.

(** X6 at an id of ordinary size. *)
Lemma int_of_str_of_int_witness :
  Z.abs (-1024) < 10 ^ PyStr.int_max_str_digits ∧
  Py.int_ (VStr "-1024") = Ok (-1024) ∧
  _safe_int (VStr "-1024") = Some (-1024).
Proof.
  assert (Z.abs (-1024) < 10 ^ PyStr.int_max_str_digits) as H
    by (vm_compute; reflexivity).
  split; [exact H|].
  destruct (int_of_str_of_int (-1024) H) as (_ & H1 & H2 & _).
  split; [exact H1|exact H2].
Defined.

(** ** The season list: identifiers, filters, display fields and errors *)

Section SeasonListMore.

Variable sb_select :
  string → string → list (string * string) → option string → Z → list row.
Variable photo : string → option string → option string.

(** A row of the season list is the row some turn of the loop appended,
    with the lookups and filters of the call. *)
Lemma players_list_row_entry season position team limit out o :
  get_players_list sb_select photo season position team limit = Ok out →
  o ∈ out →
  ∃ s0 s team_ids,
    season = Some s0 ∧
    s ∈ season_stats_rows sb_select s0 ∧
    player_team_ids
      (season_players sb_select
         (omap (λ r, _safe_int (get r "player_id"))
            (season_stats_rows sb_select s0))) = Ok team_ids ∧
    list_entry photo s0
      (player_map_of
         (season_players sb_select
            (omap (λ r, _safe_int (get r "player_id"))
               (season_stats_rows sb_select s0))))
      (_team_map sb_select team_ids)
      (PyStr.upper (PyStr.strip (default EmptyString position)))
      (team_id_of sb_select team) s = Ok (Some o).
Proof.
  intros Hout Ho. unfold get_players_list in Hout.
  destruct season as [s0|].
  2:{ injection Hout as <-. by apply elem_of_nil in Ho. }
  exists s0.
  destruct (season_stats_rows sb_select s0) as [|r rs] eqn:Es.
  { injection Hout as <-. by apply elem_of_nil in Ho. }
  destruct (omap _ (r :: rs)) eqn:Eo.
  { injection Hout as <-. by apply elem_of_nil in Ho. }
  rewrite <- Eo. clear Eo. rewrite <- Es in *. clear Es.
  destruct (list_rows _ _ _ _ _ _) as [rows|] eqn:El; [|done].
  cbn [mbind result_bind] in Hout. injection Hout as <-.
  apply elem_of_truncate_sort in Ho.
  apply list_rows_context in El as (team_ids & Hids & Hc).
  apply (collectR_elem_of _ _ _ o Hc) in Ho as (s & Hs & He).
  by exists s, team_ids.
Qed.

(** The display fields a turn of the loop computes. *)
Lemma list_entry_display season pm tm pf tf s o :
  list_entry photo season pm tm pf tf s = Ok (Some o) →
  pl_player_name o ≠ EmptyString ∧
  average (pl_receivingYards o) (pl_receptions o)
    = Ok (pl_avgYardsPerCatch o) ∧
  average (pl_rushingYards o) (pl_rushAttempts o)
    = Ok (pl_avgYardsPerRush o).
Proof.
  unfold list_entry.
  destruct (_safe_int (get s "player_id")) as [pid|] eqn:Epid; [|done].
  destruct (pm !! pid) as [p|] eqn:Ep; [|done].
  destruct (Py.empty_dict p); [done|].
  destruct (Py.strip (Py.or_ (get p "position_abbreviation") _))
    as [pos0|]; simpl; [|done].
  destruct (negb (String.eqb pf EmptyString)
            && negb (String.eqb (PyStr.upper pos0) pf)) eqn:Epf; [done|].
  destruct (match tf with Some t => _ | None => false end) eqn:Etf; [done|].
  destruct (Py.strip (Py.or_ (get p "first_name") _))
    as [first|]; simpl; [|done].
  destruct (Py.strip (Py.or_ (get p "last_name") _))
    as [last|]; simpl; [|done].
  destruct (average (Py.or_zero (_safe_int (get s "receiving_yards"))) _)
    as [ypc|] eqn:Eypc; simpl; [|done].
  destruct (average (Py.or_zero (_safe_int (get s "rushing_yards"))) _)
    as [ypr|] eqn:Eypr; simpl; [|done].
  intros [= <-]. simpl. split_and!; [|done..].
  destruct (String.eqb (PyStr.strip (first +:+ " " +:+ last)) EmptyString)
    eqn:E.
  - apply of_int_nonempty.
  - by apply String_eqb_false in E.
Qed.

(** X7. The player id of a row of the season list is the text of the
    integer player id of a fetched stat row, and [_safe_int] reads that
    integer back from it: the game log, given the id, does not take it for
    a malformed one. *)
Theorem season_list_player_id_reads_back
    season position team limit out o :
  get_players_list sb_select photo season position team limit = Ok out →
  o ∈ out →
  ∃ s0 s pid,
    season = Some s0 ∧ s ∈ season_stats_rows sb_select s0 ∧
    _safe_int (get s "player_id") = Some pid ∧
    pl_player_id o = PyStr.of_int pid ∧
    _safe_int (VStr (pl_player_id o)) = Some pid.
Proof.
  intros Hout Ho.
  destruct (players_list_row_entry _ _ _ _ _ _ Hout Ho)
    as (s0 & s & ids & -> & Hs & _ & He).
  apply list_entry_Some in He as (pid & p & pos & Hpid & _ & _ & _ & _ & Hid & _).
  exists s0, s, pid. split_and!; try done.
  rewrite Hid. apply _safe_int_of_int.
Qed.


(** X9. When the team argument resolves to a team id, every row of the
    season list is the row of a fetched player whose team id is that id,
    and all rows show the same team. *)
Theorem season_list_team_filter season position team limit out t :
  team_id_of sb_select team = Some t →
  get_players_list sb_select photo (Some season) position team limit
    = Ok out →
  (∀ o, o ∈ out →
     ∃ pid p,
       pl_player_id o = PyStr.of_int pid ∧
       player_map_of
         (season_players sb_select
            (omap (λ r, _safe_int (get r "player_id"))
               (season_stats_rows sb_select season))) !! pid = Some p ∧
       _safe_int (get p "team_id") = Some t) ∧
  (∀ o1 o2, o1 ∈ out → o2 ∈ out → pl_team o1 = pl_team o2).
Proof.
  intros Ht Hout.
  assert (∀ o, o ∈ out →
            ∃ pid p team_ids,
              pl_player_id o = PyStr.of_int pid ∧
              player_map_of
                (season_players sb_select
                   (omap (λ r, _safe_int (get r "player_id"))
                      (season_stats_rows sb_select season))) !! pid = Some p ∧
              _safe_int (get p "team_id") = Some t ∧
              player_team_ids
                (season_players sb_select
                   (omap (λ r, _safe_int (get r "player_id"))
                      (season_stats_rows sb_select season))) = Ok team_ids ∧
              pl_team o = _team_map sb_select team_ids !! t) as Hrow.
  { intros o Ho.
    destruct (players_list_row_entry _ _ _ _ _ _ Hout Ho)
      as (s0 & s & ids & [= <-] & Hs & Hids & He).
    apply list_entry_Some in He
      as (pid & p & pos & _ & Hp & _ & _ & Htid & Hid & _ & Hteam & _).
    exists pid, p, ids. rewrite Hteam, (Htid t Ht). done. }
  split.
  - intros o Ho. destruct (Hrow o Ho) as (pid & p & _ & ? & ? & ? & _).
    by exists pid, p.
  - intros o1 o2 H1 H2.
    destruct (Hrow o1 H1) as (_ & _ & ids1 & _ & _ & _ & Hi1 & ->).
    destruct (Hrow o2 H2) as (_ & _ & ids2 & _ & _ & _ & Hi2 & ->).
    congruence.
Qed.

(** X10. A team argument that resolves to no team id (no such
    abbreviation, or a team row whose id is not an integer) does not
    filter: the season list is the list for no team argument. *)
Theorem season_list_unknown_team_unfiltered season position team limit :
  team_id_of sb_select team = None →
  get_players_list sb_select photo season position team limit =
  get_players_list sb_select photo season position None limit.
Proof.
  intros Ht. unfold get_players_list, list_rows. by rewrite Ht.
Qed.

(** X11. No row of the season list has an empty name, and a position that
    is not null is a non-empty upper-case text. *)
Theorem season_list_name_and_position
    season position team limit out o :
  get_players_list sb_select photo season position team limit = Ok out →
  o ∈ out →
  pl_player_name o ≠ EmptyString ∧
  ∀ pos, pl_position o = Some pos →
         pos ≠ EmptyString ∧ PyStr.upper pos = pos.
Proof.
  intros Hout Ho.
  destruct (players_list_row_entry _ _ _ _ _ _ Hout Ho)
    as (s0 & s & ids & -> & Hs & _ & He).
  split; [by apply list_entry_display in He as [? _]|].
  apply list_entry_Some in He
    as (pid & p & pos & _ & _ & Hup & _ & _ & _ & Hpos & _).
  intros pos' Hpos'. rewrite Hpos in Hpos'.
  destruct (String.eqb pos EmptyString) eqn:E; [done|].
  injection Hpos' as <-. by apply String_eqb_false in E.
Qed.

(** X12. The two averages of a row of the season list: exactly 0.0 when
    the row has no reception (no rushing attempt), without any division,
    and else the quotient of the two counts taken as floats. *)
Theorem season_list_averages season position team limit out o :
  get_players_list sb_select photo season position team limit = Ok out →
  o ∈ out →
  (pl_receptions o = 0 → pl_avgYardsPerCatch o = 0%float) ∧
  (pl_receptions o ≠ 0 →
   ∃ a b, PyFloat.of_int (pl_receivingYards o) = Ok a ∧
          PyFloat.of_int (pl_receptions o) = Ok b ∧
          pl_avgYardsPerCatch o = (a / b)%float) ∧
  (pl_rushAttempts o = 0 → pl_avgYardsPerRush o = 0%float) ∧
  (pl_rushAttempts o ≠ 0 →
   ∃ a b, PyFloat.of_int (pl_rushingYards o) = Ok a ∧
          PyFloat.of_int (pl_rushAttempts o) = Ok b ∧
          pl_avgYardsPerRush o = (a / b)%float).
Proof.
  intros Hout Ho.
  destruct (players_list_row_entry _ _ _ _ _ _ Hout Ho)
    as (s0 & s & ids & -> & Hs & _ & He).
  apply list_entry_display in He as (_ & Hc & Hr).
  assert (∀ total count avg,
            average total count = Ok avg →
            (count = 0 → avg = 0%float) ∧
            (count ≠ 0 →
             ∃ a b, PyFloat.of_int total = Ok a ∧
                    PyFloat.of_int count = Ok b ∧ avg = (a / b)%float))
    as Havg.
  { intros total count avg. unfold average.
    destruct (count =? 0) eqn:E.
    - apply Z.eqb_eq in E. intros [= <-]. by split.
    - apply Z.eqb_neq in E.
      destruct (PyFloat.of_int total) as [a|]; [|done].
      destruct (PyFloat.of_int count) as [b|]; [|done].
      cbn [mbind result_bind]. intros [= <-]. split; [done|].
      intros _. by exists a, b. }
  destruct (Havg _ _ _ Hc) as [? ?]. destruct (Havg _ _ _ Hr) as [? ?].
  done.
Qed.

Lemma player_team_ids_Raise players p e :
  p ∈ players → Py.present (get p "team_id") = true →
  Py.int_ (get p "team_id") = Raise e →
  ∃ e', player_team_ids players = Raise e'.
Proof.
  intros Hp Hpr He. unfold player_team_ids.
  destruct (mapR_Raise (λ p, v ← Py.item p "team_id"; Py.int_ v)
              (filter (λ p, Py.present (get p "team_id") = true) players) p e)
    as [e' ->].
  - by apply list_elem_of_filter.
  - rewrite item_get_present by done. done.
  - by eexists.
Qed.

(** X13. The conversion of the team ids of the fetched players is outside
    any [try]: when the season has a stat row with an integer player id,
    one fetched player whose team id is present but does not convert makes
    the season list raise, and the two season summaries with it. *)
Theorem season_list_unguarded_team_id season position team limit p e :
  omap (λ r, _safe_int (get r "player_id"))
    (season_stats_rows sb_select season) ≠ [] →
  p ∈ season_players sb_select
        (omap (λ r, _safe_int (get r "player_id"))
           (season_stats_rows sb_select season)) →
  Py.present (get p "team_id") = true →
  Py.int_ (get p "team_id") = Raise e →
  (∃ e', get_players_list sb_select photo (Some season) position team limit
         = Raise e') ∧
  (∃ e', receiving_season sb_select photo season team limit = Raise e') ∧
  (∃ e', rushing_season sb_select photo season team limit = Raise e').
Proof.
  intros Hne Hp Hpr He.
  assert (∀ position limit,
            ∃ e', get_players_list sb_select photo (Some season) position
                    team limit = Raise e') as Hlist.
  { intros position' limit'. unfold get_players_list.
    destruct (season_stats_rows sb_select season) as [|r rs] eqn:Es; [done|].
    destruct (omap _ (r :: rs)) as [|i l] eqn:Eo; [done|].
    rewrite <- Eo in *. clear Eo. rewrite <- Es in *. clear Es.
    unfold list_rows.
    destruct (player_team_ids_Raise _ p e Hp Hpr He) as [e' ->].
    by exists e'. }
  split; [apply Hlist|].
  unfold receiving_season, rushing_season.
  destruct (Hlist None 8000) as [e' ->]. split; by exists e'.
Qed.

End SeasonListMore.

(** X7 on the sample season: both listed ids read back. *)
Lemma season_list_player_id_witness :
  ∃ out,
    get_players_list (Mem.select Sample.season_db) Mem.no_photo
      (Some 2023) None None 50 = Ok out ∧
    pl_player_id <$> out = ["1"; "2"] ∧
    Forall (λ o, ∃ pid, pl_player_id o = PyStr.of_int pid ∧
                        _safe_int (VStr (pl_player_id o)) = Some pid) out.
Proof.
  eexists. split; [vm_compute; reflexivity|]. split; [reflexivity|].
  apply Forall_forall. intros o Ho.
  destruct (season_list_player_id_reads_back
              (Mem.select Sample.season_db) Mem.no_photo
              (Some 2023) None None 50 _ o ltac:(vm_compute; reflexivity) Ho)
    as (s0 & s & pid & _ & _ & _ & Hid & Hback).
  exists pid. split; [exact Hid|exact Hback].
Defined.


(** X9 on the sample season: team "SF" resolves to team 2, and the list
    holds the rusher of that team. *)
Lemma season_list_team_witness :
  ∃ out,
    team_id_of (Mem.select Sample.season_db) (Some "SF") = Some 2 ∧
    get_players_list (Mem.select Sample.season_db) Mem.no_photo
      (Some 2023) None (Some "SF") 50 = Ok out ∧
    pl_player_name <$> out = ["Ben Baker"] ∧
    ∀ o1 o2, o1 ∈ out → o2 ∈ out → pl_team o1 = pl_team o2.
Proof.
  eexists. split; [vm_compute; reflexivity|].
  split; [vm_compute; reflexivity|]. split; [reflexivity|].
  exact (proj2 (season_list_team_filter
                  (Mem.select Sample.season_db) Mem.no_photo
                  2023 None (Some "SF") 50 _ 2
                  ltac:(vm_compute; reflexivity)
                  ltac:(vm_compute; reflexivity))).
Defined.

(** X10 on the sample season: no team is called "XX", and the list is the
    whole list. *)
Lemma season_list_unknown_team_witness :
  team_id_of (Mem.select Sample.season_db) (Some "XX") = None ∧
  get_players_list (Mem.select Sample.season_db) Mem.no_photo
    (Some 2023) None (Some "XX") 50 =
  get_players_list (Mem.select Sample.season_db) Mem.no_photo
    (Some 2023) None None 50.
Proof.
  split; [vm_compute; reflexivity|].
  apply season_list_unknown_team_unfiltered. vm_compute. reflexivity.
Defined.

(** X11 on the sample season. *)
Lemma season_list_name_witness :
  ∃ out,
    get_players_list (Mem.select Sample.season_db) Mem.no_photo
      (Some 2023) None None 50 = Ok out ∧
    pl_player_name <$> out = ["Alex Able"; "Ben Baker"] ∧
    Forall (λ o, pl_player_name o ≠ EmptyString) out.
Proof.
  eexists. split; [vm_compute; reflexivity|]. split; [reflexivity|].
  apply Forall_forall. intros o Ho.
  destruct (season_list_name_and_position
              (Mem.select Sample.season_db) Mem.no_photo
              (Some 2023) None None 50 _ o ltac:(vm_compute; reflexivity) Ho)
    as [Hname _].
  exact Hname.
Defined.

(** X12 on the sample season: the rusher has no reception, the receiver no
    rushing attempt. *)
Lemma season_list_averages_witness :
  ∃ out,
    get_players_list (Mem.select Sample.season_db) Mem.no_photo
      (Some 2023) None None 50 = Ok out ∧
    (λ o, (pl_receptions o, pl_rushAttempts o)) <$> out = [(10, 0); (0, 20)] ∧
    Forall (λ o, (pl_receptions o = 0 → pl_avgYardsPerCatch o = 0%float) ∧
                 (pl_rushAttempts o = 0 → pl_avgYardsPerRush o = 0%float))
      out.
Proof.
  eexists. split; [vm_compute; reflexivity|]. split; [reflexivity|].
  apply Forall_forall. intros o Ho.
  destruct (season_list_averages
              (Mem.select Sample.season_db) Mem.no_photo
              (Some 2023) None None 50 _ o ltac:(vm_compute; reflexivity) Ho)
    as (Hc & _ & Hr & _).
  split; [exact Hc|exact Hr].
Defined.

(** X13 on the sample season with the team of one player given as the text
    "SF". *)
Lemma season_list_unguarded_team_id_witness :
  (∃ e, get_players_list (Mem.select Sample.text_team_db) Mem.no_photo
          (Some 2023) None None 50 = Raise e) ∧
  get_players_list (Mem.select Sample.text_team_db) Mem.no_photo
    (Some 2023) None None 50 = Raise ValueError.
Proof.
  split; [|vm_compute; reflexivity].
  apply (season_list_unguarded_team_id
           (Mem.select Sample.text_team_db) Mem.no_photo 2023 None None 50
           (Sample.player 2 "Ben" "Baker" "RB" (VStr "SF")) ValueError).
  - vm_compute. discriminate.
  - vm_compute. apply elem_of_cons. right. apply elem_of_cons. left.
    reflexivity.
  - reflexivity.
  - vm_compute. reflexivity.
Defined.

(** ** Order of the rows returned *)

(** A loop that makes at most one row per input row keeps an order of the
    input rows that the rows made reflect. *)
Lemma StronglySorted_omap {A B} (R : A → A → Prop) (S : B → B → Prop)
    (f : A → option B) l :
  (∀ x y a b, f x = Some a → f y = Some b → R x y → S a b) →
  StronglySorted R l → StronglySorted S (omap f l).
Proof.
  intros Hf. induction 1 as [|x l Hs IH Hx]; csimpl; [constructor|].
  destruct (f x) as [a|] eqn:Ea; [|done]. constructor; [done|].
  apply Forall_forall. intros b (y & Hy & Hb)%list_elem_of_omap.
  rewrite Forall_forall in Hx. apply (Hf x y); [done|done|by apply Hx].
Qed.

Lemma log_entry_week season game_map tmap r o :
  log_entry season game_map tmap r = Some o →
  lg_week o = Py.or_zero (_safe_int (get r "week")) ∧
  ∃ gid, _safe_int (get r "game_id") = Some gid ∧
         lg_game_id o = PyStr.of_int gid.
Proof.
  unfold log_entry.
  destruct (_safe_int (get r "game_id")) as [gid|]; [|done].
  destruct (location_opponent _ _ _ _ _) as [location opp].
  intros [= <-]. simpl. split; [done|]. by exists gid.
Qed.

Lemma omap_log_entry_game_ids season game_map tmap (rows : list row) :
  lg_game_id <$> omap (log_entry season game_map tmap) rows =
  PyStr.of_int <$> omap (λ r, _safe_int (get r "game_id")) rows.
Proof.
  induction rows as [|r rows IH]; [done|]. csimpl.
  destruct (log_entry season game_map tmap r) as [o|] eqn:Eo.
  - apply log_entry_week in Eo as (_ & gid & -> & Hid). csimpl.
    by rewrite Hid, IH.
  - apply log_entry_None in Eo. by rewrite Eo.
Qed.

(** X14. The game log has one row for each fetched stat row with an
    integer game id, in the order of the fetch, showing that game id as
    text; so when the fetched rows come ordered by week, as the fetch
    asks, the log is ordered by week. *)
Theorem game_log_keeps_fetch_order
    sb_select player_id season pp out pid :
  _safe_int (VStr player_id) = Some pid →
  get_player_game_logs sb_select player_id season pp = Ok out →
  lg_game_id <$> out =
    PyStr.of_int <$>
      omap (λ r, _safe_int (get r "game_id"))
        (game_log_stats sb_select pid season pp) ∧
  (StronglySorted
     (λ a b, Py.or_zero (_safe_int (get a "week"))
             ≤ Py.or_zero (_safe_int (get b "week")))
     (game_log_stats sb_select pid season pp) →
   StronglySorted (λ a b, lg_week a ≤ lg_week b) out).
Proof.
  intros Hpid. unfold get_player_game_logs. rewrite Hpid.
  destruct (game_log_stats sb_select pid season pp) as [|r rs] eqn:Er.
  { intros [= <-]. split; [done|]. intros _. constructor. }
  rewrite <- Er. clear Er.
  destruct (game_ids_of _) as [ids|]; [|done].
  cbn [mbind result_bind]. intros H. injection H as <-. split.
  - apply omap_log_entry_game_ids.
  - apply StronglySorted_omap. intros x y a b Ha Hb Hxy.
    apply log_entry_week in Ha as [-> _].
    apply log_entry_week in Hb as [-> _]. done.
Qed.

(** Evaluation of a closed term in place, and sortedness of a list of
    concrete rows. *)
Ltac evaluate t :=
  let v := eval vm_compute in t in
  replace t with v by (vm_compute; reflexivity).

Ltac sorted_rows :=
  repeat match goal with
         | |- StronglySorted _ _ => constructor
         | |- Forall _ _ => constructor
         | |- _ => vm_compute; discriminate
         end.

(** X14 on the sample log of player 7: five of the six stat rows have an
    integer game id, and the weeks ascend. *)
Lemma game_log_keeps_fetch_order_witness :
  ∃ out,
    get_player_game_logs (Mem.select Sample.log_db) "7" 2023 false = Ok out ∧
    lg_game_id <$> out = ["100"; "101"; "102"; "103"; "100"] ∧
    StronglySorted (λ a b, lg_week a ≤ lg_week b) out.
Proof.
  eexists. split; [vm_compute; reflexivity|]. split; [reflexivity|].
  assert (StronglySorted
            (λ a b, Py.or_zero (_safe_int (get a "week"))
                    ≤ Py.or_zero (_safe_int (get b "week")))
            (game_log_stats (Mem.select Sample.log_db) 7 2023 false)) as Hs.
  { evaluate (game_log_stats (Mem.select Sample.log_db) 7 2023 false).
    sorted_rows. }
  exact (proj2 (game_log_keeps_fetch_order (Mem.select Sample.log_db)
                  "7" 2023 false _ 7 ltac:(vm_compute; reflexivity)
                  ltac:(vm_compute; reflexivity)) Hs).
Defined.

(** The display name of a dashboard row is never empty. *)
Lemma week_name_nonempty p pid : week_name p pid ≠ EmptyString.
Proof.
  unfold week_name.
  destruct (String.eqb _ EmptyString) eqn:E.
  - apply of_int_nonempty.
  - by apply String_eqb_false in E.
Qed.

Section DashboardMore.

Variable sb_select :
  string → string → list (string * string) → option string → Z → list row.
Variable photo : string → option string → option string.

Lemma receiving_entry_Some season week pmap tmap r o :
  receiving_entry photo season week pmap tmap r = Some o →
  ∃ pid,
    _safe_int (get r "player_id") = Some pid ∧
    rv_player_id o = PyStr.of_int pid ∧
    rv_player_name o = week_name (default [] (pmap !! pid)) pid ∧
    rv_targets o = Py.or_zero (_safe_int (get r "receiving_targets")) ∧
    rv_season o = season ∧ rv_week o = week.
Proof.
  unfold receiving_entry.
  destruct (_safe_int (get r "player_id")) as [pid|]; [|done].
  intros [= <-]. by exists pid.
Qed.

Lemma rushing_entry_Some season week pmap tmap r o :
  rushing_entry photo season week pmap tmap r = Some o →
  ∃ pid,
    _safe_int (get r "player_id") = Some pid ∧
    ru_player_id o = PyStr.of_int pid ∧
    ru_player_name o = week_name (default [] (pmap !! pid)) pid ∧
    ru_rush_yards o = Py.or_zero (_safe_int (get r "rushing_yards")) ∧
    ru_season o = season ∧ ru_week o = week.
Proof.
  unfold rushing_entry.
  destruct (_safe_int (get r "player_id")) as [pid|]; [|done].
  intros [= <-]. by exists pid.
Qed.

(** X15. Both weekly dashboards come ranked: the receiving dashboard by
    targets, the rushing dashboard by rushing yards, highest first, for
    every client, team argument and limit. *)
Theorem dashboards_ranked season week team limit :
  StronglySorted (λ a b, rv_targets b ≤ rv_targets a)
    (receiving_dashboard sb_select photo season week team limit) ∧
  StronglySorted (λ a b, ru_rush_yards b ≤ ru_rush_yards a)
    (rushing_dashboard sb_select photo season week team limit).
Proof.
  split.
  - unfold receiving_dashboard. cbv zeta.
    eapply StronglySorted_omap; [|apply truncate_sorted].
    intros x y a b Ha Hb Hxy. simpl in Hxy.
    apply receiving_entry_Some in Ha as (_ & _ & _ & _ & -> & _).
    apply receiving_entry_Some in Hb as (_ & _ & _ & _ & -> & _). done.
  - unfold rushing_dashboard. cbv zeta.
    eapply StronglySorted_omap; [|apply truncate_sorted].
    intros x y a b Ha Hb Hxy. simpl in Hxy.
    apply rushing_entry_Some in Ha as (_ & _ & _ & _ & -> & _).
    apply rushing_entry_Some in Hb as (_ & _ & _ & _ & -> & _). done.
Qed.

(** X16. Every row of a weekly dashboard carries the season and week
    asked for, a name that is not empty, and as player id the text of the
    integer player id of a fetched stat row, which [_safe_int] reads
    back. *)
Theorem dashboards_rows_identified season week team limit :
  Forall (λ o,
            rv_season o = season ∧ rv_week o = week ∧
            rv_player_name o ≠ EmptyString ∧
            ∃ r pid,
              r ∈ sb_select "nfl_player_game_stats" receiving_columns
                    (week_filters sb_select season week team) None 5000 ∧
              _safe_int (get r "player_id") = Some pid ∧
              _safe_int (VStr (rv_player_id o)) = Some pid)
    (receiving_dashboard sb_select photo season week team limit) ∧
  Forall (λ o,
            ru_season o = season ∧ ru_week o = week ∧
            ru_player_name o ≠ EmptyString ∧
            ∃ r pid,
              r ∈ sb_select "nfl_player_game_stats" rushing_columns
                    (week_filters sb_select season week team) None 5000 ∧
              _safe_int (get r "player_id") = Some pid ∧
              _safe_int (VStr (ru_player_id o)) = Some pid)
    (rushing_dashboard sb_select photo season week team limit).
Proof.
  split; apply Forall_forall; intros o (r & Hr & Ho)%list_elem_of_omap.
  - apply elem_of_week_stats in Hr.
    apply receiving_entry_Some in Ho as (pid & Hpid & Hid & Hname & _ & ? & ?).
    split_and!; [done|done|rewrite Hname; apply week_name_nonempty|].
    exists r, pid. split_and!; [done..|]. rewrite Hid.
    apply _safe_int_of_int.
  - apply elem_of_week_stats in Hr.
    apply rushing_entry_Some in Ho as (pid & Hpid & Hid & Hname & _ & ? & ?).
    split_and!; [done|done|rewrite Hname; apply week_name_nonempty|].
    exists r, pid. split_and!; [done..|]. rewrite Hid.
    apply _safe_int_of_int.
Qed.

(** X17. The receiving summary of a season holds only receivers, tight
    ends and running backs, ranked by targets, highest first; each row
    repeats the name of a row of the season list, which is not empty. *)
Theorem receiving_season_positions_ranked season team limit out :
  receiving_season sb_select photo season team limit = Ok out →
  StronglySorted (λ a b, rs_targets b ≤ rs_targets a) out ∧
  ∀ o, o ∈ out →
    (rs_position o = Some "WR" ∨ rs_position o = Some "TE"
     ∨ rs_position o = Some "RB") ∧
    rs_player_name o ≠ EmptyString ∧ rs_season o = season.
Proof.
  intros (rows & Hrows & Hsorted & Hent)%receiving_season_Ok.
  split; [done|]. intros o Ho. destruct (Hent o Ho) as (r & Hr & He).
  apply receiving_season_entry_Some in He
    as (Hpos & _ & _ & _ & -> & -> & _ & _ & _ & Hs).
  destruct (players_list_row_entry _ _ _ _ _ _ _ _ Hrows Hr)
    as (s0 & s & ids & _ & _ & _ & Hle).
  pose proof (list_entry_display _ _ _ _ _ _ _ _ Hle) as (Hname & _).
  apply list_entry_Some in Hle
    as (pid & p & pos & _ & _ & Hup & _ & _ & _ & Hp & _).
  split_and!; [|done..].
  unfold row_position in Hpos. rewrite Hp in Hpos |- *.
  destruct (String.eqb pos EmptyString);
    [by destruct Hpos as [?|[?|?]]|].
  simpl in Hpos. rewrite Hup in Hpos.
  destruct Hpos as [-> | [-> | ->]]; auto.
Qed.

(** X18. The rushing summary of a season holds only running backs,
    quarterbacks, receivers and tight ends, ranked by rushing yards,
    highest first; each row repeats the name of a row of the season list,
    which is not empty. *)
Theorem rushing_season_positions_ranked season team limit out :
  rushing_season sb_select photo season team limit = Ok out →
  StronglySorted (λ a b, us_rush_yards b ≤ us_rush_yards a) out ∧
  ∀ o, o ∈ out →
    (us_position o = Some "RB" ∨ us_position o = Some "QB"
     ∨ us_position o = Some "WR" ∨ us_position o = Some "TE") ∧
    us_player_name o ≠ EmptyString ∧ us_season o = season.
Proof.
  intros (rows & Hrows & Hsorted & Hent)%rushing_season_Ok.
  split; [done|]. intros o Ho. destruct (Hent o Ho) as (r & Hr & He).
  apply rushing_season_entry_Some in He
    as (Hpos & _ & _ & _ & -> & -> & _ & _ & Hs).
  destruct (players_list_row_entry _ _ _ _ _ _ _ _ Hrows Hr)
    as (s0 & s & ids & _ & _ & _ & Hle).
  pose proof (list_entry_display _ _ _ _ _ _ _ _ Hle) as (Hname & _).
  apply list_entry_Some in Hle
    as (pid & p & pos & _ & _ & Hup & _ & _ & _ & Hp & _).
  split_and!; [|done..].
  unfold row_position in Hpos. rewrite Hp in Hpos |- *.
  destruct (String.eqb pos EmptyString);
    [by destruct Hpos as [?|[?|[?|?]]]|].
  simpl in Hpos. rewrite Hup in Hpos.
  destruct Hpos as [-> | [-> | [-> | ->]]]; auto.
Qed.

End DashboardMore.

(** X17 on the sample season of the share example: the two receivers of
    KC, and the running back of DEN, who has no target. *)
Lemma receiving_season_positions_witness :
  ∃ out,
    receiving_season (Mem.select Sample.share_db) Mem.no_photo 2023 None 10
      = Ok out ∧
    (λ o, (rs_position o, rs_targets o)) <$> out
      = [(Some "WR", 80); (Some "TE", 20); (Some "RB", 0)] ∧
    StronglySorted (λ a b, rs_targets b ≤ rs_targets a) out.
Proof.
  eexists. split; [vm_compute; reflexivity|]. split; [reflexivity|].
  exact (proj1 (receiving_season_positions_ranked
                  (Mem.select Sample.share_db) Mem.no_photo 2023 None 10 _
                  ltac:(vm_compute; reflexivity))).
Defined.

(** X18 on the same season. *)
Lemma rushing_season_positions_witness :
  ∃ out,
    rushing_season (Mem.select Sample.share_db) Mem.no_photo 2023 None 10
      = Ok out ∧
    (λ o, (us_position o, us_rush_yards o)) <$> out
      = [(Some "RB", 40); (Some "WR", 0); (Some "TE", 0)] ∧
    StronglySorted (λ a b, us_rush_yards b ≤ us_rush_yards a) out.
Proof.
  eexists. split; [vm_compute; reflexivity|]. split; [reflexivity|].
  exact (proj1 (rushing_season_positions_ranked
                  (Mem.select Sample.share_db) Mem.no_photo 2023 None 10 _
                  ltac:(vm_compute; reflexivity))).
Defined.

(** ** The team lookup *)

Section TeamMapMore.

Variable sb_select :
  string → string → list (string * string) → option string → Z → list row.

(** Every abbreviation the team lookup holds is upper-case. *)
Lemma team_map_upper team_ids i a :
  _team_map sb_select team_ids !! i = Some a → PyStr.upper a = a.
Proof.
  unfold _team_map. destruct team_ids as [|j ids].
  { by rewrite lookup_empty. }
  intros [H|(t & _ & _ & ->)]%team_map_turn_lookup.
  - by rewrite lookup_empty in H.
  - apply upper_idemp.
Qed.

(** X19. [_team_map] over any client.  For no ids it is empty.  Else it
    has an entry exactly for the ids [int(t["id"])] of the fetched team
    rows for which that conversion goes through, rows without such an id
    being skipped; and every entry is the upper-cased abbreviation of a
    fetched row with that id, so it is upper-case. *)
Theorem team_map_entries team_ids :
  (team_ids = [] → _team_map sb_select team_ids = ∅) ∧
  (∀ i, is_Some (_team_map sb_select team_ids !! i) ↔
        team_ids ≠ [] ∧
        ∃ t, t ∈ sb_select "nfl_teams" "id,abbreviation"
                   [("id", _in_list team_ids)] None
                   (Z.of_nat (length team_ids)) ∧
             (v ← Py.item t "id"; Py.int_ v) = Ok i) ∧
  (∀ i a, _team_map sb_select team_ids !! i = Some a →
          PyStr.upper a = a ∧
          ∃ t, t ∈ sb_select "nfl_teams" "id,abbreviation"
                     [("id", _in_list team_ids)] None
                     (Z.of_nat (length team_ids)) ∧
               (v ← Py.item t "id"; Py.int_ v) = Ok i ∧
               a = PyStr.upper
                     (Py.str_ (Py.or_ (get t "abbreviation")
                                 (VStr EmptyString)))).
Proof.
  split_and!.
  - by intros ->.
  - intros i. unfold _team_map. destruct team_ids as [|j ids].
    { rewrite lookup_empty. split; [by intros [? ?]|by intros [? _]]. }
    split.
    + intros [a [H|(t & Ht & Hid & _)]%team_map_turn_lookup].
      { by rewrite lookup_empty in H. }
      split; [done|]. exists t. split; [done|]. by apply item_int_safe_int.
    + intros (_ & t & Ht & Hid). apply team_map_turn_is_Some. right.
      exists t. split; [done|]. by apply item_int_safe_int.
  - intros i a Ha. split; [by apply team_map_upper in Ha|].
    revert Ha. unfold _team_map. destruct team_ids as [|j ids].
    { by rewrite lookup_empty. }
    intros [H|(t & Ht & Hid & ->)]%team_map_turn_lookup.
    { by rewrite lookup_empty in H. }
    exists t. split_and!; [done| |done]. by apply item_int_safe_int.
Qed.

(** Rows without the id leave an entry as it is. *)
Lemma team_map_turn_other teams m i :
  (∀ t, t ∈ teams → (v ← Py.item t "id"; Py.int_ v) ≠ Ok i) →
  foldl team_map_turn m teams !! i = m !! i.
Proof.
  revert m. induction teams as [|t teams IH]; intros m Hno; [done|].
  cbn [foldl]. rewrite IH.
  - unfold team_map_turn.
    destruct (v ← Py.item t "id"; Py.int_ v) as [j|] eqn:Ej; [|done].
    apply lookup_insert_ne. intros ->.
    by apply (Hno t); [apply elem_of_cons; left|].
  - intros t' Ht'. apply Hno. apply elem_of_cons. by right.
Qed.

(** X20. When several fetched team rows have the same id, the last one
    decides the abbreviation. *)
Theorem team_map_last_row_wins team_ids l1 t l2 i :
  team_ids ≠ [] →
  sb_select "nfl_teams" "id,abbreviation" [("id", _in_list team_ids)] None
    (Z.of_nat (length team_ids)) = l1 ++ t :: l2 →
  (v ← Py.item t "id"; Py.int_ v) = Ok i →
  (∀ t', t' ∈ l2 → (v ← Py.item t' "id"; Py.int_ v) ≠ Ok i) →
  _team_map sb_select team_ids !! i =
  Some (PyStr.upper
          (Py.str_ (Py.or_ (get t "abbreviation") (VStr EmptyString)))).
Proof.
  intros Hne Hrows Hid Hlast. unfold _team_map.
  destruct team_ids as [|j ids]; [done|]. rewrite Hrows.
  rewrite foldl_app. cbn [foldl]. rewrite team_map_turn_other by done.
  unfold team_map_turn. rewrite Hid. apply lookup_insert_eq.
Qed.

End TeamMapMore.

(** X20 on sample teams in which team 1 occurs twice, as "kc" and then as
    "Kan". *)
Lemma team_map_last_row_wins_witness :
  _team_map (Mem.select Sample.renamed_team_db) [1; 2; 3] !! 1 = Some "KAN".
Proof.
  apply (team_map_last_row_wins (Mem.select Sample.renamed_team_db)
           [1; 2; 3]
           [Sample.team 1 (VStr "kc"); Sample.team 2 (VStr "SF")]
           (Sample.team 1 (VStr "Kan")) [] 1).
  - discriminate.
  - vm_compute. reflexivity.
  - vm_compute. reflexivity.
  - intros t' Ht'. by apply elem_of_nil in Ht'.
Defined.

(** ** The filter expression for a list of ids *)

(** The characters of an integer printed with [str] are digits and the
    minus sign, so neither a comma nor a parenthesis. *)
Lemma of_int_plain i :
  Forall plain (list_ascii_of_string (PyStr.of_int i)).
Proof.
  assert (∀ p, Forall plain
                 (list_ascii_of_string (pretty_N_go (Npos p) EmptyString)))
    as Hpos.
  { intros p. apply pretty_N_go_chars; [|constructor].
    intros m. pose proof (isdigit_pretty_N_char m) as Hd.
    destruct (pretty_N_char m) as [[] [] [] [] [] [] [] []];
      vm_compute in Hd; try discriminate Hd; by split. }
  rewrite of_int_unfold. destruct i as [|p|p].
  - by repeat constructor.
  - apply Hpos.
  - simpl. constructor; [by split|apply Hpos].
Qed.

(** Two plain texts, each followed by a comma or a parenthesis: equal
    wholes have equal parts. *)
Lemma append_plain_inj s1 s2 r1 r2 :
  Forall plain (list_ascii_of_string s1) →
  Forall plain (list_ascii_of_string s2) →
  (∃ c r, r1 = String c r ∧ ¬ plain c) →
  (∃ c r, r2 = String c r ∧ ¬ plain c) →
  s1 +:+ r1 = s2 +:+ r2 → s1 = s2 ∧ r1 = r2.
Proof.
  revert s2. induction s1 as [|c s1 IH]; intros [|d s2] H1 H2 Hr1 Hr2;
    rewrite ?append_cons, ?append_nil.
  - done.
  - destruct Hr1 as (c & r & -> & Hc). intros [= -> _].
    apply Forall_cons in H2 as [? _]. done.
  - destruct Hr2 as (d & r & -> & Hd). intros [= -> _].
    apply Forall_cons in H1 as [? _]. done.
  - intros [= -> Heq]. simpl in H1, H2.
    apply Forall_cons in H1 as [_ H1]. apply Forall_cons in H2 as [_ H2].
    destruct (IH s2 H1 H2 Hr1 Hr2 Heq) as [-> ->]. done.
Qed.

Lemma join_cons_append p ps :
  PyStr.join "," (p :: ps) +:+ ")" =
  p +:+ match ps with
        | [] => ")"
        | _ => "," +:+ PyStr.join "," ps +:+ ")"
        end.
Proof.
  destruct ps as [|q ps]; [done|].
  change (PyStr.join "," (p :: q :: ps))
    with (p +:+ "," +:+ PyStr.join "," (q :: ps)).
  by rewrite !append_assoc.
Qed.

Lemma join_closed_inj (ps qs : list string) :
  Forall (λ p, p ≠ EmptyString ∧ Forall plain (list_ascii_of_string p)) ps →
  Forall (λ p, p ≠ EmptyString ∧ Forall plain (list_ascii_of_string p)) qs →
  PyStr.join "," ps +:+ ")" = PyStr.join "," qs +:+ ")" → ps = qs.
Proof.
  assert (∀ p l, p ≠ EmptyString →
            Forall plain (list_ascii_of_string p) →
            ")" ≠ PyStr.join "," (p :: l) +:+ ")") as Hopen.
  { intros p l Hp Hplain. rewrite join_cons_append.
    destruct p as [|c p]; [done|]. rewrite append_cons. intros [= <- _].
    apply Forall_cons in Hplain as [[_ ?] _]. done. }
  assert (∀ l : list string,
            ∃ c r, match l with
                   | [] => ")"
                   | _ => "," +:+ PyStr.join "," l +:+ ")"
                   end = String c r ∧ ¬ plain c) as Hsep.
  { intros [|p l]; eexists _, _; (split; [reflexivity|]);
      intros [? ?]; done. }
  revert qs. induction ps as [|p ps IH]; intros [|q qs] Hps Hqs.
  - done.
  - apply Forall_cons in Hqs as [[? ?] _]. intros Heq.
    by apply Hopen in Heq.
  - apply Forall_cons in Hps as [[? ?] _]. intros Heq. symmetry in Heq.
    by apply Hopen in Heq.
  - apply Forall_cons in Hps as [[Hp Hpp] Hps].
    apply Forall_cons in Hqs as [[Hq Hqp] Hqs].
    rewrite !join_cons_append.
    intros [-> Hrest]%append_plain_inj; [|done|done|apply Hsep..].
    f_equal. destruct ps as [|p' ps], qs as [|q' qs]; try done.
    apply IH; [done..|]. rewrite !append_cons, !append_nil in Hrest.
    by injection Hrest.
Qed.

(** X21. [_in_list] tells lists of ids apart: two different lists never
    give the same filter expression. *)
Theorem in_list_injective l1 l2 : l1 ≠ l2 → _in_list l1 ≠ _in_list l2.
Proof.
  intros Hne Heq. apply Hne. unfold _in_list in Heq.
  rewrite !append_cons, !append_nil in Heq. injection Heq as Heq.
  assert (∀ l : list Z,
            Forall (λ p, p ≠ EmptyString ∧
                         Forall plain (list_ascii_of_string p))
              (PyStr.of_int <$> l)) as Hall.
  { intros l. apply Forall_fmap, Forall_forall. intros i _. simpl.
    split; [apply of_int_nonempty|apply of_int_plain]. }
  apply join_closed_inj in Heq; [|apply Hall..].
  assert (Inj (=) (=) PyStr.of_int) as Hinj.
  { unfold PyStr.of_int. apply _. }
  by apply (inj (fmap PyStr.of_int)) in Heq.
Qed.

(** X21 at work: the ids 1 and 2 against the one id 12. *)
Lemma in_list_injective_witness :
  _in_list [1; 2] = "in.(1,2)" ∧ _in_list [12] = "in.(12)" ∧
  _in_list [1; 2] ≠ _in_list [12].
Proof.
  split; [reflexivity|]. split; [reflexivity|].
  apply in_list_injective. discriminate.
Defined.

(** ** When the game log returns *)

(** X22. The game log of a well-formed player id returns exactly when
    every game id that is present among the fetched stat rows converts
    under [int]: then it has one row per stat row with an integer game id,
    and one stat row whose game id is present but does not convert makes
    the call raise. *)
Theorem game_log_returns_or_raises sb_select player_id season pp pid :
  _safe_int (VStr player_id) = Some pid →
  ((∀ r, r ∈ game_log_stats sb_select pid season pp →
         Py.present (get r "game_id") = true →
         ∃ i, Py.int_ (get r "game_id") = Ok i) →
   ∃ out,
     get_player_game_logs sb_select player_id season pp = Ok out ∧
     length out =
       length (omap (λ r, _safe_int (get r "game_id"))
                 (game_log_stats sb_select pid season pp))) ∧
  (∀ r e, r ∈ game_log_stats sb_select pid season pp →
          Py.present (get r "game_id") = true →
          Py.int_ (get r "game_id") = Raise e →
          ∃ e', get_player_game_logs sb_select player_id season pp
                = Raise e').
Proof.
  intros Hpid. split.
  - intros Hconv.
    destruct (game_log_rows_retained sb_select player_id season pp pid
                Hpid Hconv) as (ids & _ & Hout & _).
    eexists. split; [exact Hout|].
    rewrite <- (length_fmap lg_game_id), omap_log_entry_game_ids.
    by rewrite length_fmap.
  - intros r e. by apply game_log_unguarded_game_id.
Qed.

(** X22 on the sample log of player 7, in which one stat row has no game
    id and none has a game id that fails to convert. *)
Lemma game_log_returns_witness :
  ∃ out,
    get_player_game_logs (Mem.select Sample.log_db) "7" 2023 false = Ok out ∧
    length out = 5%nat.
Proof.
  destruct (game_log_returns_or_raises (Mem.select Sample.log_db)
              "7" 2023 false 7 ltac:(vm_compute; reflexivity))
    as [Hret _].
  destruct Hret as (out & Hout & Hlen).
  - intros r Hr. vm_compute in Hr.
    repeat (apply elem_of_cons in Hr as [->|Hr];
            [first [ intros _; eexists; vm_compute; reflexivity
                   | intros Hp; vm_compute in Hp; discriminate Hp ]|]).
    by apply elem_of_nil in Hr.
  - exists out. split; [exact Hout|]. rewrite Hlen. vm_compute. reflexivity.
Defined.

(** ** Ties in the ranking of a dashboard *)

Lemma filter_take_prefix {A} (P : A → Prop) `{∀ x, Decision (P x)} n
    (l : list A) :
  filter P (take n l) `prefix_of` filter P l.
Proof.
  exists (filter P (drop n l)). by rewrite <- filter_app, take_drop.
Qed.

(** X23. The ranking of the stat rows of a dashboard is stable: among the
    stat rows with one and the same value of the ranking column, the rows
    kept are the first ones of the fetch, in the order of the fetch. *)
Theorem dashboard_ties_keep_fetch_order
    sb_select columns rank_column season week team limit k :
  filter (λ r, Py.or_zero (_safe_int (get r rank_column)) = k)
    (week_stats sb_select columns rank_column season week team limit)
  `prefix_of`
  filter (λ r, Py.or_zero (_safe_int (get r rank_column)) = k)
    (sb_select "nfl_player_game_stats" columns
       (week_filters sb_select season week team) None 5000).
Proof.
  unfold week_stats, truncate. cbv zeta.
  rewrite <- (sort_desc_stable
                (λ r, Py.or_zero (_safe_int (get r rank_column))) k
                (sb_select "nfl_player_game_stats" columns
                   (week_filters sb_select season week team) None 5000)).
  apply (filter_take_prefix
           (λ r, Py.or_zero (_safe_int (get r rank_column)) = k)).
Qed.

(** ** Team abbreviations shown *)

Lemma log_entry_teams season game_map tmap r o a :
  log_entry season game_map tmap r = Some o →
  lg_team o = Some a ∨ lg_opponent o = Some a ∨ lg_home_team o = Some a
  ∨ lg_away_team o = Some a →
  ∃ i, tmap !! i = Some a.
Proof.
  assert (∀ x : option Z, x ≫= (tmap !!.) = Some a → ∃ i, tmap !! i = Some a)
    as Hbind.
  { intros [i|]; [|done]. simpl. by exists i. }
  unfold log_entry.
  destruct (_safe_int (get r "game_id")) as [gid|]; [|done].
  unfold location_opponent.
  destruct (_safe_int (get r "team_id")) as [t|] eqn:Et;
    destruct (_safe_int (get (default [] (game_map !! gid)) "home_team_id"))
      as [h|] eqn:Eh;
    destruct (_safe_int
                (get (default [] (game_map !! gid)) "visitor_team_id"))
      as [v|] eqn:Ev;
    try destruct (t =? h);
    intros [= <-]; cbn [lg_team lg_opponent lg_home_team lg_away_team];
    intros [H|[H|[H|H]]]; try done;
    try (by apply (Hbind (Some t)));
    try (by apply (Hbind (Some h)));
    try (by apply (Hbind (Some v))).
Qed.

(** X24. Every team abbreviation a pipeline shows is upper-case: the team
    of a row of the season list, of a weekly dashboard and of a season
    summary, and the team, the opponent, the home team and the away team
    of a row of the game log. *)
Theorem team_abbreviations_upper_case sb_select photo :
  (∀ season position team limit out o a,
     get_players_list sb_select photo season position team limit = Ok out →
     o ∈ out → pl_team o = Some a → PyStr.upper a = a) ∧
  (∀ season week team limit o a,
     o ∈ receiving_dashboard sb_select photo season week team limit →
     rv_team o = Some a → PyStr.upper a = a) ∧
  (∀ season week team limit o a,
     o ∈ rushing_dashboard sb_select photo season week team limit →
     ru_team o = Some a → PyStr.upper a = a) ∧
  (∀ season team limit out o a,
     receiving_season sb_select photo season team limit = Ok out →
     o ∈ out → rs_team o = Some a → PyStr.upper a = a) ∧
  (∀ season team limit out o a,
     rushing_season sb_select photo season team limit = Ok out →
     o ∈ out → us_team o = Some a → PyStr.upper a = a) ∧
  (∀ player_id season pp out o a,
     get_player_game_logs sb_select player_id season pp = Ok out →
     o ∈ out →
     lg_team o = Some a ∨ lg_opponent o = Some a ∨ lg_home_team o = Some a
     ∨ lg_away_team o = Some a →
     PyStr.upper a = a).
Proof.
  assert (∀ (x : option Z) ids a,
            x ≫= (_team_map sb_select ids !!.) = Some a → PyStr.upper a = a)
    as Hbind.
  { intros [i|] ids a; [|done]. simpl. apply team_map_upper. }
  assert (∀ season position team limit out o a,
     get_players_list sb_select photo season position team limit = Ok out →
     o ∈ out → pl_team o = Some a → PyStr.upper a = a) as Hlist.
  { intros season position team limit out o a Hout Ho Ha.
    destruct (players_list_row_entry _ _ _ _ _ _ _ _ Hout Ho)
      as (s0 & s & ids & _ & _ & _ & He).
    apply list_entry_Some in He
      as (pid & p & pos & _ & _ & _ & _ & _ & _ & _ & Hteam & _).
    rewrite Hteam in Ha. by apply Hbind in Ha. }
  split_and!; [exact Hlist|..].
  - intros season week team limit o a (r & Hr & Ho)%list_elem_of_omap Ha.
    unfold receiving_entry in Ho.
    destruct (_safe_int (get r "player_id")) as [pid|]; [|done].
    injection Ho as <-. simpl in Ha. by apply Hbind in Ha.
  - intros season week team limit o a (r & Hr & Ho)%list_elem_of_omap Ha.
    unfold rushing_entry in Ho.
    destruct (_safe_int (get r "player_id")) as [pid|]; [|done].
    injection Ho as <-. simpl in Ha. by apply Hbind in Ha.
  - intros season team limit out o a
      (rows & Hrows & _ & Hent)%receiving_season_Ok Ho Ha.
    destruct (Hent o Ho) as (r & Hr & He).
    apply receiving_season_entry_Some in He as (_ & _ & Ht & _).
    rewrite Ht in Ha. by apply (Hlist _ _ _ _ _ _ _ Hrows Hr).
  - intros season team limit out o a
      (rows & Hrows & _ & Hent)%rushing_season_Ok Ho Ha.
    destruct (Hent o Ho) as (r & Hr & He).
    apply rushing_season_entry_Some in He as (_ & _ & Ht & _).
    rewrite Ht in Ha. by apply (Hlist _ _ _ _ _ _ _ Hrows Hr).
  - intros player_id season pp out o a Hout Ho Ha.
    apply get_player_game_logs_Ok in Hout as [->|(pid & ids & _ & _ & ->)].
    { by apply elem_of_nil in Ho. }
    apply list_elem_of_omap in Ho as (r & _ & Ho).
    destruct (log_entry_teams _ _ _ _ _ _ Ho Ha) as [i Hi].
    by apply team_map_upper in Hi.
Qed.

(** X24 on the sample log, whose teams table spells one abbreviation
    "den": the log shows it as "DEN". *)
Lemma team_abbreviations_upper_case_witness :
  ∃ out,
    get_player_game_logs (Mem.select Sample.log_db) "7" 2023 false = Ok out ∧
    lg_opponent <$> out = [Some "SF"; Some "DEN"; None; None; None] ∧
    Forall (λ o, ∀ a, lg_opponent o = Some a → PyStr.upper a = a) out.
Proof.
  destruct (team_abbreviations_upper_case (Mem.select Sample.log_db)
              Mem.no_photo) as (_ & _ & _ & _ & _ & Hlog).
  eexists. split; [vm_compute; reflexivity|]. split; [reflexivity|].
  apply Forall_forall. intros o Ho a Ha.
  apply (Hlog "7" 2023 false _ o a ltac:(vm_compute; reflexivity) Ho).
  right. left. exact Ha.
Defined.

(** ** No row without a stat row *)

Lemma collectR_length {A B} (f : A → result (option B)) l out :
  collectR f l = Ok out → (length out ≤ length l)%nat.
Proof.
  intros (ys & Hys & ->)%collectR_Ok.
  rewrite (Forall2_length _ _ _ Hys). apply length_omap_le.
Qed.

Lemma truncate_length_le {A} limit cap (l : list A) :
  (length (truncate limit cap l) ≤ length l)%nat.
Proof. rewrite truncate_length. lia. Qed.

(** X25. No pipeline returns more rows than the stat rows it fetched: the
    season list has at most as many rows as the season stat fetch
    returned, a season summary at most as many as the season list it is
    made from, and a weekly dashboard at most as many as its stat
    fetch. *)
Theorem rows_bounded_by_stat_rows sb_select photo :
  (∀ season position team limit out,
     get_players_list sb_select photo (Some season) position team limit
       = Ok out →
     (length out ≤
      length (sb_select "nfl_player_season_stats" season_stats_columns
                [("season", "eq." +:+ PyStr.of_int season);
                 ("postseason", "eq.false")] None 8000%Z))%nat) ∧
  (∀ season team limit out,
     receiving_season sb_select photo season team limit = Ok out →
     ∃ rows,
       get_players_list sb_select photo (Some season) None team 8000
         = Ok rows ∧
       (length out ≤ length rows)%nat) ∧
  (∀ season team limit out,
     rushing_season sb_select photo season team limit = Ok out →
     ∃ rows,
       get_players_list sb_select photo (Some season) None team 8000
         = Ok rows ∧
       (length out ≤ length rows)%nat) ∧
  (∀ season week team limit,
     (length (receiving_dashboard sb_select photo season week team limit) ≤
      length (sb_select "nfl_player_game_stats" receiving_columns
                (week_filters sb_select season week team) None 5000%Z))%nat) ∧
  (∀ season week team limit,
     (length (rushing_dashboard sb_select photo season week team limit) ≤
      length (sb_select "nfl_player_game_stats" rushing_columns
                (week_filters sb_select season week team) None 5000%Z))%nat).
Proof.
  split_and!.
  - intros season position team limit out. unfold get_players_list.
    assert (length (season_stats_rows sb_select season) ≤
            length (sb_select "nfl_player_season_stats" season_stats_columns
                      [("season", "eq." +:+ PyStr.of_int season);
                       ("postseason", "eq.false")] None 8000%Z))%nat as Hf.
    { unfold season_stats_rows. apply length_filter. }
    destruct (season_stats_rows sb_select season) as [|r rs] eqn:Es.
    { intros [= <-]. simpl. lia. }
    destruct (omap _ (r :: rs)) eqn:Eo.
    { intros [= <-]. simpl. lia. }
    destruct (list_rows _ _ _ _ _ _) as [rows|] eqn:El; [|done].
    cbn [mbind result_bind]. intros H. injection H as <-.
    apply list_rows_context in El as (team_ids & _ & Hc).
    apply collectR_length in Hc.
    pose proof (truncate_length_le limit 300 (sort_desc sort_key rows)).
    rewrite sort_desc_length in *. lia.
  - intros season team limit out. unfold receiving_season.
    destruct (get_players_list _ _ _ _ _ _) as [rows|]; [|done].
    cbn [mbind result_bind].
    destruct (collectR _ rows) as [ys|] eqn:Ec; [|done].
    cbn [mbind result_bind]. intros H. injection H as <-.
    exists rows. split; [done|]. apply collectR_length in Ec.
    pose proof (truncate_length_le limit 200 (sort_desc rs_targets ys)).
    rewrite sort_desc_length in *. lia.
  - intros season team limit out. unfold rushing_season.
    destruct (get_players_list _ _ _ _ _ _) as [rows|]; [|done].
    cbn [mbind result_bind].
    destruct (collectR _ rows) as [ys|] eqn:Ec; [|done].
    cbn [mbind result_bind]. intros H. injection H as <-.
    exists rows. split; [done|]. apply collectR_length in Ec.
    pose proof (truncate_length_le limit 200 (sort_desc us_rush_yards ys)).
    rewrite sort_desc_length in *. lia.
  - intros season week team limit. unfold receiving_dashboard. cbv zeta.
    etrans; [apply length_omap_le|]. unfold week_stats.
    etrans; [apply truncate_length_le|]. by rewrite sort_desc_length.
  - intros season week team limit. unfold rushing_dashboard. cbv zeta.
    etrans; [apply length_omap_le|]. unfold week_stats.
    etrans; [apply truncate_length_le|]. by rewrite sort_desc_length.
Qed.
